(** * SuperMartConnect: the M-Pesa STK Push payment lifecycle

    A shallow embedding of the M-Pesa router (the second module in
    [src/cat1supermarket/server/routes/inventory.js], from
    [validateEnvVariables] on) together with the [mpesa_transactions] table
    it writes (schema in [src/unnamed/part_001]), and the properties of the
    payment core proved on it; then the item and county routes of the
    inventory router (the first module of the same file) with theirs.

    Conventions of the embedding.
    - A JavaScript value is a [value]; numbers are the integers ([Z]), which
      covers result codes, HTTP statuses and clock readings; fractions and
      NaN are not represented.
    - A JavaScript string is a [string]; every string the handlers inspect
      character by character (phone numbers, timestamps) is ASCII.
    - An exception is a [Throw] carrying the thrown value; [try]/[catch] is
      a [match] on the [result].
    - A handler is a function from the server state, the request and the
      readings it takes from its collaborators (clock, provider replies) to
      an [outcome]: the reply sent, the state afterwards and the trace of
      outbound effects in program order. *)

From Stdlib Require Import ZArith Ascii.
From stdpp Require Import base strings list gmap pretty.

Local Open Scope Z_scope.
Set Warnings "-register-all".

(** ** JavaScript values *)

Module Js.

Inductive value :=
| VUndefined
| VNull
| VBool (b : bool)
| VNum (n : Z)
| VStr (s : string)
| VArr (items : list value)
| VObj (fields : list (string * value)).

(** Exceptions: [Throw e] is [throw e]. *)
Inductive result (A : Type) :=
| Ok (a : A)
| Throw (e : value).
Arguments Ok {A} a.
Arguments Throw {A} e.

Definition bind {A B} (m : result A) (k : A → result B) : result B :=
  match m with
  | Ok a => k a
  | Throw e => Throw e
  end.

(** [new Error(msg)]: only the [message] property is ever read back. *)
Definition Error (msg : string) : value := VObj [("message", VStr msg)].

(** A [TypeError] raised by the engine; the message text is the engine's,
    [what] names the failed operation. *)
Definition TypeError (what : string) : value :=
  VObj [("name", VStr "TypeError"); ("message", VStr what)].

(** ToBoolean. *)
Definition truthy (v : value) : bool :=
  match v with
  | VUndefined | VNull => false
  | VBool b => b
  | VNum n => negb (n =? 0)
  | VStr s => negb (String.eqb s "")
  | VArr _ | VObj _ => true
  end.

(** [a || b] and [a && b] on values. *)
Definition or_else (a b : value) : value := if truthy a then a else b.
Definition and_then (a b : value) : value := if truthy a then b else a.

(** [v === n] for a number literal [n], [v === s] for a string literal. *)
Definition strict_eq_num (v : value) (n : Z) : bool :=
  match v with VNum m => m =? n | _ => false end.
Definition strict_eq_str (v : value) (s : string) : bool :=
  match v with VStr t => String.eqb t s | _ => false end.

Fixpoint assoc (k : string) (fs : list (string * value)) : value :=
  match fs with
  | [] => VUndefined
  | (k', v) :: fs' => if String.eqb k' k then v else assoc k fs'
  end.

(** [v.k] once [v] is known not to be [null] or [undefined]. None of the
    property names the router reads is defined on a primitive or on an
    array, so only objects answer anything but [undefined]. *)
Definition prop (v : value) (k : string) : value :=
  match v with
  | VObj fs => assoc k fs
  | _ => VUndefined
  end.

Definition nullish (v : value) : bool :=
  match v with VUndefined | VNull => true | _ => false end.

(** [v.k]: reading a property of [null] or [undefined] throws. *)
Definition get (v : value) (k : string) : result value :=
  if nullish v then Throw (TypeError ("Cannot read properties of null or undefined: " +:+ k))
  else Ok (prop v k).

(** [v?.k] *)
Definition opt (v : value) (k : string) : value :=
  if nullish v then VUndefined else prop v k.

(** ToString, as used by [+] with a string operand and by template
    literals. *)
Fixpoint to_string (v : value) : string :=
  match v with
  | VUndefined => "undefined"
  | VNull => "null"
  | VBool true => "true"
  | VBool false => "false"
  | VNum n => pretty n
  | VStr s => s
  | VArr items =>
      (fix join (l : list value) : string :=
         match l with
         | [] => ""
         | [x] => if nullish x then "" else to_string x
         | x :: l' => (if nullish x then "" else to_string x) +:+ "," +:+ join l'
         end) items
  | VObj _ => "[object Object]"
  end.

(** [Array.prototype.find] with the predicate [item => item.Name === name]:
    the first element whose [Name] is [name], [undefined] when there is
    none; reading [Name] of a [null] element throws. *)
Fixpoint find_by_name (name : string) (items : list value) : result value :=
  match items with
  | [] => Ok VUndefined
  | item :: rest =>
      bind (get item "Name") (λ n,
        if strict_eq_str n name then Ok item else find_by_name name rest)
  end.

(** [metaData.find(item => item.Name === name)?.Value]; calling [find] on
    anything but an array is a [TypeError] (no parsed JSON value carries a
    callable [find]). *)
Definition find_value (metaData : value) (name : string) : result value :=
  match metaData with
  | VArr items => bind (find_by_name name items) (λ item, Ok (opt item "Value"))
  | _ => Throw (TypeError "metaData.find is not a function")
  end.

(** [String.prototype.substring(a, b)]: both ends are clamped to
    [0, length] and swapped when out of order. *)
Definition substring (s : string) (a b : Z) : string :=
  let len := Z.of_nat (String.length s) in
  let a' := Z.max 0 (Z.min a len) in
  let b' := Z.max 0 (Z.min b len) in
  let lo := Z.min a' b' in
  let hi := Z.max a' b' in
  String.substring (Z.to_nat lo) (Z.to_nat (hi - lo)) s.

(** [s.substring(a)] *)
Definition substring_from (s : string) (a : Z) : string :=
  substring s a (Z.of_nat (String.length s)).

(** [s.startsWith(p)] *)
Definition startsWith (s p : string) : bool := String.prefix p s.

Definition is_digit (c : ascii) : bool :=
  let n := N_of_ascii c in ((48 <=? n) && (n <=? 57))%N.

(** [s.replace(/[^0-9]/g, '')] *)
Fixpoint strip_non_digits (s : string) : string :=
  match s with
  | EmptyString => EmptyString
  | String c s' =>
      if is_digit c then String c (strip_non_digits s') else strip_non_digits s'
  end.

Fixpoint all_digits (s : string) : bool :=
  match s with
  | EmptyString => true
  | String c s' => is_digit c && all_digits s'
  end.

End Js.

Import Js.

#[global] Instance result_bind : MBind result := λ A B k m, Js.bind m k.
#[global] Instance result_ret : MRet result := @Js.Ok.

(** ** Phone numbers ([POST /stkpush], "Format phone number") *)

Module Phone.

(** The value of [formattedPhone] after the two prefix rewrites. *)
Definition format (phone : string) : string :=
  let formattedPhone := strip_non_digits phone in
  if startsWith formattedPhone "0" then
    "254" +:+ substring_from formattedPhone 1
  else if negb (startsWith formattedPhone "254") then
    "254" +:+ formattedPhone
  else formattedPhone.

(** [/^254[0-9]{9}$/.test(s)] *)
Definition canonical (s : string) : bool :=
  match s with
  | String "2" (String "5" (String "4" rest)) =>
      (String.length rest =? 9)%nat && all_digits rest
  | _ => false
  end.

(** [row.phone.substring(0, 6) + '****' + row.phone.substring(row.phone.length - 2)] *)
Definition mask (phone : string) : string :=
  substring phone 0 6 +:+ "****"
    +:+ substring_from phone (Z.of_nat (String.length phone) - 2).

End Phone.


(** ** Configuration ([validateEnvVariables], [MPESA_CONFIG]) *)

Module Config.

Definition required : list string :=
  [ "MPESA_CONSUMER_KEY"; "MPESA_CONSUMER_SECRET"; "MPESA_SHORTCODE";
    "MPESA_PASSKEY"; "MPESA_CALLBACK_URL" ].

(** [process.env[name]]: a string, or [undefined] when the variable is
    not set. *)
Definition env_get (env : gmap string string) (name : string) : value :=
  match env !! name with
  | Some s => VStr s
  | None => VUndefined
  end.

(** [configStatus]; its [shortcode] field is [shortcode_status] here. *)
Record config_status := {
  valid : bool;
  missing : list string;
  warnings : list string;
  shortcode_status : value;
  hasValidCredentials : bool
}.

Definition validateEnvVariables (env : gmap string string) : config_status :=
  let missing := List.filter (λ envVar, negb (truthy (env_get env envVar))) required in
  let envWarnings :=
    (if negb (truthy (env_get env "MPESA_CONSUMER_KEY"))
        || strict_eq_str (env_get env "MPESA_CONSUMER_KEY") "your_consumer_key_here"
     then ["MPESA_CONSUMER_KEY is still set to default placeholder value"] else [])
    ++
    (if negb (truthy (env_get env "MPESA_PASSKEY"))
        || strict_eq_str (env_get env "MPESA_PASSKEY") "your_passkey_here"
     then ["MPESA_PASSKEY is still set to default placeholder value"] else []) in
  let hasValid := (length missing =? 0)%nat && (length envWarnings =? 0)%nat in
  let valid1 := if (0 <? length missing)%nat then false else true in
  let valid2 := if (0 <? length envWarnings)%nat then false else valid1 in
  {| valid := valid2;
     missing := missing;
     warnings := envWarnings;
     shortcode_status := or_else (env_get env "MPESA_SHORTCODE") VNull;
     hasValidCredentials := hasValid |}.

Record mpesa_config := {
  consumerKey : value;
  consumerSecret : value;
  shortcode : value;
  passkey : value;
  callbackUrl : value;
  authUrl : string;
  stkPushUrl : string;
  stkQueryUrl : string
}.

Definition MPESA_CONFIG (env : gmap string string) : mpesa_config :=
  {| consumerKey := env_get env "MPESA_CONSUMER_KEY";
     consumerSecret := env_get env "MPESA_CONSUMER_SECRET";
     shortcode := env_get env "MPESA_SHORTCODE";
     passkey := env_get env "MPESA_PASSKEY";
     callbackUrl := env_get env "MPESA_CALLBACK_URL";
     authUrl := "https://sandbox.safaricom.co.ke/oauth/v1/generate?grant_type=client_credentials";
     stkPushUrl := "https://sandbox.safaricom.co.ke/mpesa/stkpush/v1/processrequest";
     stkQueryUrl := "https://sandbox.safaricom.co.ke/mpesa/stkpushquery/v1/query" |}.

Definition strings (l : list string) : value := VArr (VStr <$> l).

End Config.

(** ** Collaborators

    Pure functions of the platform the router calls and whose definition
    is not part of the repository. Every property below holds for any
    choice of them. *)

Class Platform := {
  (** the text SQLite holds for a bound parameter under TEXT affinity,
      [None] when the driver binds NULL. A parameter equals a TEXT column
      exactly when this text is the column's. *)
  to_text : value → option string;
  (** [Buffer.from(s).toString('base64')] *)
  base64 : string → string;
  (** [Math.round], after ToNumber *)
  Math_round : value → value
}.

(** ** The transaction store (table [mpesa_transactions]) *)

Module Store.

Inductive tx_status := pending | completed | failed.

Definition status_text (s : tx_status) : string :=
  match s with
  | pending => "pending"
  | completed => "completed"
  | failed => "failed"
  end.

Record row := {
  id : Z;
  merchant_request_id : string;
  checkout_request_id : string;
  phone : string;
  amount : value;
  branch : value;
  product : value;
  status : tx_status;
  result_code : value;
  result_desc : value;
  mpesa_receipt : value;
  created_at : string;
  completed_at : value
}.

(** A bound parameter as stored: [undefined] is NULL. *)
Definition bound (v : value) : value := if nullish v then VNull else v.

(** [WHERE merchant_request_id = ?] *)
Definition matches `{Platform} (merchantRequestID : value) (r : row) : bool :=
  match to_text merchantRequestID with
  | Some m => String.eqb m (merchant_request_id r)
  | None => false
  end.

(** [id INTEGER PRIMARY KEY AUTOINCREMENT]; rows are never deleted. *)
Definition next_id (rows : list row) : Z :=
  1 + foldr (λ r acc, Z.max (id r) acc) 0 rows.

(** [INSERT INTO mpesa_transactions (...) VALUES (?, ?, ?, ?, ?, ?, 'pending')]
    at SQL time [now]. The statement fails, and only logs, when a NOT NULL
    or UNIQUE constraint of the table is violated. *)
Definition insert_pending `{Platform} (now : string)
    (merchantRequestID checkoutRequestID : value) (formattedPhone : string)
    (amount branch product : value) (rows : list row) : list row :=
  match to_text merchantRequestID, to_text checkoutRequestID with
  | Some m, Some c =>
      if nullish amount then rows
      else if existsb (λ r, String.eqb (merchant_request_id r) m) rows then rows
      else if existsb (λ r, String.eqb (checkout_request_id r) c) rows then rows
      else rows ++ [ {| id := next_id rows;
                        merchant_request_id := m;
                        checkout_request_id := c;
                        phone := formattedPhone;
                        amount := amount;
                        branch := bound branch;
                        product := bound product;
                        status := pending;
                        result_code := VNull;
                        result_desc := VNull;
                        mpesa_receipt := VNull;
                        created_at := now;
                        completed_at := VNull |} ]
  | _, _ => rows
  end.

(** [resultCode === 0 ? 'completed' : 'failed'], as written in the
    callback handler. *)
Definition callback_status (resultCode : value) : tx_status :=
  if strict_eq_num resultCode 0 then completed else failed.

(** [queryResponse.ResultCode === 0 ? 'completed' : 'failed'], as written
    in the status query handler. *)
Definition query_status (ResultCode : value) : tx_status :=
  if strict_eq_num ResultCode 0 then completed else failed.

(** The callback's
    [UPDATE mpesa_transactions SET status = ?, result_code = ?,
     result_desc = ?, mpesa_receipt = ?, completed_at = CURRENT_TIMESTAMP
     WHERE merchant_request_id = ?]. *)
Definition update_from_callback `{Platform} (now : string)
    (resultCode resultDesc mpesaReceiptNumber merchantRequestID : value)
    (rows : list row) : list row :=
  (λ r, if matches merchantRequestID r then
          {| id := id r;
             merchant_request_id := merchant_request_id r;
             checkout_request_id := checkout_request_id r;
             phone := phone r;
             amount := amount r;
             branch := branch r;
             product := product r;
             status := callback_status resultCode;
             result_code := bound resultCode;
             result_desc := bound resultDesc;
             mpesa_receipt := bound mpesaReceiptNumber;
             created_at := created_at r;
             completed_at := VStr now |}
        else r) <$> rows.

(** The status query's
    [UPDATE mpesa_transactions SET status = ?, result_code = ?,
     result_desc = ?, completed_at = CURRENT_TIMESTAMP
     WHERE merchant_request_id = ?]. *)
Definition update_from_query `{Platform} (now : string)
    (ResultCode ResultDesc merchantRequestID : value)
    (rows : list row) : list row :=
  (λ r, if matches merchantRequestID r then
          {| id := id r;
             merchant_request_id := merchant_request_id r;
             checkout_request_id := checkout_request_id r;
             phone := phone r;
             amount := amount r;
             branch := branch r;
             product := product r;
             status := query_status ResultCode;
             result_code := bound ResultCode;
             result_desc := bound ResultDesc;
             mpesa_receipt := mpesa_receipt r;
             created_at := created_at r;
             completed_at := VStr now |}
        else r) <$> rows.

(** [SELECT * FROM mpesa_transactions WHERE merchant_request_id = ?]
    through [db.get]: the first matching row, if any. *)
Definition select_by_merchant `{Platform} (merchantRequestID : value)
    (rows : list row) : option row :=
  List.find (matches merchantRequestID) rows.

(** Insertion of [r] into a list ordered by [created_at], newest first;
    among equal timestamps the earlier insertion comes first (SQLite
    leaves that order open). *)
Fixpoint insert_newest_first (r : row) (sorted : list row) : list row :=
  match sorted with
  | [] => [r]
  | r' :: rest =>
      if String.ltb (created_at r') (created_at r) then r :: r' :: rest
      else r' :: insert_newest_first r rest
  end.

(** [SELECT * FROM mpesa_transactions ORDER BY created_at DESC LIMIT 50] *)
Definition select_recent (rows : list row) : list row :=
  take 50 (foldl (λ acc r, insert_newest_first r acc) [] rows).

End Store.

(** ** The M-Pesa router

    The [authenticateToken] middleware in front of every route but
    [/callback] is a collaborator outside the payment core; the handlers
    below are the route bodies. *)

Module Mpesa.
Import Config Store.

(** The settled promise of an [axios] call: [response.data] when it
    resolves, the error when it rejects. *)
Inductive axios_reply :=
| Resolved (data : value)
| Rejected (error : value).

(** Outbound effects, in program order. *)
Inductive event :=
| HttpGet (url authorization : string)
| HttpPost (url authorization : string) (payload : value)
| Emit (room name : string) (payload : value)
| ConsoleError (label : string).

Definition is_network (e : event) : bool :=
  match e with
  | HttpGet _ _ | HttpPost _ _ _ => true
  | _ => false
  end.

(** The module-level token cache ([accessToken], [tokenExpiry]) and the
    table. [tokenExpiry] is only ever [null] or a number. *)
Record state := {
  accessToken : value;
  tokenExpiry : option Z;
  store : list row
}.

Definition initial : state :=
  {| accessToken := VNull; tokenExpiry := None; store := [] |}.

(** What one request reads from outside the process. *)
Record world := {
  iso_time : string;        (** [new Date().toISOString()] *)
  now_check : Z;            (** [Date.now()] at the cache test *)
  now_reply : Z;            (** [Date.now()] once the token reply is in *)
  now_report : Z;           (** [Date.now()] when [expiresIn] is computed *)
  sql_time : string;        (** [CURRENT_TIMESTAMP] *)
  auth_reply : axios_reply; (** the reply [axios.get(authUrl)] would get *)
  api_reply : axios_reply   (** the reply [axios.post(...)] would get *)
}.

Record reply := { code : Z; json : value }.

(** [sent] is [Throw e] when [e] escapes the handler, which then sends
    nothing. *)
Record outcome := {
  sent : result reply;
  after : state;
  trace : list event
}.

(** [{ ResultCode: 0, ResultDesc: 'Success' }] *)
Definition ack : reply :=
  {| code := 200;
     json := VObj [("ResultCode", VNum 0); ("ResultDesc", VStr "Success")] |}.

Definition expiry_truthy (e : option Z) : bool :=
  match e with
  | Some n => negb (n =? 0)
  | None => false
  end.

(** [Date.now() < tokenExpiry], evaluated only for a truthy expiry. *)
Definition before_expiry (now : Z) (e : option Z) : bool :=
  match e with
  | Some n => now <? n
  | None => false
  end.

Definition cache_valid (st : state) (now : Z) : bool :=
  truthy (accessToken st) && expiry_truthy (tokenExpiry st)
    && before_expiry now (tokenExpiry st).

Section Handlers.
Context `{Platform} (env : gmap string string).

(** The [catch] block of [getAccessToken]: what it logs. The second
    [console.error] reads [error.response] for its argument, which throws
    for an [error] that is [null] or [undefined] before anything more is
    logged. *)
Definition token_failure_log (error : value) : list event :=
  if nullish error then [ConsoleError "Error getting M-Pesa access token:"]
  else [ConsoleError "Error getting M-Pesa access token:";
        ConsoleError "  Response:";
        ConsoleError "  Status:"].

(** The [catch] block of [getAccessToken]: the value it throws. *)
Definition token_failure (error : value) : value :=
  match get error "response" with
  | Throw e => e
  | Ok response =>
      if strict_eq_str (prop error "code") "ECONNREFUSED" then
        Error "Cannot connect to M-Pesa API. Please check your internet connection."
      else if strict_eq_num (opt response "status") 401 then
        Error "Invalid M-Pesa credentials. Please check your Consumer Key and Secret."
      else
        Error ("Failed to get M-Pesa access token: "
               +:+ to_string (or_else (opt (opt response "data") "errorDescription")
                                      (prop error "message")))
  end.

Definition getAccessToken (st : state) (w : world)
    : result value * state * list event :=
  if cache_valid st (now_check w) then (Ok (accessToken st), st, [])
  else
    let cfg := MPESA_CONFIG env in
    let '(tried, st', tr) :=
      if negb (truthy (consumerKey cfg)) || negb (truthy (consumerSecret cfg)) then
        (Throw (Error "M-Pesa credentials not configured"), st, [])
      else
        let auth := base64 (to_string (consumerKey cfg) +:+ ":"
                            +:+ to_string (consumerSecret cfg)) in
        let tr := [HttpGet (authUrl cfg) ("Basic " +:+ auth)] in
        match auth_reply w with
        | Rejected error => (Throw error, st, tr)
        | Resolved data =>
            match get data "access_token" with
            | Throw e => (Throw e, st, tr)
            | Ok token =>
                (Ok token,
                 {| accessToken := token;
                    tokenExpiry := Some (now_reply w + 50 * 60 * 1000);
                    store := store st |},
                 tr)
            end
        end in
    match tried with
    | Ok token => (Ok token, st', tr)
    | Throw error =>
        (Throw (token_failure error), st', tr ++ token_failure_log error)
    end.

(** [generateMpesaPassword]: [(password, timestamp)]. *)
Definition generateMpesaPassword (w : world) : string * string :=
  let cfg := MPESA_CONFIG env in
  let timestamp := String.substring 0 14 (strip_non_digits (iso_time w)) in
  let password := base64 (to_string (shortcode cfg) +:+ to_string (passkey cfg)
                          +:+ timestamp) in
  (password, timestamp).

(** [GET /test-connection] *)
Definition test_connection (st : state) (w : world) : outcome :=
  let mpesaConfig := validateEnvVariables env in
  if negb (hasValidCredentials mpesaConfig) then
    {| sent := Ok {| code := 500;
                     json := VObj [("success", VBool false);
                                   ("message", VStr "M-Pesa credentials not configured");
                                   ("missingVariables", strings (missing mpesaConfig));
                                   ("warnings", strings (warnings mpesaConfig))] |};
       after := st; trace := [] |}
  else
    let '(token, st1, tr1) := getAccessToken st w in
    match token with
    | Ok _ =>
        let expiresIn :=
          match tokenExpiry st1 with
          | Some e => if e =? 0 then 0 else (e - now_report w + 500) / 1000
          | None => 0
          end in
        {| sent := Ok {| code := 200;
                         json := VObj [("success", VBool true);
                                       ("message", VStr "M-Pesa API connection successful");
                                       ("tokenReceived", VBool true);
                                       ("expiresIn", VNum expiresIn)] |};
           after := st1; trace := tr1 |}
    | Throw error =>
        match get error "message" with
        | Throw e => {| sent := Throw e; after := st1; trace := tr1 |}
        | Ok message =>
            {| sent := Ok {| code := 500;
                             json := VObj [("success", VBool false);
                                           ("message", message);
                                           ("hint", VStr "Check your .env configuration and internet connection")] |};
               after := st1;
               trace := tr1 ++ [ConsoleError "M-Pesa connection test failed:"] |}
        end
    end.

(** The [catch] block of [POST /stkpush]. *)
Definition stkpush_catch (error : value) : result reply :=
  response ← get error "response";
  let errorData := opt response "data" in
  let errorMessage0 :=
    if truthy (opt errorData "errorMessage") then opt errorData "errorMessage"
    else VStr "Failed to initiate STK Push" in
  let errorCode0 :=
    if truthy (opt errorData "errorMessage") then VStr "UNKNOWN_ERROR"
    else if truthy (opt errorData "errorCode") then opt errorData "errorCode"
    else VStr "UNKNOWN_ERROR" in
  let code := prop error "code" in
  let '(errorMessage, errorCode) :=
    if strict_eq_str code "ECONNREFUSED" then
      (VStr "Cannot connect to M-Pesa API. Please check your internet connection.",
       VStr "CONNECTION_ERROR")
    else if strict_eq_str code "ETIMEDOUT" || strict_eq_str code "ECONNABORTED" then
      (VStr "M-Pesa API request timed out. Please try again.", VStr "TIMEOUT")
    else if strict_eq_num (opt response "status") 500 then
      (VStr "M-Pesa API returned an internal error. Please try again later.",
       VStr "MPESA_SERVER_ERROR")
    else if strict_eq_num (opt response "status") 401 then
      (VStr "Invalid M-Pesa credentials. Please check your configuration.",
       VStr "AUTH_ERROR")
    else (errorMessage0, errorCode0) in
  mret {| code := 500;
          json := VObj [("error", errorMessage);
                        ("errorCode", errorCode);
                        ("details", or_else errorData (prop error "message"));
                        ("hint", VStr "See MPESA_SETUP.md for troubleshooting guide")] |}.

(** The arguments of [console.error] are evaluated before it logs: when
    reading [error.response] throws, nothing is logged. *)
Definition stkpush_failed (error : value) (st : state) (tr : list event) : outcome :=
  {| sent := stkpush_catch error;
     after := st;
     trace := tr ++ (if nullish error then [] else [ConsoleError "STK Push error:"]) |}.

(** [POST /stkpush] with [req.body = body]. *)
Definition stkpush (st : state) (body : value) (w : world) : outcome :=
  let mpesaConfig := validateEnvVariables env in
  let cfg := MPESA_CONFIG env in
  if negb (valid mpesaConfig) then
    {| sent := Ok {| code := 500;
                     json := VObj [("error", VStr "M-Pesa configuration is incomplete");
                                   ("message", VStr "Please configure your M-Pesa credentials in the .env file");
                                   ("missingVariables", strings (missing mpesaConfig));
                                   ("warnings", strings (warnings mpesaConfig));
                                   ("setupGuide", VStr "See MPESA_SETUP.md for detailed instructions")] |};
       after := st; trace := [] |}
  else
    match get body "phone" with
    | Throw e => {| sent := Throw e; after := st; trace := [] |}
    | Ok phone =>
        let amount := prop body "amount" in
        let branch := prop body "branch" in
        let product := prop body "product" in
        if negb (truthy phone) || negb (truthy amount) then
          {| sent := Ok {| code := 400;
                           json := VObj [("error", VStr "Phone and amount are required")] |};
             after := st; trace := [] |}
        else
          match phone with
          | VStr phone =>
              let formattedPhone := Phone.format phone in
              if negb (Phone.canonical formattedPhone) then
                {| sent := Ok {| code := 400;
                                 json := VObj [("error", VStr "Invalid phone number format");
                                               ("message", VStr "Phone must be in format 254XXXXXXXXX (12 digits starting with 254)")] |};
                   after := st; trace := [] |}
              else
                let '(password, timestamp) := generateMpesaPassword w in
                let '(token, st1, tr1) := getAccessToken st w in
                match token with
                | Throw error => stkpush_failed error st1 tr1
                | Ok token =>
                    let stkPushPayload :=
                      VObj [("BusinessShortCode", shortcode cfg);
                            ("Password", VStr password);
                            ("Timestamp", VStr timestamp);
                            ("TransactionType", VStr "CustomerPayBillOnline");
                            ("Amount", Math_round amount);
                            ("PartyA", VStr formattedPhone);
                            ("PartyB", shortcode cfg);
                            ("PhoneNumber", VStr formattedPhone);
                            ("CallBackURL", callbackUrl cfg);
                            ("AccountReference",
                             VStr ("Supermarket-" +:+ to_string (or_else branch (VStr "Main"))));
                            ("TransactionDesc",
                             VStr ("Purchase " +:+ to_string (or_else product (VStr "Items"))
                                   +:+ " at " +:+ to_string (or_else branch (VStr "Main"))))] in
                    let tr2 := tr1 ++ [HttpPost (stkPushUrl cfg)
                                         ("Bearer " +:+ to_string token) stkPushPayload] in
                    match api_reply w with
                    | Rejected error => stkpush_failed error st1 tr2
                    | Resolved stkResponse =>
                        match get stkResponse "MerchantRequestID" with
                        | Throw error => stkpush_failed error st1 tr2
                        | Ok MerchantRequestID =>
                            let CheckoutRequestID := prop stkResponse "CheckoutRequestID" in
                            let rows := insert_pending (sql_time w) MerchantRequestID
                                          CheckoutRequestID formattedPhone amount branch
                                          product (store st1) in
                            {| sent := Ok {| code := 200;
                                             json := VObj [("success", VBool true);
                                                           ("message", VStr "STK Push initiated successfully. Please check your phone.");
                                                           ("data", VObj [("merchantRequestID", MerchantRequestID);
                                                                          ("checkoutRequestID", CheckoutRequestID);
                                                                          ("responseCode", prop stkResponse "ResponseCode");
                                                                          ("responseDescription", prop stkResponse "ResponseDescription");
                                                                          ("customerMessage", prop stkResponse "CustomerMessage")])] |};
                               after := {| accessToken := accessToken st1;
                                           tokenExpiry := tokenExpiry st1;
                                           store := rows |};
                               trace := tr2
                                 ++ [Emit "admin-room" "mpesa-initiated"
                                       (VObj [("phone", VStr formattedPhone);
                                              ("amount", amount);
                                              ("branch", branch);
                                              ("product", product);
                                              ("merchantRequestId", MerchantRequestID)])]
                                 ++ (if (length rows =? length (store st1))%nat
                                     then [ConsoleError "Error storing transaction:"]
                                     else []) |}
                        end
                    end
                end
          | _ => {| sent := Throw (TypeError "phone.replace is not a function");
                    after := st; trace := [] |}
          end
    end.

(** The [catch] block of [POST /stkquery]. *)
Definition stkquery_failed (error : value) (st : state) (tr : list event) : outcome :=
  {| sent := (response ← get error "response";
              mret {| code := 500;
                      json := VObj [("error", VStr "Failed to query transaction status");
                                    ("details", or_else (opt response "data")
                                                        (prop error "message"))] |});
     after := st;
     trace := tr ++ (if nullish error then [] else [ConsoleError "STK Query error:"]) |}.

(** [POST /stkquery] with [req.body = body]. *)
Definition stkquery (st : state) (body : value) (w : world) : outcome :=
  let mpesaConfig := validateEnvVariables env in
  let cfg := MPESA_CONFIG env in
  if negb (valid mpesaConfig) then
    {| sent := Ok {| code := 500;
                     json := VObj [("error", VStr "M-Pesa configuration is incomplete");
                                   ("message", VStr "Please configure your M-Pesa credentials in the .env file")] |};
       after := st; trace := [] |}
  else
    match get body "checkoutRequestID" with
    | Throw e => {| sent := Throw e; after := st; trace := [] |}
    | Ok checkoutRequestID =>
        let merchantRequestID := prop body "merchantRequestID" in
        if negb (truthy checkoutRequestID) then
          {| sent := Ok {| code := 400;
                           json := VObj [("error", VStr "CheckoutRequestID is required")] |};
             after := st; trace := [] |}
        else
          let '(password, timestamp) := generateMpesaPassword w in
          let '(token, st1, tr1) := getAccessToken st w in
          match token with
          | Throw error => stkquery_failed error st1 tr1
          | Ok token =>
              let queryPayload :=
                VObj [("BusinessShortCode", shortcode cfg);
                      ("Password", VStr password);
                      ("Timestamp", VStr timestamp);
                      ("CheckoutRequestID", checkoutRequestID)] in
              let tr2 := tr1 ++ [HttpPost (stkQueryUrl cfg)
                                   ("Bearer " +:+ to_string token) queryPayload] in
              match api_reply w with
              | Rejected error => stkquery_failed error st1 tr2
              | Resolved queryResponse =>
                  match get queryResponse "ResultCode" with
                  | Throw error => stkquery_failed error st1 tr2
                  | Ok ResultCode =>
                      let ResultDesc := prop queryResponse "ResultDesc" in
                      let rows :=
                        if truthy merchantRequestID then
                          update_from_query (sql_time w) ResultCode ResultDesc
                            merchantRequestID (store st1)
                        else store st1 in
                      {| sent := Ok {| code := 200;
                                       json := VObj [("success", VBool true);
                                                     ("data", VObj [("checkoutRequestID", prop queryResponse "CheckoutRequestID");
                                                                    ("resultCode", ResultCode);
                                                                    ("resultDesc", ResultDesc);
                                                                    ("status", VStr (if strict_eq_num ResultCode 0
                                                                                     then "success" else "failed"))])] |};
                         after := {| accessToken := accessToken st1;
                                     tokenExpiry := tokenExpiry st1;
                                     store := rows |};
                         trace := tr2 |}
                  end
              end
          end
    end.

(** The body of the [try] block of [POST /callback] once [Body] is
    bound: the table afterwards and the events emitted, or the
    exception thrown. Every statement that can throw comes before the
    [UPDATE]. *)
Definition reconcile (rows : list row) (Body : value) (now : string)
    : result (list row * list event) :=
  if truthy (and_then Body (prop Body "stkCallback")) then
    let callback := prop Body "stkCallback" in
    let merchantRequestID := prop callback "MerchantRequestID" in
    let checkoutRequestID := prop callback "CheckoutRequestID" in
    let resultCode := prop callback "ResultCode" in
    let resultDesc := prop callback "ResultDesc" in
    let metaData := or_else (opt (prop callback "CallbackMetadata") "Item") (VArr []) in
    amount ← find_value metaData "Amount";
    mpesaReceiptNumber ← find_value metaData "MpesaReceiptNumber";
    transactionDate ← find_value metaData "TransactionDate";
    phoneNumber ← find_value metaData "PhoneNumber";
    let rows' := update_from_callback now resultCode resultDesc mpesaReceiptNumber
                   merchantRequestID rows in
    let notify :=
      Emit "admin-room" "mpesa-callback"
        (VObj [("merchantRequestID", merchantRequestID);
               ("checkoutRequestID", checkoutRequestID);
               ("status", VStr (if strict_eq_num resultCode 0 then "success" else "failed"));
               ("resultDesc", resultDesc);
               ("amount", amount);
               ("mpesaReceiptNumber", mpesaReceiptNumber)]) in
    let sale :=
      if strict_eq_num resultCode 0 then
        match select_by_merchant merchantRequestID rows' with
        | Some transaction =>
            [Emit "admin-room" "sale-completed"
               (VObj [("branch", Store.branch transaction);
                      ("product", Store.product transaction);
                      ("quantity", VNum 1);
                      ("total_amount", Store.amount transaction);
                      ("paymentMethod", VStr "mpesa");
                      ("mpesaReceipt", mpesaReceiptNumber)])]
        | None => []
        end
      else [] in
    mret (rows', notify :: sale)
  else mret (rows, []).

(** [POST /callback] with [req.body = body]. The destructuring
    [const { Body } = req.body] stands before the [try]. *)
Definition callback (st : state) (body : value) (w : world) : outcome :=
  match get body "Body" with
  | Throw e => {| sent := Throw e; after := st; trace := [] |}
  | Ok Body =>
      match reconcile (store st) Body (sql_time w) with
      | Ok (rows, tr) =>
          {| sent := Ok ack;
             after := {| accessToken := accessToken st;
                         tokenExpiry := tokenExpiry st;
                         store := rows |};
             trace := tr |}
      | Throw error =>
          {| sent := Ok ack; after := st; trace := [ConsoleError "Callback error:"] |}
      end
  end.

(** One row of the [GET /transactions] reply. *)
Definition transaction_view (r : row) : value :=
  VObj [("id", VNum (id r));
        ("phone", VStr (Phone.mask (phone r)));
        ("amount", amount r);
        ("branch", branch r);
        ("product", product r);
        ("status", VStr (status_text (status r)));
        ("mpesaReceipt", mpesa_receipt r);
        ("createdAt", VStr (created_at r));
        ("completedAt", completed_at r)].

(** [GET /transactions] *)
Definition transactions (st : state) : outcome :=
  {| sent := Ok {| code := 200;
                   json := VArr (transaction_view <$> select_recent (store st)) |};
     after := st; trace := [] |}.

End Handlers.
End Mpesa.

(** ** The rules as the specification words them *)

Module Spec.
Import Store.

(** "status = completed if resultCode == 0 else failed" *)
Definition outcome_rule (resultCode : value) : tx_status :=
  match resultCode with
  | VNum 0 => completed
  | _ => failed
  end.

Definition terminal (s : tx_status) : Prop := s = completed ∨ s = failed.

(** "the first 6 characters of the stored phone, then '****', then the
    last 2 characters" *)
Definition masked (phone : string) : string :=
  String.substring 0 6 phone +:+ "****"
    +:+ String.substring (String.length phone - 2) 2 phone.

End Spec.

(** ** Runs of the server *)

Module Run.
Import Config Store Mpesa.

(** One handled request. *)
Inductive step {P : Platform} (env : gmap string string) : state → state → Prop :=
| step_stkpush st body w : step env st (after (stkpush env st body w))
| step_stkquery st body w : step env st (after (stkquery env st body w))
| step_callback st body w : step env st (after (callback st body w))
| step_test_connection st w : step env st (after (test_connection env st w))
| step_transactions st : step env st (after (transactions st)).

(** The states the server can be in after any number of requests. *)
Definition reachable {P : Platform} (env : gmap string string) (st : state) : Prop :=
  rtc (step env) initial st.

(** What may happen to a row over time: the columns written at
    initiation stay, the status stays or becomes terminal. *)
Definition evolves (r r' : row) : Prop :=
  id r' = id r
  ∧ merchant_request_id r' = merchant_request_id r
  ∧ checkout_request_id r' = checkout_request_id r
  ∧ phone r' = phone r
  ∧ (status r' = status r ∨ Spec.terminal (status r')).

Definition store_evolves (rows rows' : list row) : Prop :=
  ∀ i r, rows !! i = Some r → ∃ r', rows' !! i = Some r' ∧ evolves r r'.

(** [req.body.Body.stkCallback], the envelope the callback handler
    reads its fields from. *)
Definition stkCallback_of (body : value) : value :=
  prop (prop body "Body") "stkCallback".

(** Every stored phone number is canonical. *)
Definition phones_canonical (rows : list row) : Prop :=
  Forall (λ r, Phone.canonical (phone r) = true) rows.

End Run.

(** ** A worked scenario

    The end-to-end scenario of the specification: phone [0712345678],
    amount [50], branch [Nairobi], product [Coke]. *)

Module Scenario.
Import Config Store Mpesa.

(** Parameters bind as their own text; the encodings do not matter to
    the scenario. *)
Definition plain : Platform :=
  {| to_text := λ v, match v with
                     | VStr s => Some s
                     | VNum n => Some (pretty n)
                     | _ => None
                     end;
     base64 := λ s, s;
     Math_round := λ v, v |}.

Definition configured : gmap string string :=
  list_to_map [("MPESA_CONSUMER_KEY", "key"); ("MPESA_CONSUMER_SECRET", "secret");
               ("MPESA_SHORTCODE", "174379"); ("MPESA_PASSKEY", "passkey");
               ("MPESA_CALLBACK_URL", "https://shop.example/api/mpesa/callback")].

(** No consumer secret, no passkey. *)
Definition unconfigured : gmap string string :=
  list_to_map [("MPESA_CONSUMER_KEY", "key"); ("MPESA_SHORTCODE", "174379");
               ("MPESA_CALLBACK_URL", "https://shop.example/api/mpesa/callback")].

Definition at_push : world :=
  {| iso_time := "2024-03-01T10:00:00.000Z";
     now_check := 1709287200000;
     now_reply := 1709287200250;
     now_report := 1709287200300;
     sql_time := "2024-03-01 10:00:00";
     auth_reply := Resolved (VObj [("access_token", VStr "tok-1"); ("expires_in", VStr "3599")]);
     api_reply := Resolved (VObj [("MerchantRequestID", VStr "m-1");
                                  ("CheckoutRequestID", VStr "ws_CO_1");
                                  ("ResponseCode", VStr "0");
                                  ("ResponseDescription", VStr "Success. Request accepted for processing");
                                  ("CustomerMessage", VStr "Success. Request accepted for processing")]) |}.

Definition push_body (phone : string) : value :=
  VObj [("phone", VStr phone); ("amount", VNum 50);
        ("branch", VStr "Nairobi"); ("product", VStr "Coke")].

(** The provider's callback for merchant request [mid] with the given
    result code and metadata items. *)
Definition callback_for (mid : string) (resultCode : Z) (items : value) : value :=
  VObj [("Body",
         VObj [("stkCallback",
                VObj [("MerchantRequestID", VStr mid);
                      ("CheckoutRequestID", VStr "ws_CO_1");
                      ("ResultCode", VNum resultCode);
                      ("ResultDesc", VStr "reported by the provider");
                      ("CallbackMetadata", VObj [("Item", items)])])])].

Definition callback_body : Z → value → value := callback_for "m-1".

Definition paid_items : value :=
  VArr [VObj [("Name", VStr "Amount"); ("Value", VNum 50)];
        VObj [("Name", VStr "MpesaReceiptNumber"); ("Value", VStr "ABC123")]].

Definition paid : value := callback_body 0 paid_items.
Definition cancelled : value := callback_body 1032 (VArr []).

Definition later (t : string) : world :=
  {| iso_time := "2024-03-01T10:01:00.000Z";
     now_check := 1709287260000;
     now_reply := 1709287260250;
     now_report := 1709287260300;
     sql_time := t;
     auth_reply := Rejected (Error "unused");
     api_reply := Rejected (Error "unused") |}.

Definition pushed : state :=
  after (stkpush (H := plain) configured initial (push_body "0712345678") at_push).

Definition completed_once : state :=
  after (callback (H := plain) pushed paid (later "2024-03-01 10:01:00")).

End Scenario.

(** ** The status routes of the router *)

Module Status.
Import Config Store Mpesa.

(** [GET /config-status] *)
Definition config_status_route (env : gmap string string) (st : state) : outcome :=
  let mpesaConfig := validateEnvVariables env in
  {| sent := Ok {| code := 200;
                   json := VObj [("configured", VBool (valid mpesaConfig));
                                 ("hasCredentials", VBool (hasValidCredentials mpesaConfig));
                                 ("missingVariables", strings (missing mpesaConfig));
                                 ("warnings", strings (warnings mpesaConfig));
                                 ("shortcode", shortcode_status mpesaConfig);
                                 ("setupInstructions", VStr "See MPESA_SETUP.md for detailed instructions")] |};
     after := st; trace := [] |}.

(** [GET /token-status]; [Date.now()] is read once for [expiresIn] and
    once for [isExpired]. *)
Definition token_status (st : state) (now_expires now_expired : Z) : outcome :=
  {| sent := Ok {| code := 200;
                   json := VObj [("hasToken", VBool (truthy (accessToken st)));
                                 ("expiresIn",
                                  VNum (match tokenExpiry st with
                                        | Some e => if e =? 0 then 0
                                                    else (e - now_expires + 500) / 1000
                                        | None => 0
                                        end));
                                 ("isExpired",
                                  VBool (match tokenExpiry st with
                                         | Some e => if e =? 0 then true
                                                     else now_expired >=? e
                                         | None => true
                                         end))] |};
     after := st; trace := [] |}.

End Status.

(** ** The browser client ([client/src/api.js]) *)

Module Client.

(** [mpesaAPI.stkQuery]: the JSON body [{ checkoutRequestID }] it posts to
    [/mpesa/stkquery]. *)
Definition stkQuery (checkoutRequestID : value) : value :=
  VObj [("checkoutRequestID", checkoutRequestID)].

End Client.

(** ** Shapes and invariants used in the statements *)

Module Shape.
Import Config Store Mpesa.

(** [new Date().toISOString()] for a year from 0000 to 9999:
    [YYYY-MM-DDTHH:mm:ss.sssZ]. *)
Definition iso (Y M D h m s ms : string) : string :=
  Y +:+ "-" +:+ M +:+ "-" +:+ D +:+ "T" +:+ h +:+ ":" +:+ m +:+ ":" +:+ s
    +:+ "." +:+ ms +:+ "Z".

Definition digits (n : nat) (s : string) : Prop :=
  String.length s = n ∧ all_digits s = true.

(** The key columns of the table hold no value twice: [id] is the primary
    key, [merchant_request_id] and [checkout_request_id] are UNIQUE. *)
Definition keys_unique (rows : list row) : Prop :=
  NoDup (id <$> rows)
  ∧ NoDup (merchant_request_id <$> rows)
  ∧ NoDup (checkout_request_id <$> rows).

(** Callback metadata every item of which can be asked for its [Name]. *)
Definition items_readable (metaData : value) : Prop :=
  ∃ items, metaData = VArr items ∧ Forall (λ item, nullish item = false) items.

(** The first item of the list whose [Name] is [name]. *)
Fixpoint first_named (name : string) (items : list value) : option value :=
  match items with
  | [] => None
  | item :: rest =>
      if strict_eq_str (prop item "Name") name then Some item
      else first_named name rest
  end.

(** The payload of the [sale-completed] event for a row and a receipt. *)
Definition sale_of (r : row) (mpesaReceiptNumber : value) : value :=
  VObj [("branch", branch r);
        ("product", product r);
        ("quantity", VNum 1);
        ("total_amount", amount r);
        ("paymentMethod", VStr "mpesa");
        ("mpesaReceipt", mpesaReceiptNumber)].

(** The columns of a row written at initiation and its keys. *)
Definition same_context (r r' : row) : Prop :=
  id r' = id r
  ∧ merchant_request_id r' = merchant_request_id r
  ∧ checkout_request_id r' = checkout_request_id r
  ∧ phone r' = phone r
  ∧ amount r' = amount r
  ∧ branch r' = branch r
  ∧ product r' = product r
  ∧ created_at r' = created_at r.

(** Every row of [rows] is still there, at its place, with its context. *)
Definition context_kept (rows rows' : list row) : Prop :=
  ∀ i r, rows !! i = Some r → ∃ r', rows' !! i = Some r' ∧ same_context r r'.

End Shape.

(** ** The inventory router: the item routes

    [GET /:id], [PUT /:id/stock] and [DELETE /:id] of the first module in
    [src/cat1supermarket/server/routes/inventory.js], over the [inventory]
    table (schema in [src/unnamed/part_001]). *)

(** What these routes need from JavaScript's number conversions and from
    SQLite's INTEGER affinity. Only their behaviour on numbers is fixed;
    every property below holds for any choice of them on other values. *)
Class Numbers := {
  (** [v < 0] *)
  below_zero : value → bool;
  (** [a - b] *)
  minus : value → value → value;
  (** [parseInt(v)] *)
  parseInt : value → value;
  (** the integer a bound parameter is compared as with an INTEGER column,
      [None] when it equals no integer *)
  to_integer : value → option Z;
  (** what an INTEGER column holds once a parameter other than NULL has
      been stored in it *)
  stored_integer : value → value;
  below_zero_num n : below_zero (VNum n) = (n <? 0);
  minus_num a b : minus (VNum a) (VNum b) = VNum (a - b);
  stored_integer_num n : stored_integer (VNum n) = VNum n
}.

Module Inventory.

(** A row of [inventory]. *)
Record item := {
  id : Z;
  branch : string;
  product : string;
  price : value;
  stock : value;
  created_at : string;
  updated_at : string
}.

(** [sent] is [Throw e] when [e] escapes the handler, which then sends
    nothing; [after] is the table, [trace] the outbound effects. *)
Record outcome := {
  sent : result Mpesa.reply;
  after : list item;
  trace : list Mpesa.event
}.

Definition refused (code : Z) (error : string) (rows : list item) : outcome :=
  {| sent := Ok {| Mpesa.code := code; Mpesa.json := VObj [("error", VStr error)] |};
     after := rows; trace := [] |}.

(** [v === undefined] *)
Definition is_undefined (v : value) : bool :=
  match v with VUndefined => true | _ => false end.

Section Routes.
Context `{Numbers}.

(** [WHERE id = ?] *)
Definition has_id (param : value) (r : item) : bool :=
  match to_integer param with
  | Some n => id r =? n
  | None => false
  end.

(** [db.get('SELECT * FROM inventory WHERE id = ?', [param])] *)
Definition select_by_id (param : value) (rows : list item) : option item :=
  List.find (has_id param) rows.

(** [GET /:id] *)
Definition get_item (param : value) (rows : list item) : outcome :=
  match select_by_id param rows with
  | None => refused 404 "Item not found" rows
  | Some row =>
      {| sent := Ok {| Mpesa.code := 200;
                       Mpesa.json := VObj [("id", VNum (id row));
                                           ("branch", VStr (branch row));
                                           ("product", VStr (product row));
                                           ("price", price row);
                                           ("stock", stock row)] |};
         after := rows; trace := [] |}
  end.

(** [UPDATE inventory SET stock = ?, updated_at = CURRENT_TIMESTAMP
    WHERE id = ?] for a [stock] other than NULL. *)
Definition set_stock (now : string) (stock param : value) (rows : list item) : list item :=
  (λ r, if has_id param r
        then {| id := id r; branch := branch r; product := product r;
                price := price r; stock := stored_integer stock;
                created_at := created_at r; updated_at := now |}
        else r) <$> rows.

(** The notification text of a restock. *)
Definition restock_message (oldItem : item) (stock adminName : value) : string :=
  let increase := minus stock (Inventory.stock oldItem) in
  "Restock Update: " +:+ branch oldItem +:+ " " +:+ product oldItem
    +:+ " stock increased by " +:+ to_string increase
    +:+ " unit" +:+ (if strict_eq_num increase 1 then "" else "s")
    +:+ ". New total: " +:+ to_string stock
    +:+ " (Updated by Admin " +:+ to_string adminName +:+ ")." .

(** [PUT /:id/stock]. [user] is [req.user], [param] is [req.params.id],
    [now] is [CURRENT_TIMESTAMP]. A [stock] of [null] passes to the
    [UPDATE], where NOT NULL refuses it. [req.user.username] is read in the
    callback of the [UPDATE], when the table has been written. *)
Definition put_stock (user param body : value) (now : string) (rows : list item) : outcome :=
  match get body "stock" with
  | Throw e => {| sent := Throw e; after := rows; trace := [] |}
  | Ok stock =>
      if is_undefined stock || below_zero stock
      then refused 400 "Valid stock value is required" rows
      else
        match select_by_id param rows with
        | None => refused 404 "Item not found" rows
        | Some oldItem =>
            if nullish stock
            then {| sent := Ok {| Mpesa.code := 500;
                                  Mpesa.json := VObj [("error", VStr "Failed to update stock")] |};
                    after := rows;
                    trace := [Mpesa.ConsoleError "Error updating stock:"] |}
            else
              let rows' := set_stock now stock param rows in
              match get user "username" with
              | Throw e => {| sent := Throw e; after := rows'; trace := [] |}
              | Ok adminName =>
                  {| sent := Ok {| Mpesa.code := 200;
                                   Mpesa.json := VObj [("success", VBool true);
                                                       ("message", VStr "Stock updated successfully")] |};
                     after := rows';
                     trace :=
                       [Mpesa.Emit "admin-room" "stock-restocked"
                          (VObj [("id", parseInt param);
                                 ("branch", VStr (branch oldItem));
                                 ("product", VStr (product oldItem));
                                 ("oldStock", Inventory.stock oldItem);
                                 ("newStock", stock);
                                 ("updatedBy", adminName);
                                 ("message", VStr (restock_message oldItem stock adminName))]);
                        Mpesa.Emit "customer-room" "inventory-updated"
                          (VObj [("branch", VStr (branch oldItem));
                                 ("product", VStr (product oldItem));
                                 ("newStock", stock)])] |}
              end
        end
  end.

(** [DELETE FROM inventory WHERE id = ?] *)
Definition delete_by_id (param : value) (rows : list item) : list item :=
  List.filter (λ r, negb (has_id param r)) rows.

(** [DELETE /:id]; [this.changes] is the number of rows the [DELETE]
    removed. *)
Definition delete_item (user param : value) (rows : list item) : outcome :=
  match get user "role" with
  | Throw e => {| sent := Throw e; after := rows; trace := [] |}
  | Ok role =>
      if negb (strict_eq_str role "admin")
      then refused 403 "Admin access required" rows
      else
        match select_by_id param rows with
        | None => refused 404 "Item not found" rows
        | Some item =>
            let adminName := prop user "username" in
            let notificationMessage :=
              "Delete Update: " +:+ branch item +:+ " " +:+ product item
                +:+ " has been removed from inventory (Deleted by Admin "
                +:+ to_string adminName +:+ ")." in
            let rows' := delete_by_id param rows in
            if (length rows - length rows' =? 0)%nat
            then refused 404 "Item not found" rows'
            else
              {| sent := Ok {| Mpesa.code := 200;
                               Mpesa.json := VObj [("success", VBool true);
                                                   ("message", VStr "Item deleted successfully")] |};
                 after := rows';
                 trace :=
                   [Mpesa.Emit "admin-room" "stock-restocked"
                      (VObj [("id", parseInt param);
                             ("branch", VStr (branch item));
                             ("product", VStr (product item));
                             ("deleted", VBool true);
                             ("updatedBy", adminName);
                             ("message", VStr notificationMessage)])] |}
        end
  end.

End Routes.
End Inventory.

(** ** The inventory router: listing and removing counties

    [GET /counties] and [DELETE /counties/:id] of the same module, over the
    [counties] table (schema in [src/unnamed/part_001]). *)

Module Counties.

(** A row of [counties]; [is_active] is a nullable INTEGER. *)
Record county := {
  id : Z;
  name : string;
  latitude : value;
  longitude : value;
  is_active : value;
  created_at : string
}.

Record outcome := {
  sent : result Mpesa.reply;
  after : list county;
  trace : list Mpesa.event
}.

Definition refused (code : Z) (error : string) (rows : list county) : outcome :=
  {| sent := Ok {| Mpesa.code := code; Mpesa.json := VObj [("error", VStr error)] |};
     after := rows; trace := [] |}.

(** [WHERE is_active = 1] *)
Definition active (r : county) : bool := strict_eq_num (is_active r) 1.

(** Insertion into a list ordered by [name]; names are UNIQUE, so the
    order is total on the rows of a table. *)
Fixpoint insert_by_name (r : county) (sorted : list county) : list county :=
  match sorted with
  | [] => [r]
  | r' :: rest =>
      if String.ltb (name r) (name r') then r :: r' :: rest
      else r' :: insert_by_name r rest
  end.

(** [SELECT * FROM counties WHERE is_active = 1 ORDER BY name] *)
Definition select_active (rows : list county) : list county :=
  foldl (λ acc r, insert_by_name r acc) [] (List.filter active rows).

(** A row as [db.all] hands it over. *)
Definition row_object (r : county) : value :=
  VObj [("id", VNum (id r)); ("name", VStr (name r));
        ("latitude", latitude r); ("longitude", longitude r);
        ("is_active", is_active r); ("created_at", VStr (created_at r))].

(** [GET /counties] *)
Definition get_counties (rows : list county) : outcome :=
  {| sent := Ok {| Mpesa.code := 200; Mpesa.json := VArr (row_object <$> select_active rows) |};
     after := rows; trace := [] |}.

Section Routes.
Context `{Numbers}.

(** [WHERE id = ?] *)
Definition has_id (param : value) (r : county) : bool :=
  match to_integer param with
  | Some n => id r =? n
  | None => false
  end.

(** [UPDATE counties SET is_active = 0 WHERE id = ?] *)
Definition deactivate (param : value) (rows : list county) : list county :=
  (λ r, if has_id param r
        then {| id := id r; name := name r; latitude := latitude r;
                longitude := longitude r; is_active := VNum 0;
                created_at := created_at r |}
        else r) <$> rows.

(** [this.changes]: the rows the [WHERE] of the [UPDATE] matched. *)
Definition changes (param : value) (rows : list county) : nat :=
  length (List.filter (has_id param) rows).

(** [DELETE /counties/:id] *)
Definition delete_county (user param : value) (rows : list county) : outcome :=
  match get user "role" with
  | Throw e => {| sent := Throw e; after := rows; trace := [] |}
  | Ok role =>
      if negb (strict_eq_str role "admin")
      then refused 403 "Admin access required" rows
      else
        let rows' := deactivate param rows in
        if (changes param rows =? 0)%nat
        then refused 404 "County not found" rows'
        else
          {| sent := Ok {| Mpesa.code := 200;
                           Mpesa.json := VObj [("success", VBool true);
                                               ("message", VStr "County deleted successfully")] |};
             after := rows'; trace := [] |}
  end.

End Routes.
End Counties.

(** ** A stock room for the examples: the first rows [seedData] inserts *)

Module Stockroom.
Import Inventory.

(** A decimal numeral read as an integer. *)
Fixpoint read_digits (acc : Z) (s : string) : option Z :=
  match s with
  | EmptyString => Some acc
  | String c s' =>
      if is_digit c then read_digits (10 * acc + (Z.of_N (N_of_ascii c) - 48)) s'
      else None
  end.

(** Numbers behave as JavaScript and SQLite have them; a string of digits
    is compared as the integer it writes. *)
Definition numbers : Numbers :=
  {| below_zero := λ v, match v with VNum n => n <? 0 | _ => false end;
     minus := λ a b, match a, b with
                     | VNum x, VNum y => VNum (x - y)
                     | _, _ => VUndefined
                     end;
     parseInt := λ v, match v with
                      | VStr s => match read_digits 0 s with
                                  | Some n => VNum n
                                  | None => VUndefined
                                  end
                      | _ => v
                      end;
     to_integer := λ v, match v with
                        | VNum n => Some n
                        | VStr EmptyString => None
                        | VStr s => read_digits 0 s
                        | _ => None
                        end;
     stored_integer := λ v, v;
     below_zero_num := λ _, eq_refl;
     minus_num := λ _ _, eq_refl;
     stored_integer_num := λ _, eq_refl |}.

Definition seeded (t0 : string) : list item :=
  [ {| id := 1; branch := "Kisumu"; product := "Coke"; price := VNum 100;
       stock := VNum 50; created_at := t0; updated_at := t0 |};
    {| id := 2; branch := "Kisumu"; product := "Fanta"; price := VNum 100;
       stock := VNum 30; created_at := t0; updated_at := t0 |};
    {| id := 3; branch := "Mombasa"; product := "Sprite"; price := VNum 100;
       stock := VNum 45; created_at := t0; updated_at := t0 |} ].

Definition admin : value :=
  VObj [("id", VNum 1); ("username", VStr "admin"); ("role", VStr "admin")].
Definition customer : value :=
  VObj [("id", VNum 2); ("username", VStr "user"); ("role", VStr "customer")].

(** Two counties as [POST /counties] stores them when no coordinates are
    given. *)
Definition counties (t0 : string) : list Counties.county :=
  [ {| Counties.id := 1; Counties.name := "Nairobi"; Counties.latitude := VNull;
       Counties.longitude := VNull; Counties.is_active := VNum 1;
       Counties.created_at := t0 |};
    {| Counties.id := 2; Counties.name := "Kisumu"; Counties.latitude := VNull;
       Counties.longitude := VNull; Counties.is_active := VNum 1;
       Counties.created_at := t0 |} ].

End Stockroom.

(** * Properties *)

(** ** Strings and phone numbers *)

Section PhoneFacts.

Lemma substring_whole (s : string) :
  String.substring 0 (String.length s) s = s.
Proof. induction s as [|c s IH]; simpl; [done | by rewrite IH]. Qed.

Lemma substring_from_tail (c : ascii) (s : string) :
  substring_from (String c s) 1 = s.
Proof.
  unfold substring_from, substring.
  remember (Z.of_nat (String.length (String c s))) as len eqn:Hlen.
  assert (Hpos : len = 1 + Z.of_nat (String.length s)) by (subst len; cbn [String.length]; lia).
  replace (Z.max 0 (Z.min 1 len)) with 1 by lia.
  replace (Z.max 0 (Z.min len len)) with len by lia.
  replace (Z.min 1 len) with 1 by lia.
  replace (Z.max 1 len) with len by lia.
  replace (Z.to_nat 1) with 1%nat by reflexivity.
  replace (Z.to_nat (len - 1)) with (String.length s)
    by lia.
  simpl. apply substring_whole.
Qed.

Lemma strip_digits_only (s : string) :
  all_digits s = true → strip_non_digits s = s.
Proof.
  induction s as [|c s IH]; simpl; [done|].
  intros [Hc Hs]%andb_true_iff. rewrite Hc. by rewrite IH.
Qed.

Lemma prefix_empty (s : string) : String.prefix "" s = true.
Proof. by destruct s. Qed.

Lemma format_zero_form (x : string) :
  all_digits x = true → Phone.format (String "0" x) = "254" +:+ x.
Proof.
  intros Hx. unfold Phone.format.
  rewrite strip_digits_only by (simpl; by rewrite Hx).
  unfold startsWith. simpl String.prefix.
  by rewrite prefix_empty, substring_from_tail.
Qed.

Lemma prepend_254 (x : string) :
  "254" +:+ x = String "2" (String "5" (String "4" x)).
Proof. reflexivity. Qed.

Lemma format_prefixed_form (x : string) :
  all_digits x = true → Phone.format ("254" +:+ x) = "254" +:+ x.
Proof.
  intros Hx. rewrite prepend_254. unfold Phone.format.
  rewrite strip_digits_only by (cbn; exact Hx).
  unfold startsWith. cbn. by rewrite prefix_empty.
Qed.

Lemma format_bare_form (x : string) :
  all_digits x = true →
  startsWith x "0" = false → startsWith x "254" = false →
  Phone.format x = "254" +:+ x.
Proof.
  intros Hx H0 H254. unfold Phone.format.
  rewrite strip_digits_only by done.
  by rewrite H0, H254.
Qed.

Lemma canonical_prefixed (x : string) :
  String.length x = 9%nat → all_digits x = true →
  Phone.canonical ("254" +:+ x) = true.
Proof. intros Hlen Hx. rewrite prepend_254. cbn. by rewrite Hlen, Hx. Qed.

Lemma canonical_inv (s : string) :
  Phone.canonical s = true →
  ∃ x, s = "254" +:+ x ∧ String.length x = 9%nat ∧ all_digits x = true.
Proof.
  unfold Phone.canonical. intros Hs.
  repeat (case_match; try done); simplify_eq.
  apply andb_true_iff in Hs as [Hl Hd].
  eexists; split; [reflexivity|]. split; [by apply Nat.eqb_eq|done].
Qed.

Lemma strip_is_digits (s : string) : all_digits (strip_non_digits s) = true.
Proof.
  induction s as [|c s IH]; simpl; [done|].
  destruct (is_digit c) eqn:Hc; simpl; [by rewrite Hc|done].
Qed.

Lemma all_digits_cons (c : ascii) (s : string) :
  all_digits (String c s) = true → all_digits s = true.
Proof. simpl. by intros [_ ?]%andb_true_iff. Qed.

Lemma startsWith_cons (s : string) (c : ascii) (p : string) :
  startsWith s (String c p) = true → ∃ s', s = String c s' ∧ startsWith s' p = true.
Proof.
  unfold startsWith. destruct s as [|c' s']; simpl; [done|].
  destruct (ascii_dec c c') as [->|]; [eauto|done].
Qed.

(** The normalised phone is always [254] followed by digits, so it is
    canonical exactly when it has 12 characters. *)
Lemma canonical_format_length (phone : string) :
  Phone.canonical (Phone.format phone) = (String.length (Phone.format phone) =? 12)%nat.
Proof.
  unfold Phone.format.
  pose proof (strip_is_digits phone) as Hd.
  destruct (startsWith (strip_non_digits phone) "0") eqn:H0.
  - apply startsWith_cons in H0 as (d & Heq & _). rewrite Heq in *.
    apply all_digits_cons in Hd.
    rewrite substring_from_tail, prepend_254. cbn. by rewrite Hd, andb_true_r.
  - destruct (startsWith (strip_non_digits phone) "254") eqn:H254; cbn [negb].
    + apply startsWith_cons in H254 as (d1 & Heq1 & H254).
      apply startsWith_cons in H254 as (d2 & Heq2 & H254).
      apply startsWith_cons in H254 as (d3 & Heq3 & _).
      rewrite Heq1, Heq2, Heq3 in *.
      do 3 apply all_digits_cons in Hd.
      cbn. by rewrite Hd, andb_true_r.
    + rewrite prepend_254. cbn. by rewrite Hd, andb_true_r.
Qed.

End PhoneFacts.

(** C3 (as amended). For every 9-digit subscriber number [x], the forms
    [0x] and [254x] are both normalised to the canonical 12-digit string
    [254x]; the bare form [x] is normalised to the same string provided
    [x] itself starts neither with [0] nor with [254]. *)
Theorem phone_forms_normalise (x : string) :
  String.length x = 9%nat → all_digits x = true →
  Phone.format ("0" +:+ x) = "254" +:+ x
  ∧ Phone.format ("254" +:+ x) = "254" +:+ x
  ∧ (startsWith x "0" = false → startsWith x "254" = false →
     Phone.format x = "254" +:+ x)
  ∧ Phone.canonical ("254" +:+ x) = true
  ∧ String.length ("254" +:+ x) = 12%nat.
Proof.
  intros Hlen Hx. split_and!.
  - by apply format_zero_form.
  - by apply format_prefixed_form.
  - by apply format_bare_form.
  - by apply canonical_prefixed.
  - rewrite prepend_254. cbn. by rewrite Hlen.
Qed.

Lemma phone_forms_normalise_witness :
  Phone.format "0712345678" = "254712345678"
  ∧ Phone.format "254712345678" = "254712345678"
  ∧ Phone.format "712345678" = "254712345678"
  ∧ Phone.canonical "254712345678" = true.
Proof.
  pose proof (phone_forms_normalise "712345678" eq_refl eq_refl)
    as (H0 & H254 & Hbare & Hcanon & _).
  split_and!; [exact H0 | exact H254 | exact (Hbare eq_refl eq_refl) | exact Hcanon].
Defined.

(** C3 (as stated) fails: the 9-digit subscriber number [012345678] in bare
    form is read as a number with a leading [0] and loses a digit, so it is
    not normalised to [254012345678], which its two other forms are. *)
Lemma phone_bare_form_leading_zero :
  String.length "012345678" = 9%nat
  ∧ all_digits "012345678" = true
  ∧ Phone.format ("0" +:+ "012345678") = "254012345678"
  ∧ Phone.format ("254" +:+ "012345678") = "254012345678"
  ∧ Phone.format "012345678" = "25412345678"
  ∧ Phone.format "012345678" ≠ "254" +:+ "012345678".
Proof. split_and!; try reflexivity. discriminate. Qed.

(** ** The transaction store *)

Section StoreFacts.
Context {P : Platform}.
Import Store Run.

Lemma callback_status_rule (resultCode : value) :
  callback_status resultCode = Spec.outcome_rule resultCode.
Proof.
  unfold callback_status, strict_eq_num.
  destruct resultCode as [| |b|n|s|l|fs]; try done. by destruct n.
Qed.

Lemma query_status_rule (ResultCode : value) :
  query_status ResultCode = Spec.outcome_rule ResultCode.
Proof.
  unfold query_status, strict_eq_num.
  destruct ResultCode as [| |b|n|s|l|fs]; try done. by destruct n.
Qed.

Lemma outcome_rule_terminal (resultCode : value) :
  Spec.terminal (Spec.outcome_rule resultCode).
Proof.
  unfold Spec.terminal, Spec.outcome_rule.
  destruct resultCode as [| |b|n|s|l|fs]; auto. destruct n; auto.
Qed.

Lemma evolves_refl r : evolves r r.
Proof. unfold evolves; auto 10. Qed.

Lemma evolves_trans r1 r2 r3 : evolves r1 r2 → evolves r2 r3 → evolves r1 r3.
Proof.
  unfold evolves. intros (?&?&?&?&H12) (?&?&?&?&H23).
  split_and!; try congruence.
  destruct H23 as [H23|H23]; [|by right].
  destruct H12 as [H12|H12]; [left; congruence|right; congruence].
Qed.

Lemma store_evolves_refl rows : store_evolves rows rows.
Proof. intros i r Hr. exists r. split; [done|apply evolves_refl]. Qed.

Lemma store_evolves_trans rows1 rows2 rows3 :
  store_evolves rows1 rows2 → store_evolves rows2 rows3 → store_evolves rows1 rows3.
Proof.
  intros H12 H23 i r1 Hr1.
  destruct (H12 i r1 Hr1) as (r2 & Hr2 & He12).
  destruct (H23 i r2 Hr2) as (r3 & Hr3 & He23).
  exists r3. split; [done|by eapply evolves_trans].
Qed.

Lemma update_from_callback_lookup now rc desc receipt mid rows i r :
  rows !! i = Some r →
  ∃ r', update_from_callback now rc desc receipt mid rows !! i = Some r'
        ∧ evolves r r'
        ∧ status r' = (if matches mid r then callback_status rc else status r).
Proof.
  intros Hr. unfold update_from_callback.
  rewrite list_lookup_fmap, Hr. simpl.
  eexists; split; [reflexivity|].
  destruct (matches mid r); simpl.
  - split; [|done]. unfold evolves; simpl. split_and!; try done.
    right. rewrite callback_status_rule. apply outcome_rule_terminal.
  - split; [apply evolves_refl|done].
Qed.

Lemma update_from_query_lookup now rc desc mid rows i r :
  rows !! i = Some r →
  ∃ r', update_from_query now rc desc mid rows !! i = Some r'
        ∧ evolves r r'
        ∧ status r' = (if matches mid r then query_status rc else status r).
Proof.
  intros Hr. unfold update_from_query.
  rewrite list_lookup_fmap, Hr. simpl.
  eexists; split; [reflexivity|].
  destruct (matches mid r); simpl.
  - split; [|done]. unfold evolves; simpl. split_and!; try done.
    right. rewrite query_status_rule. apply outcome_rule_terminal.
  - split; [apply evolves_refl|done].
Qed.

Lemma update_from_callback_evolves now rc desc receipt mid rows :
  store_evolves rows (update_from_callback now rc desc receipt mid rows).
Proof.
  intros i r Hr.
  destruct (update_from_callback_lookup now rc desc receipt mid rows i r Hr)
    as (r' & ? & ? & _); eauto.
Qed.

Lemma update_from_query_evolves now rc desc mid rows :
  store_evolves rows (update_from_query now rc desc mid rows).
Proof.
  intros i r Hr.
  destruct (update_from_query_lookup now rc desc mid rows i r Hr)
    as (r' & ? & ? & _); eauto.
Qed.

Lemma update_from_callback_length now rc desc receipt mid rows :
  length (update_from_callback now rc desc receipt mid rows) = length rows.
Proof. unfold update_from_callback. by rewrite length_fmap. Qed.

Lemma update_from_query_length now rc desc mid rows :
  length (update_from_query now rc desc mid rows) = length rows.
Proof. unfold update_from_query. by rewrite length_fmap. Qed.

(** An [INSERT] leaves the table alone or appends one pending row. *)
Lemma insert_pending_cases now mid cid formattedPhone amount branch product rows :
  insert_pending now mid cid formattedPhone amount branch product rows = rows
  ∨ ∃ r, insert_pending now mid cid formattedPhone amount branch product rows
         = rows ++ [r]
         ∧ status r = pending ∧ phone r = formattedPhone
         ∧ to_text mid = Some (merchant_request_id r).
Proof.
  unfold insert_pending. repeat case_match; auto.
  right. eexists. split; [reflexivity|]. simpl. auto.
Qed.

Lemma insert_pending_evolves now mid cid formattedPhone amount branch product rows :
  store_evolves rows
    (insert_pending now mid cid formattedPhone amount branch product rows).
Proof.
  destruct (insert_pending_cases now mid cid formattedPhone amount branch product rows)
    as [->|(r & -> & _)]; [apply store_evolves_refl|].
  intros i r0 Hr0. exists r0. split; [|apply evolves_refl].
  by apply lookup_app_l_Some.
Qed.

(** No row matches: the [UPDATE] changes nothing. *)
Lemma update_from_callback_no_match now rc desc receipt mid rows :
  Forall (λ r, matches mid r = false) rows →
  update_from_callback now rc desc receipt mid rows = rows.
Proof.
  unfold update_from_callback.
  induction 1 as [|r rows Hr _ IH]; simpl; [done|].
  rewrite Hr. f_equal. exact IH.
Qed.

(** The [UPDATE] of the callback overwrites whatever an earlier
    application of the same payload wrote. *)
Lemma update_from_callback_twice now1 now2 rc desc receipt mid rows :
  update_from_callback now2 rc desc receipt mid
    (update_from_callback now1 rc desc receipt mid rows)
  = update_from_callback now2 rc desc receipt mid rows.
Proof.
  unfold update_from_callback. rewrite <- list_fmap_compose.
  apply list_fmap_ext. intros i r _. simpl.
  unfold matches. destruct (to_text mid) as [m|]; [|done].
  destruct (String.eqb m (merchant_request_id r)) eqn:Hm; simpl; by rewrite Hm.
Qed.

End StoreFacts.

(** ** What each handler does to the server state *)

Section HandlerFacts.
Context {P : Platform} (env : gmap string string).
Import Config Store Mpesa Run.

Lemma getAccessToken_store st w :
  store (getAccessToken env st w).1.2 = store st.
Proof. unfold getAccessToken. repeat case_match; simplify_eq; done. Qed.

(** [POST /stkpush] leaves the table alone or inserts one row, whose
    phone is canonical. *)
Lemma stkpush_store st body w :
  store (after (stkpush env st body w)) = store st
  ∨ ∃ mid cid p amount branch product,
      Phone.canonical p = true
      ∧ store (after (stkpush env st body w))
        = insert_pending (sql_time w) mid cid p amount branch product (store st).
Proof.
  pose proof (getAccessToken_store st w) as Hst.
  unfold stkpush.
  destruct (getAccessToken env st w) as [[token st1] tr1]. simpl in Hst.
  repeat case_match; simpl; rewrite ?Hst; try (by left); simplify_eq.
  all: right; do 6 eexists; (split; [|reflexivity]); by apply negb_false_iff.
Qed.

(** [POST /stkquery] leaves the table alone or runs its [UPDATE] with
    the provider's [ResultCode]. *)
Lemma stkquery_store st body w :
  store (after (stkquery env st body w)) = store st
  ∨ ∃ data,
      api_reply w = Resolved data
      ∧ store (after (stkquery env st body w))
        = update_from_query (sql_time w) (prop data "ResultCode")
            (prop data "ResultDesc") (prop body "merchantRequestID") (store st).
Proof.
  pose proof (getAccessToken_store st w) as Hst.
  unfold stkquery.
  destruct (getAccessToken env st w) as [[token st1] tr1]. simpl in Hst.
  repeat case_match; simpl; rewrite ?Hst; try (by left); simplify_eq.
  all: right; eexists; (split; [done|]).
  all: match goal with H : get _ "ResultCode" = Ok _ |- _ =>
         unfold get in H; case_match; simplify_eq end.
  all: done.
Qed.

(** Whether the [try] block throws, skips or updates is decided by the
    payload alone, not by the table or the clock. *)
Lemma reconcile_shape Body :
  (∃ e, ∀ rows now, reconcile rows Body now = Throw e)
  ∨ (∀ rows now, reconcile rows Body now = Ok (rows, []))
  ∨ (∃ receipt, ∀ rows now, ∃ tr,
       reconcile rows Body now
       = Ok (update_from_callback now
               (prop (prop Body "stkCallback") "ResultCode")
               (prop (prop Body "stkCallback") "ResultDesc")
               receipt
               (prop (prop Body "stkCallback") "MerchantRequestID") rows, tr)).
Proof.
  unfold reconcile. case_match; [|right; left; eauto].
  destruct (find_value _ "Amount") as [amount|e]; simpl; [|left; eauto].
  destruct (find_value _ "MpesaReceiptNumber") as [receipt|e]; simpl; [|left; eauto].
  destruct (find_value _ "TransactionDate") as [date|e]; simpl; [|left; eauto].
  destruct (find_value _ "PhoneNumber") as [phoneNumber|e]; simpl; [|left; eauto].
  right; right. eauto.
Qed.

(** [POST /callback] leaves the table alone or runs its [UPDATE] with
    the payload's [ResultCode]. *)
Lemma callback_store st body w :
  store (after (callback st body w)) = store st
  ∨ ∃ receipt,
      store (after (callback st body w))
      = update_from_callback (sql_time w)
          (prop (stkCallback_of body) "ResultCode")
          (prop (stkCallback_of body) "ResultDesc")
          receipt
          (prop (stkCallback_of body) "MerchantRequestID") (store st).
Proof.
  unfold callback, get, stkCallback_of.
  destruct (nullish body); simpl; [by left|].
  destruct (reconcile_shape (prop body "Body")) as [[e He]|[Hskip|[receipt Hupd]]].
  - rewrite He. by left.
  - rewrite Hskip. by left.
  - destruct (Hupd (store st) (sql_time w)) as [tr ->]. right. by exists receipt.
Qed.

Lemma test_connection_store st w :
  store (after (test_connection env st w)) = store st.
Proof.
  pose proof (getAccessToken_store st w) as Hst.
  unfold test_connection.
  destruct (getAccessToken env st w) as [[token st1] tr1]. simpl in Hst.
  repeat case_match; simpl; by rewrite ?Hst.
Qed.

Lemma step_store_evolves st st' :
  step env st st' → store_evolves (store st) (store st').
Proof.
  destruct 1 as [st body w|st body w|st body w|st w|st].
  - destruct (stkpush_store st body w) as [->|(?&?&?&?&?&?&_&->)];
      [apply store_evolves_refl|apply insert_pending_evolves].
  - destruct (stkquery_store st body w) as [->|(?&_&->)];
      [apply store_evolves_refl|apply update_from_query_evolves].
  - destruct (callback_store st body w) as [->|(?&->)];
      [apply store_evolves_refl|apply update_from_callback_evolves].
  - rewrite test_connection_store. apply store_evolves_refl.
  - apply store_evolves_refl.
Qed.

Lemma run_store_evolves st st' :
  rtc (step env) st st' → store_evolves (store st) (store st').
Proof.
  induction 1 as [st|st st1 st' Hstep _ IH]; [apply store_evolves_refl|].
  eapply store_evolves_trans; [by apply step_store_evolves|exact IH].
Qed.

Lemma evolves_phones rows rows' :
  length rows' = length rows → store_evolves rows rows' →
  phones_canonical rows → phones_canonical rows'.
Proof.
  unfold phones_canonical. rewrite !Forall_lookup.
  intros Hlen Hev Hrows i r' Hr'.
  destruct (rows !! i) as [r|] eqn:Hr.
  - destruct (Hev i r Hr) as (r2 & Hr2 & (_&_&_&Hphone&_)).
    simplify_eq. rewrite Hphone. by eapply Hrows.
  - apply lookup_ge_None in Hr. apply lookup_lt_Some in Hr'. lia.
Qed.

Lemma step_phones_canonical st st' :
  step env st st' → phones_canonical (store st) → phones_canonical (store st').
Proof.
  destruct 1 as [st body w|st body w|st body w|st w|st]; intros Hinv.
  - destruct (stkpush_store st body w) as [->|(mid&cid&p&a&b&pr&Hp&->)]; [done|].
    destruct (insert_pending_cases (sql_time w) mid cid p a b pr (store st))
      as [->|(r & -> & _ & Hr & _)]; [done|].
    apply Forall_app. split; [done|]. apply Forall_singleton. by rewrite Hr.
  - destruct (stkquery_store st body w) as [->|(?&_&->)]; [done|].
    eapply evolves_phones; [apply update_from_query_length
                           |apply update_from_query_evolves|done].
  - destruct (callback_store st body w) as [->|(?&->)]; [done|].
    eapply evolves_phones; [apply update_from_callback_length
                           |apply update_from_callback_evolves|done].
  - by rewrite test_connection_store.
  - done.
Qed.

Lemma reachable_phones_canonical st :
  reachable env st → phones_canonical (store st).
Proof.
  unfold reachable. intros Hrun.
  assert (Hgen : ∀ s s', rtc (step env) s s' →
            phones_canonical (store s) → phones_canonical (store s')).
  { induction 1 as [|s s1 s' Hs _ IH]; [done|].
    intros Hinv. apply IH. by eapply step_phones_canonical. }
  apply (Hgen initial st Hrun). constructor.
Qed.

End HandlerFacts.

(** ** The callback reconciler *)

Section CallbackFacts.
Context {P : Platform}.
Import Config Store Mpesa Run.

Lemma state_eta (st : state) :
  {| accessToken := accessToken st; tokenExpiry := tokenExpiry st;
     store := store st |} = st.
Proof. by destruct st. Qed.

Lemma callback_sent st body w :
  nullish body = false → sent (callback st body w) = Ok ack.
Proof.
  intros Hbody. unfold callback, get. rewrite Hbody.
  destruct (reconcile (store st) (prop body "Body") (sql_time w)) as [[rows tr]|e];
    reflexivity.
Qed.

End CallbackFacts.

(** C4. [POST /callback] does not acknowledge every inbound request: the
    acknowledgment [{ResultCode: 0, ResultDesc: 'Success'}] is sent exactly
    when the request has a body. For a request without one ([req.body] is
    [undefined]) the destructuring [const { Body } = req.body], which
    stands before the [try], throws; the handler's [catch] never sees the
    exception, nothing is logged and no acknowledgment is sent. *)
Theorem callback_without_body_throws {P : Platform}
    (st : Mpesa.state) (w : Mpesa.world) :
  (∀ body, Mpesa.sent (Mpesa.callback st body w) = Ok Mpesa.ack ↔ nullish body = false)
  ∧ Mpesa.callback st VUndefined w
    = {| Mpesa.sent := Throw (TypeError "Cannot read properties of null or undefined: Body");
         Mpesa.after := st; Mpesa.trace := [] |}.
Proof.
  split; [|reflexivity].
  intros body. split; [|apply callback_sent].
  unfold Mpesa.callback, get. by destruct (nullish body).
Qed.

(** X25. Whatever body other than [null] and [undefined] reaches
    [POST /callback], malformed or not, the reply is
    [{ResultCode: 0, ResultDesc: 'Success'}]; when processing the payload
    throws, the exception is caught and logged, the server state is left as
    it was, and the reply is still that one. *)
Theorem callback_always_acknowledges {P : Platform}
    (st : Mpesa.state) (body : value) (w : Mpesa.world) :
  nullish body = false →
  Mpesa.sent (Mpesa.callback st body w) = Ok Mpesa.ack
  ∧ Mpesa.json Mpesa.ack = VObj [("ResultCode", VNum 0); ("ResultDesc", VStr "Success")]
  ∧ (∀ e, Mpesa.reconcile (Mpesa.store st) (prop body "Body") (Mpesa.sql_time w) = Throw e →
          Mpesa.after (Mpesa.callback st body w) = st
          ∧ Mpesa.trace (Mpesa.callback st body w) = [Mpesa.ConsoleError "Callback error:"]).
Proof.
  intros Hbody. split_and!; [by apply callback_sent|reflexivity|].
  intros e He. unfold Mpesa.callback, get. rewrite Hbody, He. by split.
Qed.

(** A callback whose metadata holds a [null] item makes [find] throw; the
    exception is caught and logged, and the acknowledgment is sent. *)
Lemma callback_always_acknowledges_witness :
  let body := Scenario.callback_body 0 (VArr [VNull]) in
  let o := Mpesa.callback (H := Scenario.plain) Scenario.pushed body
             (Scenario.later "2024-03-01 10:01:00") in
  Mpesa.trace o = [Mpesa.ConsoleError "Callback error:"]
  ∧ Mpesa.sent o = Ok Mpesa.ack.
Proof.
  split; [reflexivity|].
  exact (proj1 (callback_always_acknowledges (P := Scenario.plain) Scenario.pushed
                  (Scenario.callback_body 0 (VArr [VNull]))
                  (Scenario.later "2024-03-01 10:01:00") eq_refl)).
Defined.

(** C6. A callback whose [MerchantRequestID] matches no stored transaction
    raises nothing out of the handler, leaves the whole server state, and
    so every row of the table, as it was, and is acknowledged. *)
Theorem callback_unknown_request {P : Platform}
    (st : Mpesa.state) (body : value) (w : Mpesa.world) :
  nullish body = false →
  Forall (λ r, Store.matches (prop (Run.stkCallback_of body) "MerchantRequestID") r = false)
         (Mpesa.store st) →
  Mpesa.sent (Mpesa.callback st body w) = Ok Mpesa.ack
  ∧ Mpesa.after (Mpesa.callback st body w) = st.
Proof.
  intros Hbody Hnone. split; [by apply callback_sent|].
  unfold Mpesa.callback, get. rewrite Hbody.
  destruct (reconcile_shape (prop body "Body")) as [[e He]|[Hskip|[receipt Hupd]]].
  - by rewrite He.
  - rewrite Hskip. simpl. apply state_eta.
  - destruct (Hupd (Mpesa.store st) (Mpesa.sql_time w)) as [tr ->]. simpl.
    rewrite update_from_callback_no_match by exact Hnone.
    apply state_eta.
Qed.

(** A callback for [m-404] arriving while only [m-1] is stored. *)
Lemma callback_unknown_request_witness :
  let o := Mpesa.callback (H := Scenario.plain) Scenario.pushed
             (Scenario.callback_for "m-404" 0 Scenario.paid_items)
             (Scenario.later "2024-03-01 10:01:00") in
  Mpesa.sent o = Ok Mpesa.ack ∧ Mpesa.after o = Scenario.pushed.
Proof.
  refine (callback_unknown_request (P := Scenario.plain) Scenario.pushed
            (Scenario.callback_for "m-404" 0 Scenario.paid_items)
            (Scenario.later "2024-03-01 10:01:00") eq_refl _).
  vm_compute. repeat constructor.
Defined.

Section CallbackTwice.
Context {P : Platform}.
Import Config Store Mpesa Run.

Lemma callback_store_twice st body w1 w2 :
  store (after (callback (after (callback st body w1)) body w2))
  = store (after (callback st body w2)).
Proof.
  unfold callback, get. destruct (nullish body); [reflexivity|].
  destruct (reconcile_shape (prop body "Body")) as [[e He]|[Hskip|[receipt Hupd]]].
  - by repeat (rewrite He; simpl).
  - by repeat (rewrite Hskip; simpl).
  - destruct (Hupd (store st) (sql_time w1)) as [tr1 ->].
    destruct (Hupd (store st) (sql_time w2)) as [tr2 ->]. simpl.
    destruct (Hupd (update_from_callback (sql_time w1)
                      (prop (prop (prop body "Body") "stkCallback") "ResultCode")
                      (prop (prop (prop body "Body") "stkCallback") "ResultDesc")
                      receipt
                      (prop (prop (prop body "Body") "stkCallback") "MerchantRequestID")
                      (store st)) (sql_time w2)) as [tr3 ->]. simpl.
    apply update_from_callback_twice.
Qed.

Lemma callback_store_clock st body w1 w2 :
  sql_time w1 = sql_time w2 →
  store (after (callback st body w1)) = store (after (callback st body w2)).
Proof.
  intros Ht. unfold callback, get. destruct (nullish body); [reflexivity|].
  rewrite Ht.
  by destruct (reconcile (store st) (prop body "Body") (sql_time w2)) as [[rows tr]|e].
Qed.

(** Row by row: a second application of the payload rewrites the columns
    with the values the first one wrote, except [completed_at]. *)
Lemma callback_rows_twice st body w1 w2 i r1 r2 :
  store (after (callback st body w1)) !! i = Some r1 →
  store (after (callback (after (callback st body w1)) body w2)) !! i = Some r2 →
  status r2 = status r1
  ∧ result_code r2 = result_code r1
  ∧ result_desc r2 = result_desc r1
  ∧ mpesa_receipt r2 = mpesa_receipt r1
  ∧ (completed_at r2 = completed_at r1 ∨ completed_at r2 = VStr (sql_time w2)).
Proof.
  unfold callback, get. destruct (nullish body); [simpl; intros; simplify_eq; auto 10|].
  destruct (reconcile_shape (prop body "Body")) as [[e He]|[Hskip|[receipt Hupd]]].
  - repeat (rewrite He; simpl). intros; simplify_eq; auto 10.
  - repeat (rewrite Hskip; simpl). intros; simplify_eq; auto 10.
  - destruct (Hupd (store st) (sql_time w1)) as [tr1 ->]. simpl.
    match goal with |- context [reconcile ?rows _ (sql_time w2)] =>
      destruct (Hupd rows (sql_time w2)) as [tr3 ->] end. simpl.
    unfold update_from_callback. rewrite !list_lookup_fmap.
    destruct (store st !! i) as [r|]; simpl; [|done].
    intros ? ?; simplify_eq.
    unfold matches. destruct (to_text _) as [m|]; [|auto 10].
    destruct (String.eqb m (merchant_request_id r)) eqn:Hm; simpl; rewrite Hm;
      simpl; auto 10.
Qed.

End CallbackTwice.

(** C9 (as amended). Applying the same callback payload twice in succession
    leaves the table as one application at the time of the second does:
    every row has the status, result code, result description and receipt
    the first application gave it, and a completion timestamp that is
    either the one it had or the time of the second application. When both
    applications read the same [CURRENT_TIMESTAMP] the table is the one the
    first application left. *)
Theorem callback_reapplied {P : Platform}
    (st : Mpesa.state) (body : value) (w1 w2 : Mpesa.world) :
  let once := Mpesa.after (Mpesa.callback st body w1) in
  let twice := Mpesa.after (Mpesa.callback once body w2) in
  Mpesa.store twice = Mpesa.store (Mpesa.after (Mpesa.callback st body w2))
  ∧ (∀ i r1 r2,
       Mpesa.store once !! i = Some r1 → Mpesa.store twice !! i = Some r2 →
       Store.status r2 = Store.status r1
       ∧ Store.result_code r2 = Store.result_code r1
       ∧ Store.result_desc r2 = Store.result_desc r1
       ∧ Store.mpesa_receipt r2 = Store.mpesa_receipt r1
       ∧ (Store.completed_at r2 = Store.completed_at r1
          ∨ Store.completed_at r2 = VStr (Mpesa.sql_time w2)))
  ∧ (Mpesa.sql_time w1 = Mpesa.sql_time w2 → Mpesa.store twice = Mpesa.store once).
Proof.
  simpl. split_and!.
  - apply callback_store_twice.
  - apply callback_rows_twice.
  - intros Ht. rewrite callback_store_twice. symmetry. by apply callback_store_clock.
Qed.

(** The paid callback for [m-1] delivered twice within the same second. *)
Lemma callback_reapplied_witness :
  let w := Scenario.later "2024-03-01 10:01:00" in
  let once := Mpesa.after (Mpesa.callback (H := Scenario.plain) Scenario.pushed Scenario.paid w) in
  let twice := Mpesa.after (Mpesa.callback (H := Scenario.plain) once Scenario.paid w) in
  Mpesa.store twice = Mpesa.store once.
Proof.
  exact (proj2 (proj2 (callback_reapplied (P := Scenario.plain) Scenario.pushed
                         Scenario.paid (Scenario.later "2024-03-01 10:01:00")
                         (Scenario.later "2024-03-01 10:01:00"))) eq_refl).
Defined.

(** C9 (as stated) fails: the paid callback for [m-1] delivered a second
    time seven seconds later moves the row's completion timestamp, so the
    row is not the one a single application left. *)
Lemma callback_redelivery_moves_completion_time :
  let once := Mpesa.after (Mpesa.callback (H := Scenario.plain) Scenario.pushed
                             Scenario.paid (Scenario.later "2024-03-01 10:01:00")) in
  let twice := Mpesa.after (Mpesa.callback (H := Scenario.plain) once
                              Scenario.paid (Scenario.later "2024-03-01 10:01:07")) in
  Store.completed_at <$> Mpesa.store once = [VStr "2024-03-01 10:01:00"]
  ∧ Store.completed_at <$> Mpesa.store twice = [VStr "2024-03-01 10:01:07"]
  ∧ Mpesa.store twice ≠ Mpesa.store once.
Proof. split_and!; [reflexivity|reflexivity|discriminate]. Qed.

(** ** The life of a transaction row *)

Section Lifecycle.
Context {P : Platform} (env : gmap string string).
Import Config Store Mpesa Run.

Lemma stkpush_new_row_pending st body w i r' :
  store st !! i = None →
  store (after (stkpush env st body w)) !! i = Some r' →
  status r' = pending.
Proof.
  intros Hnone Hnew.
  destruct (stkpush_store env st body w) as [Heq|(mid&cid&p&a&b&pr&_&Heq)];
    rewrite Heq in Hnew; [congruence|].
  destruct (insert_pending_cases (sql_time w) mid cid p a b pr (store st))
    as [Hsame|(r & Happ & Hpending & _)]; rewrite ?Hsame, ?Happ in Hnew;
    [congruence|].
  apply lookup_ge_None in Hnone.
  rewrite lookup_app_r in Hnew by done.
  apply list_lookup_singleton_Some in Hnew as [_ <-]. done.
Qed.

Lemma callback_row_status st body w i r :
  store st !! i = Some r →
  ∃ r', store (after (callback st body w)) !! i = Some r'
        ∧ (status r' = status r
           ∨ status r' = Spec.outcome_rule (prop (stkCallback_of body) "ResultCode")).
Proof.
  intros Hr.
  destruct (callback_store st body w) as [->|(receipt & ->)]; [eauto|].
  destruct (update_from_callback_lookup (sql_time w)
              (prop (stkCallback_of body) "ResultCode")
              (prop (stkCallback_of body) "ResultDesc") receipt
              (prop (stkCallback_of body) "MerchantRequestID") (store st) i r Hr)
    as (r' & Hr' & _ & Hstatus).
  exists r'. split; [done|]. rewrite Hstatus.
  destruct (matches _ r); [right; apply callback_status_rule|by left].
Qed.

Lemma stkquery_row_status st body w i r :
  store st !! i = Some r →
  ∃ r', store (after (stkquery env st body w)) !! i = Some r'
        ∧ (status r' = status r
           ∨ ∃ data, api_reply w = Resolved data
                     ∧ status r' = Spec.outcome_rule (prop data "ResultCode")).
Proof.
  intros Hr.
  destruct (stkquery_store env st body w) as [->|(data & Hdata & ->)]; [eauto|].
  destruct (update_from_query_lookup (sql_time w) (prop data "ResultCode")
              (prop data "ResultDesc") (prop body "merchantRequestID")
              (store st) i r Hr)
    as (r' & Hr' & _ & Hstatus).
  exists r'. split; [done|]. rewrite Hstatus.
  destruct (matches _ r); [right|by left].
  exists data. split; [done|apply query_status_rule].
Qed.

Lemma run_keeps_terminal st st' i r :
  rtc (step env) st st' →
  store st !! i = Some r → Spec.terminal (status r) →
  ∃ r', store st' !! i = Some r'
        ∧ merchant_request_id r' = merchant_request_id r
        ∧ Spec.terminal (status r').
Proof.
  intros Hrun Hr Hterm.
  destruct (run_store_evolves env st st' Hrun i r Hr) as (r' & Hr' & Hev).
  destruct Hev as (_ & Hmid & _ & _ & Hstatus).
  exists r'. split_and!; [done|done|].
  destruct Hstatus as [->|]; done.
Qed.

End Lifecycle.

(** C1 (as amended). A transaction row starts as [pending]. A callback or
    a status query leaves the status of a row as it was or sets it to the
    status its own result code maps to ([completed] for the number 0,
    [failed] otherwise), whatever the row's status was before. So, over any
    sequence of requests, a row that has reached [completed] or [failed]
    stays a row of the same merchant request and stays in one of these two
    statuses: it never returns to [pending]. *)
Theorem status_lifecycle {P : Platform} (env : gmap string string) :
  (∀ st body w i r',
     Mpesa.store st !! i = None →
     Mpesa.store (Mpesa.after (Mpesa.stkpush env st body w)) !! i = Some r' →
     Store.status r' = Store.pending)
  ∧ (∀ st body w i r,
       Mpesa.store st !! i = Some r →
       ∃ r', Mpesa.store (Mpesa.after (Mpesa.callback st body w)) !! i = Some r'
             ∧ (Store.status r' = Store.status r
                ∨ Store.status r'
                  = Spec.outcome_rule (prop (Run.stkCallback_of body) "ResultCode")))
  ∧ (∀ st body w i r,
       Mpesa.store st !! i = Some r →
       ∃ r', Mpesa.store (Mpesa.after (Mpesa.stkquery env st body w)) !! i = Some r'
             ∧ (Store.status r' = Store.status r
                ∨ ∃ data, Mpesa.api_reply w = Mpesa.Resolved data
                          ∧ Store.status r' = Spec.outcome_rule (prop data "ResultCode")))
  ∧ (∀ st st' i r,
       rtc (Run.step env) st st' →
       Mpesa.store st !! i = Some r → Spec.terminal (Store.status r) →
       ∃ r', Mpesa.store st' !! i = Some r'
             ∧ Store.merchant_request_id r' = Store.merchant_request_id r
             ∧ Spec.terminal (Store.status r')).
Proof.
  split_and!.
  - apply stkpush_new_row_pending.
  - apply callback_row_status.
  - apply stkquery_row_status.
  - apply run_keeps_terminal.
Qed.

(** The scenario: the row inserted by the push is [pending]; after the paid
    callback and a later cancelled one it is still terminal. *)
Lemma status_lifecycle_witness :
  (∃ r0, Mpesa.store Scenario.pushed !! 0%nat = Some r0
         ∧ Store.status r0 = Store.pending)
  ∧ ∃ r',
      Mpesa.store (Mpesa.after (Mpesa.callback (H := Scenario.plain) Scenario.completed_once
                                  Scenario.cancelled
                                  (Scenario.later "2024-03-01 10:02:00"))) !! 0%nat
      = Some r'
      ∧ Spec.terminal (Store.status r').
Proof.
  destruct (status_lifecycle (P := Scenario.plain) Scenario.configured)
    as (Hnew & _ & _ & Hrun).
  split.
  - eexists. split; [reflexivity|].
    apply (Hnew Mpesa.initial (Scenario.push_body "0712345678") Scenario.at_push 0%nat);
      reflexivity.
  - destruct (Hrun Scenario.completed_once _ 0%nat _
                (rtc_once _ _ (Run.step_callback Scenario.configured
                                 Scenario.completed_once Scenario.cancelled
                                 (Scenario.later "2024-03-01 10:02:00")))
                eq_refl (or_introl eq_refl))
      as (r' & Hr' & _ & Hterm).
    exists r'. split; [exact Hr'|exact Hterm].
Defined.

(** C1 (as stated) fails: the row of [m-1], [pending] after the push, is
    [completed] by the paid callback and then changed to [failed] by a
    later callback reporting a cancellation. *)
Lemma completed_row_overwritten_by_later_callback :
  let again := Mpesa.after (Mpesa.callback (H := Scenario.plain) Scenario.completed_once
                              Scenario.cancelled (Scenario.later "2024-03-01 10:02:00")) in
  Store.status <$> Mpesa.store Scenario.pushed = [Store.pending]
  ∧ Store.status <$> Mpesa.store Scenario.completed_once = [Store.completed]
  ∧ Store.status <$> Mpesa.store again = [Store.failed].
Proof. split_and!; reflexivity. Qed.

(** ** Initiation and configuration *)

Section InitiateFacts.
Context {P : Platform} (env : gmap string string).
Import Config Store Mpesa Run.

Lemma missing_spec name :
  name ∈ missing (validateEnvVariables env)
  ↔ name ∈ required ∧ truthy (env_get env name) = false.
Proof.
  unfold validateEnvVariables. cbn [missing].
  rewrite !list_elem_of_In, filter_In, negb_true_iff. tauto.
Qed.

Lemma missing_nonempty :
  (∃ name, name ∈ required ∧ truthy (env_get env name) = false) →
  missing (validateEnvVariables env) ≠ [].
Proof.
  intros (name & Hname). apply missing_spec in Hname.
  intros Hnil. rewrite Hnil in Hname. by apply elem_of_nil in Hname.
Qed.

Lemma missing_invalid :
  missing (validateEnvVariables env) ≠ [] →
  valid (validateEnvVariables env) = false
  ∧ hasValidCredentials (validateEnvVariables env) = false.
Proof.
  unfold validateEnvVariables. cbn [missing valid hasValidCredentials].
  destruct (List.filter _ required) as [|name rest]; [done|]. intros _.
  cbn [length Nat.ltb Nat.leb Nat.eqb andb].
  split; [by case_match|done].
Qed.

End InitiateFacts.

(** C2 (as amended). For every phone string that, once its non-digit
    characters are stripped and its prefix rewritten, does not have 12
    characters (it is then not [254] followed by nine digits),
    [POST /stkpush] makes no network call (no token fetch, no provider
    request), creates no transaction row and replies with an error: the
    400 validation error when the configuration is valid, the 500
    configuration error otherwise. Non-digit characters are stripped, not
    rejected. *)
Theorem stkpush_rejects_bad_phone {P : Platform} (env : gmap string string)
    (st : Mpesa.state) (body : value) (w : Mpesa.world) (phone : string) :
  prop body "phone" = VStr phone →
  String.length (Phone.format phone) ≠ 12%nat →
  let o := Mpesa.stkpush env st body w in
  Mpesa.trace o = [] ∧ Mpesa.after o = st
  ∧ ∃ r, Mpesa.sent o = Ok r
         ∧ if Config.valid (Config.validateEnvVariables env) then
             Mpesa.code r = 400
             ∧ (prop (Mpesa.json r) "error" = VStr "Phone and amount are required"
                ∨ prop (Mpesa.json r) "error" = VStr "Invalid phone number format")
           else
             Mpesa.code r = 500
             ∧ prop (Mpesa.json r) "error" = VStr "M-Pesa configuration is incomplete".
Proof.
  intros Hphone Hlen o. subst o.
  assert (Hbad : Phone.canonical (Phone.format phone) = false).
  { rewrite canonical_format_length. by apply Nat.eqb_neq. }
  unfold Mpesa.stkpush.
  destruct (Config.valid (Config.validateEnvVariables env)); cbn [negb].
  2:{ cbn. split_and!; [done|done|]. eexists. split; [done|]. split; reflexivity. }
  unfold get. destruct (nullish body) eqn:Hbody; [by destruct body|].
  rewrite Hphone.
  destruct (negb (truthy (VStr phone)) || negb (truthy (prop body "amount"))).
  { cbn. split_and!; [done|done|]. eexists. split; [done|]. split; [done|by left]. }
  rewrite Hbad. cbn.
  split_and!; [done|done|]. eexists. split; [done|]. split; [done|by right].
Qed.

(** A phone number one digit short. *)
Lemma stkpush_rejects_bad_phone_witness :
  let o := Mpesa.stkpush (H := Scenario.plain) Scenario.configured Mpesa.initial
             (Scenario.push_body "071234567") Scenario.at_push in
  Mpesa.trace o = [] ∧ Mpesa.after o = Mpesa.initial
  ∧ ∃ r, Mpesa.sent o = Ok r ∧ Mpesa.code r = 400.
Proof.
  assert (Hlen : String.length (Phone.format "071234567") ≠ 12%nat)
    by (vm_compute; discriminate).
  destruct (stkpush_rejects_bad_phone (P := Scenario.plain) Scenario.configured
              Mpesa.initial (Scenario.push_body "071234567") Scenario.at_push
              "071234567" eq_refl Hlen) as (Htrace & Hafter & r & Hsent & Hr).
  split_and!; [exact Htrace|exact Hafter|].
  exists r. split; [exact Hsent|exact (proj1 Hr)].
Defined.

(** C2 (as stated) fails: [0712-345-678] contains non-digit characters, yet
    initiation succeeds: the token is fetched, the provider is called with
    [254712345678] and a pending row is created. *)
Lemma stkpush_accepts_punctuated_phone :
  let o := Mpesa.stkpush (H := Scenario.plain) Scenario.configured Mpesa.initial
             (Scenario.push_body "0712-345-678") Scenario.at_push in
  all_digits "0712-345-678" = false
  ∧ (∃ r, Mpesa.sent o = Ok r ∧ Mpesa.code r = 200)
  ∧ length (List.filter Mpesa.is_network (Mpesa.trace o)) = 2%nat
  ∧ Store.phone <$> Mpesa.store (Mpesa.after o) = ["254712345678"]
  ∧ Store.status <$> Mpesa.store (Mpesa.after o) = [Store.pending].
Proof.
  split_and!; try reflexivity. eexists. split; reflexivity.
Qed.

(** C8. When a required M-Pesa variable is unset (or empty), the
    connection check replies not-configured and lists exactly the required
    variables that are unset, and [POST /stkpush] replies with the
    configuration error; neither makes a network call nor touches the
    server state. *)
Theorem unconfigured_fails_fast {P : Platform} (env : gmap string string)
    (st : Mpesa.state) (body : value) (w : Mpesa.world) :
  (∃ name, name ∈ Config.required ∧ truthy (Config.env_get env name) = false) →
  let mpesaConfig := Config.validateEnvVariables env in
  Config.missing mpesaConfig ≠ []
  ∧ (∀ name, name ∈ Config.missing mpesaConfig
             ↔ name ∈ Config.required ∧ truthy (Config.env_get env name) = false)
  ∧ Mpesa.test_connection env st w
    = {| Mpesa.sent :=
           Ok {| Mpesa.code := 500;
                 Mpesa.json :=
                   VObj [("success", VBool false);
                         ("message", VStr "M-Pesa credentials not configured");
                         ("missingVariables", Config.strings (Config.missing mpesaConfig));
                         ("warnings", Config.strings (Config.warnings mpesaConfig))] |};
         Mpesa.after := st; Mpesa.trace := [] |}
  ∧ Mpesa.stkpush env st body w
    = {| Mpesa.sent :=
           Ok {| Mpesa.code := 500;
                 Mpesa.json :=
                   VObj [("error", VStr "M-Pesa configuration is incomplete");
                         ("message", VStr "Please configure your M-Pesa credentials in the .env file");
                         ("missingVariables", Config.strings (Config.missing mpesaConfig));
                         ("warnings", Config.strings (Config.warnings mpesaConfig));
                         ("setupGuide", VStr "See MPESA_SETUP.md for detailed instructions")] |};
         Mpesa.after := st; Mpesa.trace := [] |}.
Proof.
  intros Hunset. simpl.
  pose proof (missing_nonempty env Hunset) as Hmissing.
  destruct (missing_invalid env Hmissing) as [Hvalid Hcreds].
  split_and!.
  - exact Hmissing.
  - apply missing_spec.
  - unfold Mpesa.test_connection. by rewrite Hcreds.
  - unfold Mpesa.stkpush. by rewrite Hvalid.
Qed.

(** An environment without consumer secret and passkey. *)
Lemma unconfigured_fails_fast_witness :
  Config.missing (Config.validateEnvVariables Scenario.unconfigured)
  = ["MPESA_CONSUMER_SECRET"; "MPESA_PASSKEY"]
  ∧ Mpesa.trace (Mpesa.test_connection (H := Scenario.plain) Scenario.unconfigured
                   Mpesa.initial Scenario.at_push) = []
  ∧ Mpesa.trace (Mpesa.stkpush (H := Scenario.plain) Scenario.unconfigured
                   Mpesa.initial (Scenario.push_body "0712345678") Scenario.at_push) = [].
Proof.
  assert (Hunset : ∃ name, name ∈ Config.required
                           ∧ truthy (Config.env_get Scenario.unconfigured name) = false).
  { exists "MPESA_PASSKEY". split; [|reflexivity]. unfold Config.required.
    repeat constructor. }
  destruct (unconfigured_fails_fast (P := Scenario.plain) Scenario.unconfigured
              Mpesa.initial (Scenario.push_body "0712345678") Scenario.at_push Hunset)
    as (_ & _ & Htest & Hpush).
  split_and!; [reflexivity|by rewrite Htest|by rewrite Hpush].
Defined.

(** ** The token cache *)

Section TokenFacts.
Context {P : Platform} (env : gmap string string).
Import Config Store Mpesa Run.

Lemma getAccessToken_hit st w :
  cache_valid st (now_check w) = true →
  getAccessToken env st w = (Ok (accessToken st), st, []).
Proof. intros Hhit. unfold getAccessToken. by rewrite Hhit. Qed.

Lemma getAccessToken_refresh st w data :
  cache_valid st (now_check w) = false →
  truthy (consumerKey (MPESA_CONFIG env)) = true →
  truthy (consumerSecret (MPESA_CONFIG env)) = true →
  auth_reply w = Resolved data → nullish data = false →
  getAccessToken env st w
  = (Ok (prop data "access_token"),
     {| accessToken := prop data "access_token";
        tokenExpiry := Some (now_reply w + 50 * 60 * 1000);
        store := store st |},
     [HttpGet (authUrl (MPESA_CONFIG env))
        ("Basic " +:+ base64 (to_string (consumerKey (MPESA_CONFIG env)) +:+ ":"
                              +:+ to_string (consumerSecret (MPESA_CONFIG env))))]).
Proof.
  intros Hmiss Hkey Hsecret Hreply Hdata. unfold getAccessToken.
  rewrite Hmiss, Hkey, Hsecret, Hreply. cbn [negb orb].
  unfold get. by rewrite Hdata.
Qed.

(** With the cache stale and the credentials configured, one request is
    sent, whatever the provider answers. *)
Lemma getAccessToken_requests st w :
  cache_valid st (now_check w) = false →
  truthy (consumerKey (MPESA_CONFIG env)) = true →
  truthy (consumerSecret (MPESA_CONFIG env)) = true →
  ∃ request,
    List.filter is_network (getAccessToken env st w).2
    = [HttpGet (authUrl (MPESA_CONFIG env)) request].
Proof.
  intros Hmiss Hkey Hsecret. unfold getAccessToken.
  rewrite Hmiss, Hkey, Hsecret. cbn [negb orb].
  eexists. unfold token_failure_log.
  destruct (auth_reply w) as [data|error]; [destruct (get data _) as [?|e]|];
    try destruct (nullish e); try destruct (nullish error); reflexivity.
Qed.

(** A call that returns a token leaves that token in the cache, with a
    non-zero expiry when the clock reads a time since the epoch, and has
    made at most one request. *)
Lemma getAccessToken_cached st w token st1 tr1 :
  getAccessToken env st w = (Ok token, st1, tr1) →
  0 <= now_reply w →
  accessToken st1 = token
  ∧ expiry_truthy (tokenExpiry st1) = true
  ∧ (length (List.filter is_network tr1) ≤ 1)%nat.
Proof.
  unfold getAccessToken. intros Hcall Hclock.
  destruct (cache_valid st (now_check w)) eqn:Hvalid.
  - simplify_eq. unfold cache_valid in Hvalid.
    apply andb_true_iff in Hvalid as [[_ Hexp]%andb_true_iff _].
    split_and!; [done|done|simpl; lia].
  - repeat case_match; simplify_eq.
    split_and!; [done| |simpl; lia].
    simpl. apply negb_true_iff, Z.eqb_neq. lia.
Qed.

End TokenFacts.

(** C7. When a cached token exists and the current time is before its
    expiry, [getAccessToken] returns that very token, leaves the cache as
    it is and makes no network request. Otherwise, with the credentials
    configured, it sends one request to the authorization endpoint,
    whatever the answer, and, when the provider answers, caches the token
    it received with an expiry
    50 minutes after the reply, which is less than the provider's 60
    minutes. So a call within the cache window of an earlier successful
    call returns the identical token with no request, and the two calls
    together make at most one. *)
Theorem token_cache {P : Platform} (env : gmap string string) :
  (∀ st w,
     Mpesa.cache_valid st (Mpesa.now_check w) = true →
     Mpesa.getAccessToken env st w = (Ok (Mpesa.accessToken st), st, []))
  ∧ (∀ st w data,
       Mpesa.cache_valid st (Mpesa.now_check w) = false →
       truthy (Config.consumerKey (Config.MPESA_CONFIG env)) = true →
       truthy (Config.consumerSecret (Config.MPESA_CONFIG env)) = true →
       Mpesa.auth_reply w = Mpesa.Resolved data → nullish data = false →
       ∃ request,
         Mpesa.getAccessToken env st w
         = (Ok (prop data "access_token"),
            {| Mpesa.accessToken := prop data "access_token";
               Mpesa.tokenExpiry := Some (Mpesa.now_reply w + 50 * 60 * 1000);
               Mpesa.store := Mpesa.store st |},
            [Mpesa.HttpGet (Config.authUrl (Config.MPESA_CONFIG env)) request])
         ∧ 50 * 60 * 1000 < 60 * 60 * 1000)
  ∧ (∀ st w,
       Mpesa.cache_valid st (Mpesa.now_check w) = false →
       truthy (Config.consumerKey (Config.MPESA_CONFIG env)) = true →
       truthy (Config.consumerSecret (Config.MPESA_CONFIG env)) = true →
       ∃ request,
         List.filter Mpesa.is_network (Mpesa.getAccessToken env st w).2
         = [Mpesa.HttpGet (Config.authUrl (Config.MPESA_CONFIG env)) request])
  ∧ (∀ st w1 w2 token st1 tr1,
       Mpesa.getAccessToken env st w1 = (Ok token, st1, tr1) →
       truthy token = true →
       0 <= Mpesa.now_reply w1 →
       Mpesa.before_expiry (Mpesa.now_check w2) (Mpesa.tokenExpiry st1) = true →
       Mpesa.getAccessToken env st1 w2 = (Ok token, st1, [])
       ∧ (length (List.filter Mpesa.is_network (tr1 ++ [])) ≤ 1)%nat).
Proof.
  split_and!.
  - apply getAccessToken_hit.
  - intros st w data Hmiss Hkey Hsecret Hreply Hdata. eexists. split; [|done].
    by apply getAccessToken_refresh.
  - apply getAccessToken_requests.
  - intros st w1 w2 token st1 tr1 Hcall Htoken Hclock Hwindow.
    destruct (getAccessToken_cached env st w1 token st1 tr1 Hcall Hclock)
      as (Hcached & Hexpiry & Hcount).
    split; [|by rewrite app_nil_r].
    rewrite <- Hcached. apply getAccessToken_hit.
    unfold Mpesa.cache_valid. by rewrite Hcached, Htoken, Hexpiry, Hwindow.
Qed.

(** The push of the scenario fetches [tok-1]; a minute later the token is
    served from the cache. *)
Lemma token_cache_witness :
  let first := Mpesa.getAccessToken (H := Scenario.plain) Scenario.configured
                 Mpesa.initial Scenario.at_push in
  first.1.1 = Ok (VStr "tok-1")
  ∧ Mpesa.tokenExpiry first.1.2 = Some (1709287200250 + 3000000)
  ∧ Mpesa.getAccessToken (H := Scenario.plain) Scenario.configured first.1.2
      (Scenario.later "2024-03-01 10:01:00")
    = (Ok (VStr "tok-1"), first.1.2, []).
Proof.
  destruct (token_cache (P := Scenario.plain) Scenario.configured)
    as (_ & Hrefresh & _ & Htwice).
  destruct (Hrefresh Mpesa.initial Scenario.at_push
              (VObj [("access_token", VStr "tok-1"); ("expires_in", VStr "3599")])
              eq_refl eq_refl eq_refl eq_refl eq_refl) as (request & Hfirst & _).
  cbv zeta. rewrite Hfirst. split_and!; [reflexivity|reflexivity|].
  exact (proj1 (Htwice Mpesa.initial Scenario.at_push
                  (Scenario.later "2024-03-01 10:01:00") _ _ _ Hfirst eq_refl
                  ltac:(discriminate) eq_refl)).
Defined.

(** ** Transaction history *)

Section HistoryFacts.
Import Config Store Mpesa Run.

Lemma insert_newest_first_elem (r x : row) (sorted : list row) :
  x ∈ insert_newest_first r sorted ↔ x = r ∨ x ∈ sorted.
Proof.
  induction sorted as [|r' rest IH]; simpl.
  - rewrite list_elem_of_singleton, elem_of_nil. tauto.
  - destruct (String.ltb (created_at r') (created_at r)).
    + by rewrite elem_of_cons.
    + rewrite !elem_of_cons, IH. tauto.
Qed.

Lemma sorted_elem (rows acc : list row) (x : row) :
  x ∈ foldl (λ acc r, insert_newest_first r acc) acc rows → x ∈ acc ∨ x ∈ rows.
Proof.
  revert acc. induction rows as [|r rows IH]; simpl; intros acc Hx; [by left|].
  apply IH in Hx as [Hx|Hx].
  - apply insert_newest_first_elem in Hx as [->|Hx]; [right; left|by left].
  - right. by right.
Qed.

Lemma select_recent_elem (rows : list row) (x : row) :
  x ∈ select_recent rows → x ∈ rows.
Proof.
  unfold select_recent. intros Hx%subseteq_take.
  apply sorted_elem in Hx as [Hx|Hx]; [by apply elem_of_nil in Hx|done].
Qed.

Lemma select_recent_length (rows : list row) :
  (length (select_recent rows) ≤ 50)%nat.
Proof. unfold select_recent. rewrite length_take. lia. Qed.

Lemma substring_beyond (n : nat) (s : string) :
  (String.length s ≤ n)%nat → String.substring 0 n s = s.
Proof.
  revert n. induction s as [|c s IH]; intros [|n]; simpl; try done; try lia.
  intros Hn. rewrite IH; [done|lia].
Qed.

Lemma substring_min (n : nat) (s : string) :
  String.substring 0 (n `min` String.length s) s = String.substring 0 n s.
Proof.
  revert n. induction s as [|c s IH]; intros [|n]; simpl; try done.
  by rewrite IH.
Qed.

(** The JavaScript [substring] calls of the mask are the first six and the
    last two characters. *)
Lemma mask_is_masked (phone : string) : Phone.mask phone = Spec.masked phone.
Proof.
  unfold Phone.mask, Spec.masked, substring_from, substring.
  remember (String.length phone) as n eqn:Hlen.
  f_equal; [|f_equal].
  - replace (Z.min (Z.max 0 (Z.min 0 (Z.of_nat n))) (Z.max 0 (Z.min 6 (Z.of_nat n))))
      with 0 by lia.
    replace (Z.max (Z.max 0 (Z.min 0 (Z.of_nat n))) (Z.max 0 (Z.min 6 (Z.of_nat n))) - 0)
      with (Z.of_nat (6 `min` n)) by lia.
    rewrite Nat2Z.id, Hlen. apply substring_min.
  - replace (Z.to_nat (Z.min (Z.max 0 (Z.min (Z.of_nat n - 2) (Z.of_nat n)))
                             (Z.max 0 (Z.min (Z.of_nat n) (Z.of_nat n)))))
      with (n - 2)%nat by lia.
    destruct (decide (2 ≤ n)%nat) as [Hn|Hn].
    + f_equal. lia.
    + replace (n - 2)%nat with 0%nat by lia.
      rewrite (substring_beyond 2) by lia.
      apply substring_beyond. lia.
Qed.

Lemma masked_differs (phone : string) :
  Phone.canonical phone = true → Spec.masked phone ≠ phone.
Proof.
  intros (x & -> & Hlen & Hdigits)%canonical_inv.
  do 9 (destruct x as [|? x]; [discriminate Hlen|]).
  destruct x; [|discriminate Hlen].
  rewrite prepend_254. intros Heq. vm_compute in Heq. simplify_eq.
  cbn in Hdigits.
  repeat match type of Hdigits with
         | context [is_digit ?c] => is_var c; destruct (is_digit c)
         end; discriminate Hdigits.
Qed.

End HistoryFacts.

(** C10. [GET /transactions] never returns a stored phone number in full.
    It replies with at most 50 rows, each the view of a stored transaction
    whose [phone] field is the first 6 characters of the stored phone, then
    [****], then its last 2 characters; on every table the server can
    reach, where stored phones are [254] and nine digits, that field
    differs from the stored phone. *)
Theorem transactions_mask_phone {P : Platform} (env : gmap string string)
    (st : Mpesa.state) :
  Run.reachable env st →
  ∃ rows,
    Mpesa.sent (Mpesa.transactions st)
    = Ok {| Mpesa.code := 200; Mpesa.json := VArr (Mpesa.transaction_view <$> rows) |}
    ∧ (length rows ≤ 50)%nat
    ∧ ∀ r, r ∈ rows →
           r ∈ Mpesa.store st
           ∧ prop (Mpesa.transaction_view r) "phone" = VStr (Spec.masked (Store.phone r))
           ∧ Spec.masked (Store.phone r) ≠ Store.phone r.
Proof.
  intros Hreach. exists (Store.select_recent (Mpesa.store st)).
  split_and!; [reflexivity|apply select_recent_length|].
  intros r Hr%select_recent_elem. split_and!; [done| |].
  - cbn. by rewrite mask_is_masked.
  - apply masked_differs.
    pose proof (reachable_phones_canonical env st Hreach) as Hall.
    unfold Run.phones_canonical in Hall. rewrite Forall_forall in Hall. by apply Hall.
Qed.

(** The history after the scenario's push and paid callback. *)
Lemma transactions_mask_phone_witness :
  ∃ rows,
    Mpesa.sent (Mpesa.transactions Scenario.completed_once)
    = Ok {| Mpesa.code := 200; Mpesa.json := VArr (Mpesa.transaction_view <$> rows) |}
    ∧ (length rows ≤ 50)%nat
    ∧ ∀ r, r ∈ rows →
           r ∈ Mpesa.store Scenario.completed_once
           ∧ prop (Mpesa.transaction_view r) "phone" = VStr (Spec.masked (Store.phone r))
           ∧ Spec.masked (Store.phone r) ≠ Store.phone r.
Proof.
  apply (transactions_mask_phone (P := Scenario.plain) Scenario.configured
           Scenario.completed_once).
  unfold Run.reachable.
  eapply rtc_l; [apply (Run.step_stkpush Scenario.configured Mpesa.initial
                          (Scenario.push_body "0712345678") Scenario.at_push)|].
  apply rtc_once.
  apply (Run.step_callback Scenario.configured Scenario.pushed Scenario.paid
           (Scenario.later "2024-03-01 10:01:00")).
Defined.

Example transactions_scenario :
  ∃ view,
    Mpesa.sent (Mpesa.transactions Scenario.completed_once)
    = Ok {| Mpesa.code := 200; Mpesa.json := VArr [view] |}
    ∧ prop view "phone" = VStr "254712****78".
Proof. eexists. split; reflexivity. Qed.

(** The end-to-end scenario of the specification: the push stores a pending
    row for [254712345678]; the paid callback completes it with receipt
    [ABC123] and emits the sale for Nairobi, Coke and 50. *)
Example scenario_end_to_end :
  Store.phone <$> Mpesa.store Scenario.pushed = ["254712345678"]
  ∧ Store.status <$> Mpesa.store Scenario.pushed = [Store.pending]
  ∧ Store.status <$> Mpesa.store Scenario.completed_once = [Store.completed]
  ∧ Store.mpesa_receipt <$> Mpesa.store Scenario.completed_once = [VStr "ABC123"]
  ∧ last (Mpesa.trace (Mpesa.callback (H := Scenario.plain) Scenario.pushed Scenario.paid
                         (Scenario.later "2024-03-01 10:01:00")))
    = Some (Mpesa.Emit "admin-room" "sale-completed"
              (VObj [("branch", VStr "Nairobi"); ("product", VStr "Coke");
                     ("quantity", VNum 1); ("total_amount", VNum 50);
                     ("paymentMethod", VStr "mpesa"); ("mpesaReceipt", VStr "ABC123")])).
Proof. split_and!; reflexivity. Qed.

(** * Further properties of the router *)

(** ** Normalised phones and timestamps *)

Section StringFacts.

Lemma append_cons (c : ascii) (a b : string) :
  String c a +:+ b = String c (a +:+ b).
Proof. reflexivity. Qed.

Lemma append_empty (b : string) : "" +:+ b = b.
Proof. reflexivity. Qed.

Lemma strip_append (a b : string) :
  strip_non_digits (a +:+ b) = strip_non_digits a +:+ strip_non_digits b.
Proof.
  induction a as [|c a IH]; [done|].
  rewrite append_cons. cbn [strip_non_digits].
  destruct (is_digit c); [by rewrite append_cons, IH|exact IH].
Qed.

Lemma all_digits_append (a b : string) :
  all_digits a = true → all_digits b = true → all_digits (a +:+ b) = true.
Proof.
  induction a as [|c a IH]; [done|]. rewrite append_cons. cbn [all_digits].
  intros [Hc Ha]%andb_true_iff Hb. by rewrite Hc, IH.
Qed.

Lemma length_append (a b : string) :
  String.length (a +:+ b) = (String.length a + String.length b)%nat.
Proof.
  induction a as [|c a IH]; [done|]. rewrite append_cons. cbn [String.length Nat.add].
  by rewrite IH.
Qed.

Lemma append_assoc (a b c : string) : (a +:+ b) +:+ c = a +:+ b +:+ c.
Proof. induction a as [|x a IH]; [done|]. by rewrite !append_cons, IH. Qed.

Lemma substring_append_left (a b : string) :
  String.substring 0 (String.length a) (a +:+ b) = a.
Proof.
  induction a as [|c a IH]; [by destruct b|].
  rewrite append_cons. cbn [String.length String.substring]. by rewrite IH.
Qed.

Lemma substring_all_digits (n : nat) (s : string) :
  all_digits s = true → all_digits (String.substring 0 n s) = true.
Proof.
  revert n. induction s as [|c s IH]; intros [|n]; try done.
  cbn [all_digits String.substring]. intros [Hc Hs]%andb_true_iff.
  by rewrite Hc, IH.
Qed.

Lemma substring_length_le (n : nat) (s : string) :
  (String.length (String.substring 0 n s) ≤ n)%nat.
Proof.
  revert n. induction s as [|c s IH]; intros [|n]; cbn [String.substring String.length];
    try lia.
  specialize (IH n). lia.
Qed.

(** The normalised phone is [254] followed by digits. *)
Lemma format_shape (phone : string) :
  ∃ d, Phone.format phone = "254" +:+ d ∧ all_digits d = true.
Proof.
  unfold Phone.format.
  pose proof (strip_is_digits phone) as Hd.
  destruct (startsWith (strip_non_digits phone) "0") eqn:H0.
  - apply startsWith_cons in H0 as (d & Heq & _). rewrite Heq in *.
    apply all_digits_cons in Hd. rewrite substring_from_tail. eauto.
  - destruct (startsWith (strip_non_digits phone) "254") eqn:H254; cbn [negb]; [|eauto].
    apply startsWith_cons in H254 as (d1 & Heq1 & H254).
    apply startsWith_cons in H254 as (d2 & Heq2 & H254).
    apply startsWith_cons in H254 as (d3 & Heq3 & _).
    rewrite Heq1, Heq2, Heq3 in *.
    do 3 apply all_digits_cons in Hd. exists d3. by rewrite prepend_254.
Qed.

End StringFacts.

(** X1. Whatever string is given as phone, its normalised form starts with
    [254] and consists of digits only, and normalising it again changes
    nothing. *)
Theorem format_normal_form (phone : string) :
  startsWith (Phone.format phone) "254" = true
  ∧ all_digits (Phone.format phone) = true
  ∧ Phone.format (Phone.format phone) = Phone.format phone.
Proof.
  destruct (format_shape phone) as (d & -> & Hd). split_and!.
  - rewrite prepend_254. unfold startsWith. cbn. apply prefix_empty.
  - rewrite prepend_254. cbn. exact Hd.
  - by apply format_prefixed_form.
Qed.

(** X2. [generateMpesaPassword] always yields a timestamp of at most 14
    characters, all digits; when the clock string has the ISO shape
    [YYYY-MM-DDTHH:mm:ss.sssZ] the timestamp is exactly the 14 digits
    [YYYYMMDDHHmmss], the milliseconds being cut off, and the password is
    the encoding of shortcode, passkey and that timestamp. *)
Theorem password_timestamp {P : Platform} (env : gmap string string) (w : Mpesa.world) :
  let timestamp := (Mpesa.generateMpesaPassword env w).2 in
  (String.length timestamp ≤ 14)%nat
  ∧ all_digits timestamp = true
  ∧ (Mpesa.generateMpesaPassword env w).1
    = base64 (to_string (Config.shortcode (Config.MPESA_CONFIG env))
              +:+ to_string (Config.passkey (Config.MPESA_CONFIG env)) +:+ timestamp)
  ∧ ∀ Y M D h m s ms,
      Shape.digits 4 Y → Shape.digits 2 M → Shape.digits 2 D →
      Shape.digits 2 h → Shape.digits 2 m → Shape.digits 2 s → Shape.digits 3 ms →
      Mpesa.iso_time w = Shape.iso Y M D h m s ms →
      timestamp = Y +:+ M +:+ D +:+ h +:+ m +:+ s ∧ String.length timestamp = 14%nat.
Proof.
  cbn zeta. unfold Mpesa.generateMpesaPassword. cbn [fst snd]. split_and!.
  - apply substring_length_le.
  - apply substring_all_digits, strip_is_digits.
  - reflexivity.
  - intros Y M D h m s ms [LY HY] [LM HM] [LD HD] [Lh Hh] [Lm Hm] [Ls Hs] [Lms Hms] ->.
    unfold Shape.iso. rewrite !strip_append.
    rewrite !(strip_digits_only _ HY), !(strip_digits_only _ HM), !(strip_digits_only _ HD),
      !(strip_digits_only _ Hh), !(strip_digits_only _ Hm), !(strip_digits_only _ Hs),
      !(strip_digits_only _ Hms).
    change (strip_non_digits "-") with "". change (strip_non_digits "T") with "".
    change (strip_non_digits ":") with "". change (strip_non_digits ".") with "".
    change (strip_non_digits "Z") with "". rewrite !append_empty.
    assert (Hlen : String.length (Y +:+ M +:+ D +:+ h +:+ m +:+ s) = 14%nat)
      by (rewrite !length_append; lia).
    assert (Heq : String.substring 0 14 (Y +:+ M +:+ D +:+ h +:+ m +:+ s +:+ ms +:+ "")
                  = Y +:+ M +:+ D +:+ h +:+ m +:+ s).
    { rewrite <- Hlen at 1.
      replace (Y +:+ M +:+ D +:+ h +:+ m +:+ s +:+ ms +:+ "")
        with ((Y +:+ M +:+ D +:+ h +:+ m +:+ s) +:+ ms +:+ "")
        by (by rewrite !append_assoc).
      apply substring_append_left. }
    by rewrite Heq.
Qed.

(** The clock of the scenario. *)
Lemma password_timestamp_witness :
  (Mpesa.generateMpesaPassword (H := Scenario.plain) Scenario.configured
     Scenario.at_push).2 = "20240301100000".
Proof.
  destruct (password_timestamp (P := Scenario.plain) Scenario.configured Scenario.at_push)
    as (_ & _ & _ & Hiso).
  exact (proj1 (Hiso "2024" "03" "01" "10" "00" "00" "000"
                  (conj eq_refl eq_refl) (conj eq_refl eq_refl) (conj eq_refl eq_refl)
                  (conj eq_refl eq_refl) (conj eq_refl eq_refl) (conj eq_refl eq_refl)
                  (conj eq_refl eq_refl) eq_refl)).
Defined.

Section MaskFacts.

Lemma canonical_chars (phone : string) :
  Phone.canonical phone = true →
  ∃ c1 c2 c3 c4 c5 c6 c7 c8 c9,
    phone = String "2" (String "5" (String "4" (String c1 (String c2 (String c3
              (String c4 (String c5 (String c6 (String c7 (String c8
                (String c9 ""))))))))))).
Proof.
  intros (x & -> & Hlen & _)%canonical_inv.
  do 9 (destruct x as [|? x]; [discriminate Hlen|]).
  destruct x; [|discriminate Hlen]. rewrite prepend_254. eauto 10.
Qed.

End MaskFacts.

(** X3. The masked form of a stored (canonical) phone number has 12
    characters and shows nothing but the first six and the last two digits:
    two canonical numbers have the same masked form exactly when they agree
    on these eight digits, whatever their four middle digits are. *)
Theorem mask_shows_only_ends (p q : string) :
  Phone.canonical p = true → Phone.canonical q = true →
  String.length (Phone.mask p) = 12%nat
  ∧ (Phone.mask p = Phone.mask q
     ↔ String.substring 0 6 p = String.substring 0 6 q
       ∧ String.substring 10 2 p = String.substring 10 2 q).
Proof.
  intros (a1&a2&a3&a4&a5&a6&a7&a8&a9&->)%canonical_chars
         (b1&b2&b3&b4&b5&b6&b7&b8&b9&->)%canonical_chars.
  rewrite !mask_is_masked. unfold Spec.masked.
  cbn [String.length String.substring Nat.sub].
  rewrite !append_cons, !append_empty. cbn [String.length].
  split; [reflexivity|].
  split; [intros Heq; by simplify_eq|intros [H6 H2]; by simplify_eq].
Qed.

(** Two numbers that differ in the middle digits only. *)
Lemma mask_shows_only_ends_witness :
  Phone.mask "254712345678" = Phone.mask "254712999978".
Proof.
  exact (proj2 (proj2 (mask_shows_only_ends "254712345678" "254712999978"
                         eq_refl eq_refl)) (conj eq_refl eq_refl)).
Defined.

(** ** Configuration and token state *)

Section ConfigFacts.
Context (env : gmap string string).
Import Config.

Lemma valid_iff_clean :
  valid (validateEnvVariables env) = true
  ↔ missing (validateEnvVariables env) = [] ∧ warnings (validateEnvVariables env) = [].
Proof.
  unfold validateEnvVariables. cbn [valid missing warnings].
  destruct (List.filter _ required) as [|x m];
    destruct (_ ++ _) as [|y wn]; cbn; split; try done; intros [? ?]; done.
Qed.

Lemma gates_agree :
  valid (validateEnvVariables env) = hasValidCredentials (validateEnvVariables env).
Proof.
  unfold validateEnvVariables. cbn [valid hasValidCredentials].
  by destruct (List.filter _ required) as [|x m]; destruct (_ ++ _) as [|y wn].
Qed.

Lemma placeholder_test name placeholder :
  truthy (env_get env name) = true →
  strict_eq_str (env_get env name) placeholder = false ↔ env !! name ≠ Some placeholder.
Proof.
  unfold env_get. destruct (env !! name) as [s|]; [|done]. intros _. cbn.
  rewrite String.eqb_neq. split; [congruence|]. intros H ->. by apply H.
Qed.

Lemma warnings_empty :
  warnings (validateEnvVariables env) = []
  ↔ (truthy (env_get env "MPESA_CONSUMER_KEY") = true
     ∧ env !! "MPESA_CONSUMER_KEY" ≠ Some "your_consumer_key_here")
    ∧ (truthy (env_get env "MPESA_PASSKEY") = true
       ∧ env !! "MPESA_PASSKEY" ≠ Some "your_passkey_here").
Proof.
  unfold validateEnvVariables. cbn [warnings].
  assert (Hnil : ∀ (a b : bool) (x y : string),
            (if a then [x] else []) ++ (if b then [y] else []) = [] ↔ a = false ∧ b = false)
    by (intros [] [] ? ?; cbn; split; try done; intros [? ?]; done).
  rewrite Hnil, !orb_false_iff, !negb_false_iff.
  split; intros [[Hk Hkp] [Hp Hpp]]; (split; (split; [done|])).
  - by apply (placeholder_test _ _ Hk).
  - by apply (placeholder_test _ _ Hp).
  - by apply (placeholder_test _ _ Hk).
  - by apply (placeholder_test _ _ Hp).
Qed.

Lemma missing_empty :
  missing (validateEnvVariables env) = []
  ↔ ∀ name, name ∈ required → truthy (env_get env name) = true.
Proof.
  split.
  - intros Hnil name Hname. destruct (truthy (env_get env name)) eqn:Hset; [done|].
    assert (Hin : name ∈ missing (validateEnvVariables env)) by by apply missing_spec.
    rewrite Hnil in Hin. by apply elem_of_nil in Hin.
  - intros Hall. destruct (missing (validateEnvVariables env)) as [|name rest] eqn:Hm; [done|].
    assert (Hin : name ∈ missing (validateEnvVariables env)) by (rewrite Hm; left).
    apply missing_spec in Hin as [Hreq Hunset]. rewrite (Hall name Hreq) in Hunset. done.
Qed.

End ConfigFacts.

(** X4. The configuration is reported valid exactly when all five required
    variables are set to a non-empty value and neither the consumer key nor
    the passkey still holds its placeholder. The two flags the routes gate
    on, [valid] ([/stkpush], [/stkquery]) and [hasValidCredentials]
    ([/test-connection]), are always equal, and [/config-status] reports
    them with the list of missing variables and without any network call. *)
Theorem configuration_valid_iff (env : gmap string string) (st : Mpesa.state) :
  let c := Config.validateEnvVariables env in
  Config.valid c = Config.hasValidCredentials c
  ∧ (Config.valid c = true
     ↔ (∀ name, name ∈ Config.required → truthy (Config.env_get env name) = true)
       ∧ env !! "MPESA_CONSUMER_KEY" ≠ Some "your_consumer_key_here"
       ∧ env !! "MPESA_PASSKEY" ≠ Some "your_passkey_here")
  ∧ ∃ j, Status.config_status_route env st
         = {| Mpesa.sent := Ok {| Mpesa.code := 200; Mpesa.json := j |};
              Mpesa.after := st; Mpesa.trace := [] |}
         ∧ prop j "configured" = VBool (Config.valid c)
         ∧ prop j "hasCredentials" = VBool (Config.valid c)
         ∧ prop j "missingVariables" = Config.strings (Config.missing c).
Proof.
  cbn zeta. split_and!.
  - apply gates_agree.
  - rewrite valid_iff_clean, missing_empty, warnings_empty. split.
    + intros (Hall & (_ & Hk) & (_ & Hp)). done.
    + intros (Hall & Hk & Hp). split_and!; try done; apply Hall; unfold Config.required;
        repeat constructor.
  - eexists. split; [reflexivity|]. split_and!; [reflexivity| |reflexivity].
    change (VBool (Config.hasValidCredentials (Config.validateEnvVariables env))
            = VBool (Config.valid (Config.validateEnvVariables env))).
    by rewrite gates_agree.
Qed.

Section TokenState.
Context {P : Platform} (env : gmap string string).
Import Config Store Mpesa.

Lemma getAccessToken_throws st w e st' tr :
  getAccessToken env st w = (Throw e, st', tr) →
  st' = st ∧ cache_valid st (now_check w) = false.
Proof.
  unfold getAccessToken. destruct (cache_valid st (now_check w)); [done|].
  intros Hcall. split; [|done]. repeat case_match; by simplify_eq.
Qed.

End TokenState.

(** X5. A call of [getAccessToken] that fails leaves the token cache (and
    the rest of the server state) exactly as it was. With the consumer key
    or the consumer secret unset and no valid cached token, it fails without
    any network request, logs the three lines of its [catch] block and
    nothing else, and what it throws is the generic
    ["Failed to get M-Pesa access token: "] error wrapped around
    ["M-Pesa credentials not configured"]. *)
Theorem token_failure_keeps_cache {P : Platform} (env : gmap string string) :
  (∀ st w e st' tr,
     Mpesa.getAccessToken env st w = (Throw e, st', tr) → st' = st)
  ∧ (∀ st w,
       Mpesa.cache_valid st (Mpesa.now_check w) = false →
       truthy (Config.consumerKey (Config.MPESA_CONFIG env)) = false
       ∨ truthy (Config.consumerSecret (Config.MPESA_CONFIG env)) = false →
       Mpesa.getAccessToken env st w
       = (Throw (Error "Failed to get M-Pesa access token: M-Pesa credentials not configured"),
          st, [Mpesa.ConsoleError "Error getting M-Pesa access token:";
               Mpesa.ConsoleError "  Response:";
               Mpesa.ConsoleError "  Status:"])).
Proof.
  split.
  - intros st w e st' tr Hcall. by apply getAccessToken_throws in Hcall as [? _].
  - intros st w Hmiss Hcreds. unfold Mpesa.getAccessToken. rewrite Hmiss.
    destruct Hcreds as [-> | ->]; [reflexivity|].
    by destruct (truthy (Config.consumerKey (Config.MPESA_CONFIG env))).
Qed.

(** No consumer secret in the environment, nothing cached. *)
Lemma token_failure_keeps_cache_witness :
  (Mpesa.getAccessToken (H := Scenario.plain) Scenario.unconfigured Mpesa.initial
     Scenario.at_push).1.2 = Mpesa.initial
  ∧ (Mpesa.getAccessToken (H := Scenario.plain) Scenario.unconfigured Mpesa.initial
       Scenario.at_push).2
    = [Mpesa.ConsoleError "Error getting M-Pesa access token:";
       Mpesa.ConsoleError "  Response:";
       Mpesa.ConsoleError "  Status:"].
Proof.
  destruct (token_failure_keeps_cache (P := Scenario.plain) Scenario.unconfigured)
    as [_ Hmissing].
  by rewrite (Hmissing Mpesa.initial Scenario.at_push eq_refl (or_intror eq_refl)).
Defined.

(** X6. [/token-status] changes nothing and calls nobody, and it reports a
    token that is present and not expired exactly when [getAccessToken],
    called at the same clock reading, would answer from its cache without
    a network request. *)
Theorem token_status_agrees_with_cache {P : Platform} (env : gmap string string)
    (st : Mpesa.state) (w : Mpesa.world) (now_expires : Z) :
  ∃ j, Status.token_status st now_expires (Mpesa.now_check w)
       = {| Mpesa.sent := Ok {| Mpesa.code := 200; Mpesa.json := j |};
            Mpesa.after := st; Mpesa.trace := [] |}
       ∧ ((prop j "hasToken" = VBool true ∧ prop j "isExpired" = VBool false)
          ↔ Mpesa.cache_valid st (Mpesa.now_check w) = true)
       ∧ (prop j "hasToken" = VBool true → prop j "isExpired" = VBool false →
          Mpesa.getAccessToken env st w = (Ok (Mpesa.accessToken st), st, [])).
Proof.
  eexists. split; [reflexivity|].
  assert (Hiff : (VBool (truthy (Mpesa.accessToken st)) = VBool true
                  ∧ VBool (match Mpesa.tokenExpiry st with
                           | Some e => if e =? 0 then true else Mpesa.now_check w >=? e
                           | None => true
                           end) = VBool false)
                 ↔ Mpesa.cache_valid st (Mpesa.now_check w) = true).
  { unfold Mpesa.cache_valid, Mpesa.expiry_truthy, Mpesa.before_expiry.
    destruct (truthy (Mpesa.accessToken st)); cbn [andb];
      [|split; [intros [? _]; done|done]].
    destruct (Mpesa.tokenExpiry st) as [e|]; [|split; [intros [_ ?]; done|done]].
    destruct (e =? 0); cbn [negb andb]; [split; [intros [_ ?]; done|done]|].
    rewrite Z.geb_leb.
    destruct (Z.leb_spec e (Mpesa.now_check w)), (Z.ltb_spec (Mpesa.now_check w) e);
      try lia; split; try done; intros [_ ?]; done. }
  cbn. split; [exact Hiff|].
  intros Htoken Hexpired. apply getAccessToken_hit. by apply Hiff.
Qed.

(** A minute after the push of the scenario. *)
Lemma token_status_agrees_with_cache_witness :
  Mpesa.getAccessToken (H := Scenario.plain) Scenario.configured Scenario.pushed
    (Scenario.later "2024-03-01 10:01:00")
  = (Ok (VStr "tok-1"), Scenario.pushed, []).
Proof.
  destruct (token_status_agrees_with_cache (P := Scenario.plain) Scenario.configured
              Scenario.pushed (Scenario.later "2024-03-01 10:01:00") 0)
    as (j & Hj & _ & Hserve).
  injection Hj as <-.
  exact (Hserve eq_refl eq_refl).
Defined.

(** ** Initiation: what is sent, what is stored *)

Section PushFacts.
Context {P : Platform} (env : gmap string string).
Import Config Store Mpesa.

Lemma getAccessToken_no_post st w url authorization payload :
  HttpPost url authorization payload ∉ (getAccessToken env st w).2.
Proof.
  unfold getAccessToken, token_failure_log.
  repeat case_match; simplify_eq; cbn [snd]; intros Hin;
    rewrite ?elem_of_app, ?elem_of_cons, ?elem_of_nil in Hin;
    destruct_or?; by simplify_eq.
Qed.


Lemma existsb_eqb_false {A} (f : A → string) (m : string) (l : list A) :
  existsb (λ r, String.eqb (f r) m) l = false → m ∉ (f <$> l).
Proof.
  induction l as [|x l IH]; cbn; [intros _; apply not_elem_of_nil|].
  intros [Hx Hl]%orb_false_iff. apply not_elem_of_cons. split; [|by apply IH].
  apply String.eqb_neq in Hx. congruence.
Qed.

(** An [INSERT] either fails and changes nothing, or appends one pending
    row with fresh keys. *)
Lemma insert_pending_new now mid cid formattedPhone a b pr rows :
  insert_pending now mid cid formattedPhone a b pr rows = rows
  ∨ ∃ r, insert_pending now mid cid formattedPhone a b pr rows = rows ++ [r]
         ∧ status r = pending ∧ phone r = formattedPhone
         ∧ amount r = a ∧ created_at r = now
         ∧ id r = next_id rows
         ∧ to_text mid = Some (merchant_request_id r)
         ∧ to_text cid = Some (checkout_request_id r)
         ∧ (merchant_request_id r ∉ (merchant_request_id <$> rows))
         ∧ (checkout_request_id r ∉ (checkout_request_id <$> rows)).
Proof.
  unfold insert_pending. repeat case_match; auto.
  right. eexists. split; [reflexivity|]. cbn.
  split_and!; try done; by apply existsb_eqb_false.
Qed.

Lemma stkpush_row st body w :
  store (after (stkpush env st body w)) = store st
  ∨ ∃ data r,
      api_reply w = Resolved data
      ∧ store (after (stkpush env st body w)) = store st ++ [r]
      ∧ status r = pending
      ∧ Phone.canonical (phone r) = true
      ∧ to_text (prop data "MerchantRequestID") = Some (merchant_request_id r)
      ∧ to_text (prop data "CheckoutRequestID") = Some (checkout_request_id r)
      ∧ id r = next_id (store st)
      ∧ (merchant_request_id r ∉ (merchant_request_id <$> store st))
      ∧ (checkout_request_id r ∉ (checkout_request_id <$> store st))
      ∧ ∃ j, sent (stkpush env st body w) = Ok {| code := 200; json := j |}
             ∧ prop (prop j "data") "merchantRequestID" = prop data "MerchantRequestID".
Proof.
  pose proof (getAccessToken_store env st w) as Hst.
  unfold stkpush, stkpush_failed.
  destruct (getAccessToken env st w) as [[token st1] tr1]. cbn [fst snd] in Hst.
  repeat case_match; cbn [after store sent]; rewrite ?Hst; try (by left); simplify_eq.
  all: match goal with H : get _ "MerchantRequestID" = Ok _ |- _ =>
         unfold get in H; case_match; simplify_eq end.
  all: match goal with |- context [insert_pending ?now ?mid ?cid ?p ?a ?b ?pr ?rows] =>
         destruct (insert_pending_new now mid cid p a b pr rows)
           as [->|(r & -> & Hpending & Hphone & _ & _ & Hid & Hmid & Hcid & Hfm & Hfc)];
           [by left|]; right; exists data, r
       end.
  all: split_and!; try done.
  all: try (rewrite Hphone; by apply negb_false_iff).
  all: eexists; split; reflexivity.
Qed.



End PushFacts.

(** X7. [POST /stkpush] posts to nothing but the STK Push URL, only with a
    valid configuration, and the number it hands to the provider, as
    [PartyA] and as [PhoneNumber], is always the normalised form of the
    phone in the request and always [254] followed by nine digits. *)
Theorem stkpush_posts_canonical_phone {P : Platform} (env : gmap string string)
    (st : Mpesa.state) (body : value) (w : Mpesa.world)
    (url authorization : string) (payload : value) :
  Mpesa.HttpPost url authorization payload ∈ Mpesa.trace (Mpesa.stkpush env st body w) →
  Config.valid (Config.validateEnvVariables env) = true
  ∧ url = Config.stkPushUrl (Config.MPESA_CONFIG env)
  ∧ ∃ phone, prop body "phone" = VStr phone
             ∧ Phone.canonical (Phone.format phone) = true
             ∧ prop payload "PartyA" = VStr (Phone.format phone)
             ∧ prop payload "PhoneNumber" = VStr (Phone.format phone).
Proof.
  pose proof (getAccessToken_no_post env st w) as Hno.
  unfold Mpesa.stkpush, Mpesa.stkpush_failed.
  destruct (Mpesa.getAccessToken env st w) as [[token st1] tr1]. cbn [snd] in Hno.
  repeat case_match; simplify_eq; cbn [Mpesa.trace]; intros Hin;
    rewrite ?elem_of_app, ?elem_of_cons, ?elem_of_nil in Hin;
    destruct_or?; simplify_eq; try done; try (by exfalso; eapply Hno).
  all: match goal with H : get _ "phone" = Ok _ |- _ =>
         unfold get in H; case_match; simplify_eq end.
  all: split_and!; [by apply negb_false_iff|done|].
  all: eexists; split_and!; [done|by apply negb_false_iff|done|done].
Qed.

(** The push of the scenario: the provider is given [254712345678]. *)
Lemma stkpush_posts_canonical_phone_witness :
  ∃ payload,
    Mpesa.trace (Mpesa.stkpush (H := Scenario.plain) Scenario.configured Mpesa.initial
                   (Scenario.push_body "0712345678") Scenario.at_push) !! 1%nat
    = Some (Mpesa.HttpPost "https://sandbox.safaricom.co.ke/mpesa/stkpush/v1/processrequest"
              "Bearer tok-1" payload)
    ∧ prop payload "PartyA" = VStr "254712345678".
Proof.
  eexists. split; [reflexivity|].
  match goal with |- prop ?payload _ = _ =>
    destruct (stkpush_posts_canonical_phone (P := Scenario.plain) Scenario.configured
                Mpesa.initial (Scenario.push_body "0712345678") Scenario.at_push
                "https://sandbox.safaricom.co.ke/mpesa/stkpush/v1/processrequest"
                "Bearer tok-1" payload)
      as (_ & _ & phone & Hphone & _ & HpartyA & _)
  end.
  - apply list_elem_of_lookup. exists 1%nat. reflexivity.
  - injection Hphone as <-. exact HpartyA.
Defined.

(** X8. [POST /stkpush] leaves the table as it is unless the provider
    accepted the push; then it appends exactly one row, which is
    [pending], holds a canonical phone, carries the provider's
    [MerchantRequestID] and [CheckoutRequestID] (both new to the table) and
    a new [id], and the reply is the 200 success naming that
    [MerchantRequestID]. *)
Theorem stkpush_row_needs_acceptance {P : Platform} (env : gmap string string)
    (st : Mpesa.state) (body : value) (w : Mpesa.world) :
  let o := Mpesa.stkpush env st body w in
  Mpesa.store (Mpesa.after o) = Mpesa.store st
  ∨ ∃ data r,
      Mpesa.api_reply w = Mpesa.Resolved data
      ∧ Mpesa.store (Mpesa.after o) = Mpesa.store st ++ [r]
      ∧ Store.status r = Store.pending
      ∧ Phone.canonical (Store.phone r) = true
      ∧ to_text (prop data "MerchantRequestID") = Some (Store.merchant_request_id r)
      ∧ to_text (prop data "CheckoutRequestID") = Some (Store.checkout_request_id r)
      ∧ Store.id r = Store.next_id (Mpesa.store st)
      ∧ (Store.merchant_request_id r ∉ (Store.merchant_request_id <$> Mpesa.store st))
      ∧ (Store.checkout_request_id r ∉ (Store.checkout_request_id <$> Mpesa.store st))
      ∧ ∃ j, Mpesa.sent o = Ok {| Mpesa.code := 200; Mpesa.json := j |}
             ∧ prop (prop j "data") "merchantRequestID" = prop data "MerchantRequestID".
Proof. apply stkpush_row. Qed.



(** X10. With a valid configuration, a request to [POST /stkpush] whose
    phone or amount is missing or falsy (an amount of 0 included) gets the
    400 ["Phone and amount are required"]; a phone that is given but is not
    a string makes the handler throw before it replies. Neither makes a
    network call or touches the server state. *)
Theorem stkpush_required_fields {P : Platform} (env : gmap string string)
    (st : Mpesa.state) (body : value) (w : Mpesa.world) :
  Config.valid (Config.validateEnvVariables env) = true →
  nullish body = false →
  let o := Mpesa.stkpush env st body w in
  (truthy (prop body "phone") = false ∨ truthy (prop body "amount") = false →
   o = {| Mpesa.sent := Ok {| Mpesa.code := 400;
                              Mpesa.json := VObj [("error", VStr "Phone and amount are required")] |};
          Mpesa.after := st; Mpesa.trace := [] |})
  ∧ (truthy (prop body "phone") = true → truthy (prop body "amount") = true →
     (∀ s, prop body "phone" ≠ VStr s) →
     ∃ e, o = {| Mpesa.sent := Throw e; Mpesa.after := st; Mpesa.trace := [] |}).
Proof.
  intros Hvalid Hbody. cbn zeta. unfold Mpesa.stkpush, get.
  rewrite Hvalid, Hbody. cbn [negb]. split.
  - intros [-> | ->]; [done|]. by rewrite orb_true_r.
  - intros -> -> Hnot. cbn [negb orb].
    destruct (prop body "phone") as [| |b|n|s| |]; try (eexists; reflexivity).
    by destruct (Hnot s).
Qed.

(** An amount of 0, and a phone sent as a number. *)
Lemma stkpush_required_fields_witness :
  (∃ r, Mpesa.sent
          (Mpesa.stkpush (H := Scenario.plain) Scenario.configured Mpesa.initial
             (VObj [("phone", VStr "0712345678"); ("amount", VNum 0)]) Scenario.at_push)
        = Ok r ∧ Mpesa.code r = 400)
  ∧ ∃ e, Mpesa.sent
           (Mpesa.stkpush (H := Scenario.plain) Scenario.configured Mpesa.initial
              (VObj [("phone", VNum 712345678); ("amount", VNum 50)]) Scenario.at_push)
         = Throw e.
Proof.
  split.
  - destruct (stkpush_required_fields (P := Scenario.plain) Scenario.configured
                Mpesa.initial (VObj [("phone", VStr "0712345678"); ("amount", VNum 0)])
                Scenario.at_push eq_refl eq_refl) as [Hrequired _].
    rewrite (Hrequired (or_intror eq_refl)). eexists. split; reflexivity.
  - destruct (stkpush_required_fields (P := Scenario.plain) Scenario.configured
                Mpesa.initial (VObj [("phone", VNum 712345678); ("amount", VNum 50)])
                Scenario.at_push eq_refl eq_refl) as [_ Hthrows].
    destruct (Hthrows eq_refl eq_refl ltac:(discriminate)) as [e He].
    exists e. by rewrite He.
Defined.

(** ** The status query *)

Section QueryFacts.
Context {P : Platform} (env : gmap string string).
Import Config Store Mpesa.

(** The table after [POST /stkquery], whatever the reply. *)
Lemma stkquery_table st body w :
  store (after (stkquery env st body w)) = store st
  ∨ (truthy (prop body "merchantRequestID") = true
     ∧ ∃ data, api_reply w = Resolved data
               ∧ store (after (stkquery env st body w))
                 = update_from_query (sql_time w) (prop data "ResultCode")
                     (prop data "ResultDesc") (prop body "merchantRequestID") (store st)).
Proof.
  pose proof (getAccessToken_store env st w) as Hst.
  unfold stkquery, stkquery_failed.
  destruct (getAccessToken env st w) as [[token st1] tr1]. cbn [fst snd] in Hst.
  repeat case_match; cbn [after store]; rewrite ?Hst; try (by left); simplify_eq.
  all: right; split; [done|]; eexists; split; [done|].
  all: match goal with H : get _ "ResultCode" = Ok _ |- _ =>
         unfold get in H; case_match; simplify_eq end.
  all: done.
Qed.

(** A 200 from [POST /stkquery]: what it says and what was written. *)
Lemma stkquery_success st body w j :
  sent (stkquery env st body w) = Ok {| code := 200; json := j |} →
  ∃ data,
    api_reply w = Resolved data
    ∧ prop (prop j "data") "resultCode" = prop data "ResultCode"
    ∧ prop (prop j "data") "status"
      = VStr (match query_status (prop data "ResultCode") with
              | completed => "success"
              | _ => "failed"
              end)
    ∧ store (after (stkquery env st body w))
      = if truthy (prop body "merchantRequestID") then
          update_from_query (sql_time w) (prop data "ResultCode")
            (prop data "ResultDesc") (prop body "merchantRequestID") (store st)
        else store st.
Proof.
  pose proof (getAccessToken_store env st w) as Hst.
  unfold stkquery, stkquery_failed.
  destruct (getAccessToken env st w) as [[token st1] tr1]. cbn [fst snd] in Hst.
  repeat case_match; cbn [sent after store]; rewrite ?Hst; intros Hsent;
    try discriminate Hsent;
    try (unfold get in Hsent; cbn in Hsent; repeat case_match; discriminate Hsent).
  all: injection Hsent as <-.
  all: match goal with H : get _ "ResultCode" = Ok _ |- _ =>
         unfold get in H; case_match; simplify_eq end.
  all: eexists; split; [done|].
  all: unfold query_status; cbn.
  all: repeat case_match; simplify_eq; done.
Qed.

End QueryFacts.

(** X11. A status query that names no merchant request, and so every
    query the browser client sends (its body is [{ checkoutRequestID }]
    only), never changes the transaction table, whatever the provider
    answers. A query without [checkoutRequestID] is refused with a 400
    before any network call. *)
Theorem stkquery_without_merchant_id {P : Platform} (env : gmap string string)
    (st : Mpesa.state) (w : Mpesa.world) :
  (∀ body, truthy (prop body "merchantRequestID") = false →
           Mpesa.store (Mpesa.after (Mpesa.stkquery env st body w)) = Mpesa.store st)
  ∧ (∀ checkoutRequestID,
       Mpesa.store (Mpesa.after (Mpesa.stkquery env st (Client.stkQuery checkoutRequestID) w))
       = Mpesa.store st)
  ∧ (∀ body,
       Config.valid (Config.validateEnvVariables env) = true →
       nullish body = false →
       truthy (prop body "checkoutRequestID") = false →
       Mpesa.stkquery env st body w
       = {| Mpesa.sent := Ok {| Mpesa.code := 400;
                                Mpesa.json := VObj [("error", VStr "CheckoutRequestID is required")] |};
            Mpesa.after := st; Mpesa.trace := [] |}).
Proof.
  assert (Hnone : ∀ body, truthy (prop body "merchantRequestID") = false →
            Mpesa.store (Mpesa.after (Mpesa.stkquery env st body w)) = Mpesa.store st).
  { intros body Hmid.
    destruct (stkquery_table env st body w) as [Hsame|[Htruthy _]]; [done|congruence]. }
  split_and!; [exact Hnone|intros v; by apply Hnone|].
  intros body Hvalid Hbody Hid. unfold Mpesa.stkquery, get.
  by rewrite Hvalid, Hbody, Hid.
Qed.

(** The client polls for the push of the scenario and the provider reports
    success: the stored row stays [pending]. *)
Lemma stkquery_without_merchant_id_witness :
  let answered :=
    {| Mpesa.iso_time := "2024-03-01T10:01:00.000Z";
       Mpesa.now_check := 1709287260000;
       Mpesa.now_reply := 1709287260250;
       Mpesa.now_report := 1709287260300;
       Mpesa.sql_time := "2024-03-01 10:01:00";
       Mpesa.auth_reply := Mpesa.Rejected (Error "unused");
       Mpesa.api_reply := Mpesa.Resolved (VObj [("ResultCode", VNum 0);
                                               ("ResultDesc", VStr "processed")]) |} in
  Store.status <$> Mpesa.store
    (Mpesa.after (Mpesa.stkquery (H := Scenario.plain) Scenario.configured Scenario.pushed
                    (Client.stkQuery (VStr "ws_CO_1")) answered))
  = [Store.pending].
Proof.
  intros answered.
  destruct (stkquery_without_merchant_id (P := Scenario.plain) Scenario.configured
              Scenario.pushed answered) as (_ & Hclient & _).
  by rewrite (Hclient (VStr "ws_CO_1")).
Defined.

(** X12. Whenever [POST /stkquery] replies 200, the provider answered, the
    reply repeats the provider's result code, and its [status] is
    ["success"] exactly when that code maps to [completed]; the table is
    then the result of the query's [UPDATE] with that same code when the
    request named a merchant request, and unchanged otherwise. So the
    status told to the caller and the status written never differ. *)
Theorem stkquery_reply_matches_table {P : Platform} (env : gmap string string)
    (st : Mpesa.state) (body : value) (w : Mpesa.world) (j : value) :
  Mpesa.sent (Mpesa.stkquery env st body w) = Ok {| Mpesa.code := 200; Mpesa.json := j |} →
  ∃ data,
    Mpesa.api_reply w = Mpesa.Resolved data
    ∧ prop (prop j "data") "resultCode" = prop data "ResultCode"
    ∧ prop (prop j "data") "status"
      = VStr (match Store.query_status (prop data "ResultCode") with
              | Store.completed => "success"
              | _ => "failed"
              end)
    ∧ Mpesa.store (Mpesa.after (Mpesa.stkquery env st body w))
      = if truthy (prop body "merchantRequestID") then
          Store.update_from_query (Mpesa.sql_time w) (prop data "ResultCode")
            (prop data "ResultDesc") (prop body "merchantRequestID") (Mpesa.store st)
        else Mpesa.store st.
Proof. apply stkquery_success. Qed.

(** A poll that names [m-1] while the provider reports a cancellation. *)
Lemma stkquery_reply_matches_table_witness :
  let answered :=
    {| Mpesa.iso_time := "2024-03-01T10:01:00.000Z";
       Mpesa.now_check := 1709287260000;
       Mpesa.now_reply := 1709287260250;
       Mpesa.now_report := 1709287260300;
       Mpesa.sql_time := "2024-03-01 10:01:00";
       Mpesa.auth_reply := Mpesa.Rejected (Error "unused");
       Mpesa.api_reply := Mpesa.Resolved (VObj [("ResultCode", VNum 1032);
                                               ("ResultDesc", VStr "cancelled by user")]) |} in
  let o := Mpesa.stkquery (H := Scenario.plain) Scenario.configured Scenario.pushed
             (VObj [("checkoutRequestID", VStr "ws_CO_1");
                    ("merchantRequestID", VStr "m-1")]) answered in
  ∃ j, Mpesa.sent o = Ok {| Mpesa.code := 200; Mpesa.json := j |}
       ∧ prop (prop j "data") "status" = VStr "failed"
       ∧ Store.status <$> Mpesa.store (Mpesa.after o) = [Store.failed].
Proof.
  intros answered o. eexists. split; [reflexivity|].
  match goal with |- prop (prop ?j _) _ = _ ∧ _ =>
    destruct (stkquery_reply_matches_table (P := Scenario.plain) Scenario.configured
                Scenario.pushed
                (VObj [("checkoutRequestID", VStr "ws_CO_1");
                       ("merchantRequestID", VStr "m-1")]) answered j eq_refl)
      as (data & Hdata & _ & Hstatus & Htable)
  end.
  injection Hdata as <-. split; [exact Hstatus|].
  subst o. by rewrite Htable.
Defined.

(** ** The callback: what it reads and what it emits *)

Section CallbackEvents.
Context {P : Platform}.
Import Config Store Mpesa Run.

Lemma find_by_name_readable name items :
  Forall (λ item, nullish item = false) items →
  find_by_name name items
  = Ok (match Shape.first_named name items with
        | Some item => item
        | None => VUndefined
        end).
Proof.
  induction 1 as [|item items Hitem _ IH]; [done|].
  cbn [find_by_name Shape.first_named]. unfold get. rewrite Hitem. cbn [Js.bind].
  by destruct (strict_eq_str (prop item "Name") name).
Qed.

Lemma first_named_readable name items item :
  Forall (λ item, nullish item = false) items →
  Shape.first_named name items = Some item → nullish item = false.
Proof.
  induction 1 as [|x items Hx _ IH]; [done|]. cbn [Shape.first_named].
  destruct (strict_eq_str (prop x "Name") name); [by intros [= <-]|exact IH].
Qed.

(** On readable metadata a field is the [Value] of the first item of that
    name, [undefined] when there is none. *)
Lemma find_value_readable name items :
  Forall (λ item, nullish item = false) items →
  find_value (VArr items) name
  = Ok (match Shape.first_named name items with
        | Some item => prop item "Value"
        | None => VUndefined
        end).
Proof.
  intros Hitems. unfold find_value. rewrite find_by_name_readable by done.
  cbn [Js.bind]. destruct (Shape.first_named name items) as [item|] eqn:Hfirst; [|done].
  unfold opt. by rewrite (first_named_readable name items item Hitems Hfirst).
Qed.

(** The row [db.get] finds after the [UPDATE] is the update of a matching
    row of the table before; its context columns are that row's. *)
Lemma select_after_update now rc desc receipt mid rows t :
  select_by_merchant mid (update_from_callback now rc desc receipt mid rows) = Some t →
  ∃ r, r ∈ rows ∧ matches mid r = true
       ∧ branch t = branch r ∧ product t = product r ∧ amount t = amount r.
Proof.
  unfold select_by_merchant, update_from_callback.
  induction rows as [|r rows IH]; [done|]. cbn [fmap list_fmap List.find].
  destruct (matches mid r) eqn:Hr.
  - assert (Hupdated : ∀ r', merchant_request_id r' = merchant_request_id r →
                             matches mid r' = true).
    { intros r' Hsame. unfold matches in *. by rewrite Hsame. }
    rewrite Hupdated by done. intros [= <-]. exists r. split_and!; try done. left.
  - rewrite Hr. intros Hfound. destruct (IH Hfound) as (r' & Hin & Hrest).
    exists r'. split; [by right|done].
Qed.

End CallbackEvents.

(** X13. The callback emits [sale-completed] only for a payment reported
    with result code 0 whose [MerchantRequestID] matches a stored
    transaction, only to the admin room, and the sale it announces is that
    transaction's: its branch, product and amount as stored at initiation,
    quantity 1. A failed payment or an unknown request never produces a
    sale. *)
Theorem sale_completed_only_when_paid {P : Platform}
    (st : Mpesa.state) (body : value) (w : Mpesa.world) (room : string) (payload : value) :
  Mpesa.Emit room "sale-completed" payload ∈ Mpesa.trace (Mpesa.callback st body w) →
  room = "admin-room"
  ∧ prop (Run.stkCallback_of body) "ResultCode" = VNum 0
  ∧ ∃ r receipt,
      r ∈ Mpesa.store st
      ∧ Store.matches (prop (Run.stkCallback_of body) "MerchantRequestID") r = true
      ∧ payload = Shape.sale_of r receipt.
Proof.
  unfold Mpesa.callback, get, Run.stkCallback_of.
  destruct (nullish body); [cbn; by intros ?%elem_of_nil|].
  unfold Mpesa.reconcile.
  destruct (truthy (and_then (prop body "Body") (prop (prop body "Body") "stkCallback")));
    [|cbn; by intros ?%elem_of_nil].
  destruct (find_value _ "Amount") as [amount|e]; cbn [mbind result_bind Js.bind];
    [|cbn; rewrite list_elem_of_singleton; done].
  destruct (find_value _ "MpesaReceiptNumber") as [receipt|e];
    cbn [mbind result_bind Js.bind]; [|cbn; rewrite list_elem_of_singleton; done].
  destruct (find_value _ "TransactionDate") as [date|e];
    cbn [mbind result_bind Js.bind]; [|cbn; rewrite list_elem_of_singleton; done].
  destruct (find_value _ "PhoneNumber") as [phoneNumber|e];
    cbn [mbind result_bind Js.bind]; [|cbn; rewrite list_elem_of_singleton; done].
  cbn [mret result_ret Mpesa.trace].
  rewrite elem_of_cons. intros [Hnotify|Hsale]; [discriminate Hnotify|].
  destruct (strict_eq_num _ 0) eqn:Hpaid; [|by apply elem_of_nil in Hsale].
  destruct (Store.select_by_merchant _ _) as [t|] eqn:Hfound;
    [|by apply elem_of_nil in Hsale].
  apply list_elem_of_singleton in Hsale. injection Hsale as -> ->.
  apply select_after_update in Hfound as (r & Hin & Hmatch & Hbranch & Hproduct & Hamount).
  split_and!; [done| |].
  - destruct (prop (prop (prop body "Body") "stkCallback") "ResultCode") as [| | |n| | |];
      try done. cbn in Hpaid. apply Z.eqb_eq in Hpaid. by subst n.
  - exists r, receipt. split_and!; [done|done|].
    unfold Shape.sale_of. by rewrite Hbranch, Hproduct, Hamount.
Qed.

(** The paid callback of the scenario announces the sale of the stored
    row. *)
Lemma sale_completed_only_when_paid_witness :
  ∃ r receipt,
    r ∈ Mpesa.store Scenario.pushed
    ∧ Shape.sale_of r receipt
      = VObj [("branch", VStr "Nairobi"); ("product", VStr "Coke");
              ("quantity", VNum 1); ("total_amount", VNum 50);
              ("paymentMethod", VStr "mpesa"); ("mpesaReceipt", VStr "ABC123")].
Proof.
  destruct (sale_completed_only_when_paid (P := Scenario.plain) Scenario.pushed
              Scenario.paid (Scenario.later "2024-03-01 10:01:00") "admin-room"
              (VObj [("branch", VStr "Nairobi"); ("product", VStr "Coke");
                     ("quantity", VNum 1); ("total_amount", VNum 50);
                     ("paymentMethod", VStr "mpesa"); ("mpesaReceipt", VStr "ABC123")]))
    as (_ & _ & r & receipt & Hin & _ & Hpayload).
  - apply list_elem_of_lookup. exists 1%nat. reflexivity.
  - exists r, receipt. by split.
Defined.

(** X14. A callback whose metadata is absent, or is a list without [null]
    items, is processed without any error being logged: the notification
    [mpesa-callback] goes out first, announcing ["success"] exactly when
    the status written is [completed], and the matching transaction gets
    the payload's result code and description and, as receipt, the [Value]
    of the first item named [MpesaReceiptNumber] ([undefined], stored as
    NULL, when there is none). Fields missing from the metadata are no
    error. *)
Theorem callback_reads_metadata {P : Platform}
    (st : Mpesa.state) (body : value) (w : Mpesa.world) (items : list value) :
  let cb := Run.stkCallback_of body in
  nullish body = false →
  truthy (and_then (prop body "Body") cb) = true →
  or_else (opt (prop cb "CallbackMetadata") "Item") (VArr []) = VArr items →
  Forall (λ item, nullish item = false) items →
  let o := Mpesa.callback st body w in
  let receipt := match Shape.first_named "MpesaReceiptNumber" items with
                 | Some item => prop item "Value"
                 | None => VUndefined
                 end in
  (∀ label, Mpesa.ConsoleError label ∉ Mpesa.trace o)
  ∧ (∃ payload, Mpesa.trace o !! 0%nat = Some (Mpesa.Emit "admin-room" "mpesa-callback" payload)
                ∧ prop payload "mpesaReceiptNumber" = receipt
                ∧ prop payload "status"
                  = VStr (match Store.callback_status (prop cb "ResultCode") with
                          | Store.completed => "success"
                          | _ => "failed"
                          end))
  ∧ Mpesa.store (Mpesa.after o)
    = Store.update_from_callback (Mpesa.sql_time w) (prop cb "ResultCode")
        (prop cb "ResultDesc") receipt (prop cb "MerchantRequestID") (Mpesa.store st).
Proof.
  intros cb Hbody Hcallback Hmeta Hitems o receipt. subst o cb receipt.
  unfold Mpesa.callback, get, Run.stkCallback_of in *. rewrite Hbody.
  unfold Mpesa.reconcile. rewrite Hcallback, Hmeta.
  rewrite !find_value_readable by done. cbn [mbind result_bind Js.bind mret result_ret].
  cbn [Mpesa.trace Mpesa.after Mpesa.store]. split_and!.
  - intros label Hin. rewrite elem_of_cons in Hin. destruct Hin as [Hin|Hin]; [done|].
    repeat case_match; rewrite ?list_elem_of_singleton, ?elem_of_nil in Hin; done.
  - eexists. split_and!; [reflexivity|reflexivity|].
    unfold Store.callback_status. cbn.
    by destruct (strict_eq_num _ 0).
  - done.
Qed.

(** The paid callback of the scenario carries no [TransactionDate] and no
    [PhoneNumber] item. *)
Lemma callback_reads_metadata_witness :
  Store.mpesa_receipt <$> Mpesa.store
    (Mpesa.after (Mpesa.callback (H := Scenario.plain) Scenario.pushed Scenario.paid
                    (Scenario.later "2024-03-01 10:01:00")))
  = [VStr "ABC123"].
Proof.
  destruct (callback_reads_metadata (P := Scenario.plain) Scenario.pushed Scenario.paid
              (Scenario.later "2024-03-01 10:01:00")
              [VObj [("Name", VStr "Amount"); ("Value", VNum 50)];
               VObj [("Name", VStr "MpesaReceiptNumber"); ("Value", VStr "ABC123")]]
              eq_refl eq_refl eq_refl
              ltac:(repeat constructor)) as (_ & _ & Htable).
  by rewrite Htable.
Defined.

(** ** Invariants of the transaction table *)

Section TableInvariants.
Context {P : Platform} (env : gmap string string).
Import Config Store Mpesa Run Shape.

Lemma next_id_above rows r : r ∈ rows → id r < next_id rows.
Proof.
  unfold next_id. induction rows as [|x rows IH]; [by intros ?%elem_of_nil|].
  cbn [foldr]. rewrite elem_of_cons. intros [->|Hin]; [lia|].
  specialize (IH Hin). lia.
Qed.

Lemma next_id_fresh rows : next_id rows ∉ (id <$> rows).
Proof.
  intros (r & Hid & Hin)%list_elem_of_fmap.
  pose proof (next_id_above rows r Hin). lia.
Qed.

Lemma update_from_callback_context now rc desc receipt mid rows :
  context_kept rows (update_from_callback now rc desc receipt mid rows).
Proof.
  intros i r Hr. unfold update_from_callback. rewrite list_lookup_fmap, Hr. cbn.
  eexists. split; [reflexivity|]. unfold same_context.
  destruct (matches mid r); cbn; auto 10.
Qed.

Lemma update_from_query_context now rc desc mid rows :
  context_kept rows (update_from_query now rc desc mid rows).
Proof.
  intros i r Hr. unfold update_from_query. rewrite list_lookup_fmap, Hr. cbn.
  eexists. split; [reflexivity|]. unfold same_context.
  destruct (matches mid r); cbn; auto 10.
Qed.

Lemma context_kept_refl rows : context_kept rows rows.
Proof. intros i r Hr. exists r. split; [done|]. unfold same_context. auto 10. Qed.

Lemma context_kept_trans rows1 rows2 rows3 :
  context_kept rows1 rows2 → context_kept rows2 rows3 → context_kept rows1 rows3.
Proof.
  intros H12 H23 i r1 Hr1.
  destruct (H12 i r1 Hr1) as (r2 & Hr2 & He12).
  destruct (H23 i r2 Hr2) as (r3 & Hr3 & He23).
  exists r3. split; [done|]. unfold same_context in *.
  destruct He12 as (?&?&?&?&?&?&?&?), He23 as (?&?&?&?&?&?&?&?).
  split_and!; congruence.
Qed.

Lemma context_kept_app rows r : context_kept rows (rows ++ [r]).
Proof.
  intros i r0 Hr0. exists r0. split; [by apply lookup_app_l_Some|].
  unfold same_context. auto 10.
Qed.

(** Rows whose context is kept, in a table of the same length, hold the
    same keys. *)
Lemma context_kept_keys rows rows' :
  length rows' = length rows → context_kept rows rows' →
  id <$> rows' = id <$> rows
  ∧ merchant_request_id <$> rows' = merchant_request_id <$> rows
  ∧ checkout_request_id <$> rows' = checkout_request_id <$> rows.
Proof.
  intros Hlen Hkept.
  split_and!; apply list_eq; intros i; rewrite !list_lookup_fmap;
    (destruct (rows !! i) as [r|] eqn:Hr;
     [destruct (Hkept i r Hr) as (r' & -> & (?&?&?&_)); cbn; congruence
     |apply lookup_ge_None in Hr;
      rewrite (proj2 (lookup_ge_None rows' i)) by lia; done]).
Qed.

Lemma step_table st st' :
  step env st st' →
  (store st' = store st)
  ∨ (length (store st') = length (store st) ∧ context_kept (store st) (store st'))
  ∨ (∃ body w r, st' = after (stkpush env st body w)
                 ∧ store st' = store st ++ [r]
                 ∧ id r = next_id (store st)
                 ∧ (merchant_request_id r ∉ (merchant_request_id <$> store st))
                 ∧ (checkout_request_id r ∉ (checkout_request_id <$> store st))).
Proof.
  destruct 1 as [st body w|st body w|st body w|st w|st].
  - destruct (stkpush_row env st body w)
      as [->|(data & r & _ & Hrows & _ & _ & _ & _ & Hid & Hm & Hc & _)]; [by left|].
    right; right. exists body, w, r. by rewrite Hrows.
  - destruct (stkquery_store env st body w) as [->|(data & _ & ->)]; [by left|].
    right; left. split; [apply update_from_query_length|apply update_from_query_context].
  - destruct (callback_store st body w) as [->|(receipt & ->)]; [by left|].
    right; left. split; [apply update_from_callback_length|apply update_from_callback_context].
  - left. apply test_connection_store.
  - by left.
Qed.

Lemma step_keys_unique st st' :
  step env st st' → keys_unique (store st) → keys_unique (store st').
Proof.
  intros Hstep (Hid & Hmid & Hcid).
  destruct (step_table st st' Hstep)
    as [->|[[Hlen Hkept]|(body & w & r & _ & -> & Hnew & Hm & Hc)]]; [done| |].
  - destruct (context_kept_keys _ _ Hlen Hkept) as (Ei & Em & Ec).
    unfold keys_unique. by rewrite Ei, Em, Ec.
  - unfold keys_unique. rewrite !fmap_app. cbn [fmap list_fmap].
    split_and!; apply NoDup_app; (split; [done|]);
      (split; [|apply NoDup_singleton]).
    + intros x Hx ->%list_elem_of_singleton. rewrite Hnew in Hx.
      by apply next_id_fresh in Hx.
    + intros x Hx ->%list_elem_of_singleton. done.
    + intros x Hx ->%list_elem_of_singleton. done.
Qed.

Lemma reachable_keys_unique st : reachable env st → keys_unique (store st).
Proof.
  unfold reachable. intros Hrun.
  assert (Hgen : ∀ s s', rtc (step env) s s' →
            keys_unique (store s) → keys_unique (store s')).
  { induction 1 as [|s s1 s' Hs _ IH]; [done|].
    intros Hinv. apply IH. by eapply step_keys_unique. }
  apply (Hgen initial st Hrun). unfold keys_unique. cbn. split_and!; constructor.
Qed.

Lemma step_context_kept st st' :
  step env st st' →
  context_kept (store st) (store st') ∧ (length (store st) ≤ length (store st'))%nat.
Proof.
  intros Hstep.
  destruct (step_table st st' Hstep)
    as [->|[[Hlen Hkept]|(body & w & r & _ & -> & _)]].
  - split; [apply context_kept_refl|done].
  - split; [done|lia].
  - split; [apply context_kept_app|rewrite length_app; lia].
Qed.

End TableInvariants.

(** X15. In every state the server can reach, no two transactions share an
    [id], a [merchant_request_id] or a [checkout_request_id]; hence the
    [WHERE merchant_request_id = ?] of a callback or of a status query
    matches at most one row. *)
Theorem table_keys_unique {P : Platform} (env : gmap string string) (st : Mpesa.state) :
  Run.reachable env st →
  Shape.keys_unique (Mpesa.store st)
  ∧ ∀ merchantRequestID i j r r',
      Mpesa.store st !! i = Some r → Mpesa.store st !! j = Some r' →
      Store.matches merchantRequestID r = true →
      Store.matches merchantRequestID r' = true →
      i = j.
Proof.
  intros Hreach. pose proof (reachable_keys_unique env st Hreach) as Hkeys.
  split; [exact Hkeys|].
  intros mid i j r r' Hr Hr' Hm Hm'. destruct Hkeys as (_ & Hmid & _).
  unfold Store.matches in Hm, Hm'. destruct (to_text mid) as [m|]; [|done].
  apply String.eqb_eq in Hm, Hm'.
  eapply (NoDup_lookup _ i j m Hmid); rewrite list_lookup_fmap.
  - by rewrite Hr, Hm.
  - by rewrite Hr', Hm'.
Qed.

(** The table after the scenario's push and paid callback. *)
Lemma table_keys_unique_witness : Shape.keys_unique (Mpesa.store Scenario.completed_once).
Proof.
  apply (table_keys_unique (P := Scenario.plain) Scenario.configured
           Scenario.completed_once).
  unfold Run.reachable.
  eapply rtc_l; [apply (Run.step_stkpush Scenario.configured Mpesa.initial
                          (Scenario.push_body "0712345678") Scenario.at_push)|].
  apply rtc_once.
  apply (Run.step_callback Scenario.configured Scenario.pushed Scenario.paid
           (Scenario.later "2024-03-01 10:01:00")).
Defined.

(** X16. No request ever removes a transaction or rewrites what was
    captured at initiation: over any sequence of requests a stored row
    keeps its place in the table, its keys, phone, amount, branch, product
    and creation time, and the table never shrinks. Only the status, the
    result fields, the receipt and the completion time can change. *)
Theorem initiation_context_frozen {P : Platform} (env : gmap string string)
    (st st' : Mpesa.state) :
  rtc (Run.step env) st st' →
  (length (Mpesa.store st) ≤ length (Mpesa.store st'))%nat
  ∧ ∀ i r, Mpesa.store st !! i = Some r →
           ∃ r', Mpesa.store st' !! i = Some r' ∧ Shape.same_context r r'.
Proof.
  induction 1 as [st|st st1 st' Hstep _ [IHlen IH]].
  - split; [done|apply context_kept_refl].
  - destruct (step_context_kept env st st1 Hstep) as [Hkept Hlen].
    split; [lia|]. by eapply context_kept_trans.
Qed.

(** The row of the scenario before and after the paid callback. *)
Lemma initiation_context_frozen_witness :
  ∃ r', Mpesa.store Scenario.completed_once !! 0%nat = Some r'
        ∧ Store.amount r' = VNum 50 ∧ Store.phone r' = "254712345678".
Proof.
  destruct (initiation_context_frozen (P := Scenario.plain) Scenario.configured
              Scenario.pushed Scenario.completed_once) as [_ Hkept].
  - apply rtc_once.
    apply (Run.step_callback Scenario.configured Scenario.pushed Scenario.paid
             (Scenario.later "2024-03-01 10:01:00")).
  - destruct (Hkept 0%nat _ eq_refl) as (r' & Hr' & (_&_&_&Hphone&Hamount&_)).
    exists r'. split_and!; [exact Hr'|exact Hamount|exact Hphone].
Defined.

(** ** The token across routes *)

Section SharedToken.
Context {P : Platform} (env : gmap string string).
Import Config Store Mpesa.

Lemma test_connection_run st w :
  hasValidCredentials (validateEnvVariables env) = true →
  after (test_connection env st w) = (getAccessToken env st w).1.2
  ∧ (∃ extra, trace (test_connection env st w) = (getAccessToken env st w).2 ++ extra
              ∧ Forall (λ e, is_network e = false) extra)
  ∧ ((∃ j, sent (test_connection env st w) = Ok {| code := 200; json := j |})
     ↔ ∃ token, (getAccessToken env st w).1.1 = Ok token).
Proof.
  intros Hcreds. unfold test_connection. rewrite Hcreds. cbn [negb].
  destruct (getAccessToken env st w) as [[[token|error] st1] tr1]; cbn [fst snd].
  - split_and!; [done|exists []; by rewrite app_nil_r|].
    split; [eauto|]. intros _. eexists. reflexivity.
  - unfold get. destruct (nullish error); cbn [after trace sent].
    + split_and!; [done|exists []; by rewrite app_nil_r|].
      split; [intros [j Hj]; discriminate Hj|intros [token Ht]; discriminate Ht].
    + split_and!; [done|eexists; split; [reflexivity|by repeat constructor]|].
      split; [intros [j Hj]; discriminate Hj|intros [token Ht]; discriminate Ht].
Qed.

Lemma stkquery_cached st body w :
  cache_valid st (now_check w) = true →
  ∀ e, e ∈ trace (stkquery env st body w) →
       is_network e = true →
       ∃ payload, e = HttpPost (stkQueryUrl (MPESA_CONFIG env))
                        ("Bearer " +:+ to_string (accessToken st)) payload
                  ∧ prop payload "CheckoutRequestID" = prop body "checkoutRequestID".
Proof.
  intros Hhit. unfold stkquery, stkquery_failed.
  rewrite (getAccessToken_hit env st w Hhit).
  intros e Hin Hnet.
  repeat case_match; simplify_eq; cbn [trace] in Hin;
    rewrite ?elem_of_app, ?elem_of_cons, ?elem_of_nil in Hin;
    destruct_or?; simplify_eq; try done.
  all: match goal with H : get _ "checkoutRequestID" = Ok _ |- _ =>
         unfold get in H; case_match; simplify_eq end.
  all: eexists; split; reflexivity.
Qed.

Lemma stkpush_cached st body w :
  cache_valid st (now_check w) = true →
  ∀ e, e ∈ trace (stkpush env st body w) →
       is_network e = true →
       ∃ payload, e = HttpPost (stkPushUrl (MPESA_CONFIG env))
                        ("Bearer " +:+ to_string (accessToken st)) payload.
Proof.
  intros Hhit. unfold stkpush, stkpush_failed.
  rewrite (getAccessToken_hit env st w Hhit).
  intros e Hin Hnet.
  repeat case_match; simplify_eq; cbn [trace] in Hin;
    rewrite ?elem_of_app, ?elem_of_cons, ?elem_of_nil in Hin;
    destruct_or?; simplify_eq; try done.
  all: eexists; reflexivity.
Qed.

End SharedToken.

(** X17. With valid credentials, [/test-connection] does to the token
    cache exactly what a call of [getAccessToken] does and makes no network
    request beyond that call's; it replies 200 exactly when the call
    returned a token. The table is never touched. *)
Theorem test_connection_is_a_token_call {P : Platform} (env : gmap string string)
    (st : Mpesa.state) (w : Mpesa.world) :
  Config.hasValidCredentials (Config.validateEnvVariables env) = true →
  let o := Mpesa.test_connection env st w in
  Mpesa.after o = (Mpesa.getAccessToken env st w).1.2
  ∧ Mpesa.store (Mpesa.after o) = Mpesa.store st
  ∧ List.filter Mpesa.is_network (Mpesa.trace o)
    = List.filter Mpesa.is_network (Mpesa.getAccessToken env st w).2
  ∧ ((∃ j, Mpesa.sent o = Ok {| Mpesa.code := 200; Mpesa.json := j |})
     ↔ ∃ token, (Mpesa.getAccessToken env st w).1.1 = Ok token).
Proof.
  intros Hcreds o. subst o.
  destruct (test_connection_run env st w Hcreds) as (Hafter & (extra & Htrace & Hextra) & Hok).
  split_and!; [done|apply test_connection_store| |done].
  rewrite Htrace, List.filter_app.
  assert (Hnone : List.filter Mpesa.is_network extra = []).
  { clear Htrace. induction Hextra as [|e extra He _ IH]; [done|]. cbn. by rewrite He. }
  by rewrite Hnone, app_nil_r.
Qed.

(** The connection test on a fresh server fetches and caches [tok-1]. *)
Lemma test_connection_is_a_token_call_witness :
  Mpesa.accessToken
    (Mpesa.after (Mpesa.test_connection (H := Scenario.plain) Scenario.configured
                    Mpesa.initial Scenario.at_push))
  = VStr "tok-1".
Proof.
  destruct (test_connection_is_a_token_call (P := Scenario.plain) Scenario.configured
              Mpesa.initial Scenario.at_push eq_refl) as (Hafter & _).
  by rewrite Hafter.
Defined.

(** X18. While the cached token is valid, [POST /stkpush] and
    [POST /stkquery] never call the authorization endpoint: the only
    request either of them can send is its own POST (to the STK Push URL,
    to the STK Query URL with the request's [checkoutRequestID]), and it is
    authorized with the cached token. *)
Theorem cached_token_is_used {P : Platform} (env : gmap string string)
    (st : Mpesa.state) (body : value) (w : Mpesa.world) :
  Mpesa.cache_valid st (Mpesa.now_check w) = true →
  (∀ e, e ∈ Mpesa.trace (Mpesa.stkpush env st body w) → Mpesa.is_network e = true →
        ∃ payload, e = Mpesa.HttpPost (Config.stkPushUrl (Config.MPESA_CONFIG env))
                         ("Bearer " +:+ to_string (Mpesa.accessToken st)) payload)
  ∧ (∀ e, e ∈ Mpesa.trace (Mpesa.stkquery env st body w) → Mpesa.is_network e = true →
          ∃ payload, e = Mpesa.HttpPost (Config.stkQueryUrl (Config.MPESA_CONFIG env))
                           ("Bearer " +:+ to_string (Mpesa.accessToken st)) payload
                     ∧ prop payload "CheckoutRequestID" = prop body "checkoutRequestID").
Proof.
  intros Hhit. split; [by apply stkpush_cached|by apply stkquery_cached].
Qed.

(** A poll one minute after the push of the scenario sends one request,
    with [tok-1]. *)
Lemma cached_token_is_used_witness :
  let o := Mpesa.stkquery (H := Scenario.plain) Scenario.configured Scenario.pushed
             (Client.stkQuery (VStr "ws_CO_1")) (Scenario.later "2024-03-01 10:01:00") in
  ∃ payload,
    Mpesa.trace o !! 0%nat
    = Some (Mpesa.HttpPost "https://sandbox.safaricom.co.ke/mpesa/stkpushquery/v1/query"
              "Bearer tok-1" payload)
    ∧ prop payload "CheckoutRequestID" = VStr "ws_CO_1".
Proof.
  intros o.
  destruct (cached_token_is_used (P := Scenario.plain) Scenario.configured Scenario.pushed
              (Client.stkQuery (VStr "ws_CO_1")) (Scenario.later "2024-03-01 10:01:00")
              eq_refl) as [_ Hquery].
  destruct (Mpesa.trace o !! 0%nat) as [e|] eqn:He; [|discriminate He].
  destruct (Hquery e) as (payload & -> & Hid).
  - apply list_elem_of_lookup. by exists 0%nat.
  - vm_compute in He. by injection He as <-.
  - exists payload. split; [reflexivity|exact Hid].
Defined.

Section PushStorage.
Context {P : Platform} (env : gmap string string).
Import Config Store Mpesa.

Lemma stkpush_catch_code error r : stkpush_catch error = Ok r → code r = 500.
Proof.
  unfold stkpush_catch, get. destruct (nullish error); [done|].
  cbn [mbind result_bind Js.bind mret result_ret].
  repeat case_match; by intros [= <-].
Qed.

(** A 200 from [POST /stkpush]: the event is emitted, and the failure of
    the [INSERT] is logged exactly when the table did not grow. *)
Lemma stkpush_success st body w j :
  sent (stkpush env st body w) = Ok {| code := 200; json := j |} →
  (∃ payload, Emit "admin-room" "mpesa-initiated" payload ∈ trace (stkpush env st body w))
  ∧ (store (after (stkpush env st body w)) = store st
     ↔ ConsoleError "Error storing transaction:" ∈ trace (stkpush env st body w)).
Proof.
  pose proof (getAccessToken_store env st w) as Hst.
  assert (Hlog : ∀ tr1 : list event,
            (∀ label, ConsoleError label ∈ tr1 → label ≠ "Error storing transaction:") →
            ∀ post emit, ConsoleError "Error storing transaction:"
                         ∈ (tr1 ++ [post]) ++ [emit] ++ [] →
                         (∃ u a p, post = HttpPost u a p) → (∃ r n p, emit = Emit r n p) →
                         False).
  { intros tr1 Htr1 post emit Hin (?&?&?&->) (?&?&?&->).
    rewrite !elem_of_app, !elem_of_cons, !elem_of_nil in Hin.
    destruct_or?; simplify_eq. by eapply Htr1. }
  assert (Htoken : ∀ label, ConsoleError label ∈ (getAccessToken env st w).2 →
                            label ≠ "Error storing transaction:").
  { unfold getAccessToken, token_failure_log. intros label.
    repeat case_match; simplify_eq; cbn [snd]; intros Hin;
      rewrite ?elem_of_app, ?elem_of_cons, ?elem_of_nil in Hin;
      destruct_or?; by simplify_eq. }
  unfold stkpush, stkpush_failed.
  destruct (getAccessToken env st w) as [[token st1] tr1]. cbn [fst snd] in Hst, Htoken.
  repeat case_match; cbn [sent after store trace]; intros Hsent;
    try discriminate Hsent;
    try (apply stkpush_catch_code in Hsent; discriminate Hsent).
  - split.
    + eexists. rewrite !elem_of_app, !elem_of_cons. right; left; left. reflexivity.
    + split; [intros _|intros _].
      * rewrite !elem_of_app, !elem_of_cons. right; right; left. reflexivity.
      * match goal with H : (length _ =? length _)%nat = true |- _ =>
          apply Nat.eqb_eq in H; rename H into Hlen end.
        match goal with |- context [insert_pending ?now ?mid ?cid ?p ?a ?b ?pr ?rows] =>
          destruct (insert_pending_new now mid cid p a b pr rows)
            as [Hsame|(r & Happ & _)] end.
        -- by rewrite Hsame, Hst.
        -- rewrite Happ, length_app in Hlen. cbn in Hlen. lia.
  - split.
    + eexists. rewrite !elem_of_app, !elem_of_cons. right; left; left. reflexivity.
    + match goal with H : (length _ =? length _)%nat = false |- _ =>
        apply Nat.eqb_neq in H; rename H into Hlen end.
      split.
      * intros Hsame. rewrite Hsame, Hst in Hlen. done.
      * intros Hin. exfalso. eapply (Hlog tr1 Htoken); [exact Hin|eauto|eauto].
Qed.

End PushStorage.

(** X19. A 200 from [POST /stkpush] does not mean the transaction was
    stored. Whenever the reply is the 200 success, [mpesa-initiated] has
    been emitted to the admin room; the table is unchanged exactly when the
    failure of the [INSERT] has been logged, which is what happens when the
    provider hands back a [MerchantRequestID] that is already stored. *)
Theorem stkpush_success_without_row {P : Platform} (env : gmap string string)
    (st : Mpesa.state) (body : value) (w : Mpesa.world) (j : value) :
  Mpesa.sent (Mpesa.stkpush env st body w) = Ok {| Mpesa.code := 200; Mpesa.json := j |} →
  (∃ payload, Mpesa.Emit "admin-room" "mpesa-initiated" payload
              ∈ Mpesa.trace (Mpesa.stkpush env st body w))
  ∧ (Mpesa.store (Mpesa.after (Mpesa.stkpush env st body w)) = Mpesa.store st
     ↔ Mpesa.ConsoleError "Error storing transaction:"
       ∈ Mpesa.trace (Mpesa.stkpush env st body w)).
Proof. apply stkpush_success. Qed.

(** The push of the scenario repeated while the provider answers with
    [m-1] again: success is replied, the table still holds one row. *)
Lemma stkpush_success_without_row_witness :
  let o := Mpesa.stkpush (H := Scenario.plain) Scenario.configured Scenario.pushed
             (Scenario.push_body "0712345678") Scenario.at_push in
  (∃ j, Mpesa.sent o = Ok {| Mpesa.code := 200; Mpesa.json := j |})
  ∧ length (Mpesa.store (Mpesa.after o)) = 1%nat
  ∧ Mpesa.ConsoleError "Error storing transaction:" ∈ Mpesa.trace o.
Proof.
  intros o. split; [eexists; reflexivity|]. split; [reflexivity|].
  match goal with |- _ ∈ _ =>
    eapply (proj1 (proj2 (stkpush_success_without_row (P := Scenario.plain)
                            Scenario.configured Scenario.pushed
                            (Scenario.push_body "0712345678") Scenario.at_push _
                            eq_refl)))
  end.
  reflexivity.
Defined.

(** ** The inventory item routes *)

Section InventoryFacts.
Context {N : Numbers}.
Import Inventory.

Lemma has_id_set_stock now stock param q r :
  has_id q (if has_id param r
            then {| id := id r; branch := branch r; product := product r;
                    price := price r; stock := stored_integer stock;
                    created_at := created_at r; updated_at := now |}
            else r) = has_id q r.
Proof. by destruct (has_id param r). Qed.

(** Reading back the row an [UPDATE] of the stock was aimed at. *)
Lemma select_set_stock now stock param rows :
  select_by_id param (set_stock now stock param rows)
  = (λ r, {| id := id r; branch := branch r; product := product r;
             price := price r; stock := stored_integer stock;
             created_at := created_at r; updated_at := now |})
    <$> select_by_id param rows.
Proof.
  unfold select_by_id, set_stock.
  induction rows as [|r rows IH]; [done|].
  cbn [fmap list_fmap List.find]. fold (@fmap list _ item item).
  rewrite has_id_set_stock.
  destruct (has_id param r) eqn:Hr; [done|]. exact IH.
Qed.

Lemma has_id_other param q r :
  to_integer q ≠ to_integer param → has_id q r = true → has_id param r = false.
Proof.
  unfold has_id. intros Hne.
  destruct (to_integer q) as [n|] eqn:Hq; [|done].
  destruct (to_integer param) as [m|] eqn:Hp; [|done].
  intros Hn%Z.eqb_eq. apply Z.eqb_neq. intros Hm. apply Hne. congruence.
Qed.

(** ... and any other row. *)
Lemma select_set_stock_other now stock param q rows :
  to_integer q ≠ to_integer param →
  select_by_id q (set_stock now stock param rows) = select_by_id q rows.
Proof.
  intros Hne. unfold select_by_id, set_stock.
  induction rows as [|r rows IH]; [done|].
  cbn [fmap list_fmap List.find]. fold (@fmap list _ item item).
  rewrite has_id_set_stock.
  destruct (has_id q r) eqn:Hr; [|exact IH].
  by rewrite (has_id_other param q r Hne Hr).
Qed.

Lemma set_stock_ids now stock param rows :
  id <$> set_stock now stock param rows = id <$> rows.
Proof.
  unfold set_stock. rewrite <- list_fmap_compose.
  apply list_fmap_ext. intros _ r _. cbn. by destruct (has_id param r).
Qed.

Lemma select_deleted param rows :
  select_by_id param (delete_by_id param rows) = None.
Proof.
  unfold select_by_id, delete_by_id.
  induction rows as [|r rows IH]; [done|].
  cbn [List.filter]. destruct (has_id param r) eqn:Hr; cbn [negb]; [exact IH|].
  cbn [List.find]. by rewrite Hr.
Qed.

Lemma select_deleted_other param q rows :
  to_integer q ≠ to_integer param →
  select_by_id q (delete_by_id param rows) = select_by_id q rows.
Proof.
  intros Hne. unfold select_by_id, delete_by_id.
  induction rows as [|r rows IH]; [done|].
  cbn [List.filter List.find].
  destruct (has_id q r) eqn:Hq.
  - rewrite (has_id_other param q r Hne Hq). cbn [negb List.find]. by rewrite Hq.
  - destruct (has_id param r); cbn [negb List.find]; [exact IH|]. by rewrite Hq.
Qed.

Lemma delete_shrinks param rows it :
  select_by_id param rows = Some it →
  (length (delete_by_id param rows) < length rows)%nat.
Proof.
  unfold select_by_id, delete_by_id.
  induction rows as [|r rows IH]; [done|].
  cbn [List.find List.filter].
  destruct (has_id param r) eqn:Hr; cbn [negb length].
  - intros _. pose proof (List.filter_length_le (λ r, negb (has_id param r)) rows). lia.
  - intros Hfind. specialize (IH Hfind). lia.
Qed.

Lemma get_item_sent q rows rows' :
  select_by_id q rows' = select_by_id q rows →
  sent (get_item q rows') = sent (get_item q rows).
Proof. unfold get_item. intros ->. by destruct (select_by_id q rows). Qed.

End InventoryFacts.

(** X20. A restock reads back. When [PUT /:id/stock] is given a number
    [n ≥ 0] for an existing item, it replies 200, a following [GET /:id]
    returns that item with stock [n] and its branch, product and price as
    before, every other item reads as before, no row is added or removed,
    and exactly two events go out: [stock-restocked] to the admin room with
    the old and the new stock, [inventory-updated] to the customer room
    with the new stock. *)
Theorem restock_then_read {N : Numbers} (user param body : value) (now : string)
    (rows : list Inventory.item) (old : Inventory.item) (n : Z) :
  nullish body = false → nullish user = false →
  prop body "stock" = VNum n → 0 ≤ n →
  Inventory.select_by_id param rows = Some old →
  let o := Inventory.put_stock user param body now rows in
  (∃ j, Inventory.sent o = Ok {| Mpesa.code := 200; Mpesa.json := j |})
  ∧ Inventory.sent (Inventory.get_item param (Inventory.after o))
    = Ok {| Mpesa.code := 200;
            Mpesa.json := VObj [("id", VNum (Inventory.id old));
                                ("branch", VStr (Inventory.branch old));
                                ("product", VStr (Inventory.product old));
                                ("price", Inventory.price old);
                                ("stock", VNum n)] |}
  ∧ (∀ other, to_integer other ≠ to_integer param →
              Inventory.sent (Inventory.get_item other (Inventory.after o))
              = Inventory.sent (Inventory.get_item other rows))
  ∧ Inventory.id <$> Inventory.after o = Inventory.id <$> rows
  ∧ ∃ restocked updated,
      Inventory.trace o = [Mpesa.Emit "admin-room" "stock-restocked" restocked;
                           Mpesa.Emit "customer-room" "inventory-updated" updated]
      ∧ prop restocked "oldStock" = Inventory.stock old
      ∧ prop restocked "newStock" = VNum n
      ∧ prop updated "branch" = VStr (Inventory.branch old)
      ∧ prop updated "product" = VStr (Inventory.product old)
      ∧ prop updated "newStock" = VNum n.
Proof.
  intros Hbody Huser Hstock Hn Hold o. subst o.
  unfold Inventory.put_stock, get. rewrite Hbody, Huser, Hstock, Hold.
  rewrite below_zero_num. replace (n <? 0) with false by lia.
  cbn [Inventory.is_undefined orb nullish Inventory.sent Inventory.after Inventory.trace].
  split; [by eexists|]. split.
  - unfold Inventory.get_item. rewrite select_set_stock, Hold. cbn [fmap option_fmap option_map].
    cbn [Inventory.sent Inventory.id Inventory.branch Inventory.product Inventory.price
         Inventory.stock].
    by rewrite stored_integer_num.
  - split.
    + intros other Hother. apply get_item_sent. by apply select_set_stock_other.
    + split; [apply set_stock_ids|].
      do 2 eexists. split; [reflexivity|]. by vm_compute.
Qed.

(** Item 1 of the seeded table restocked to 80 by the administrator. *)
Lemma restock_then_read_witness :
  let rows := Stockroom.seeded "2026-01-01 00:00:00" in
  let o := Inventory.put_stock (H := Stockroom.numbers) Stockroom.admin (VStr "1")
             (VObj [("stock", VNum 80)]) "2026-01-02 00:00:00" rows in
  Inventory.select_by_id (H := Stockroom.numbers) (VStr "1") rows ≠ None
  ∧ Inventory.sent (Inventory.get_item (H := Stockroom.numbers) (VStr "1") (Inventory.after o))
    = Ok {| Mpesa.code := 200;
            Mpesa.json := VObj [("id", VNum 1); ("branch", VStr "Kisumu");
                                ("product", VStr "Coke"); ("price", VNum 100);
                                ("stock", VNum 80)] |}.
Proof.
  intros rows o. split; [done|].
  exact (proj1 (proj2 (restock_then_read (N := Stockroom.numbers) Stockroom.admin (VStr "1")
                         (VObj [("stock", VNum 80)]) "2026-01-02 00:00:00" rows _ 80
                         eq_refl eq_refl eq_refl ltac:(lia) eq_refl))).
Defined.

(** X21. A restock that is refused changes nothing. Whenever
    [PUT /:id/stock] replies with anything but 200, the table is as it was
    and no event has been emitted. A missing stock or a negative number gets
    the 400, and a valid stock for an id no row has gets the 404. *)
Theorem restock_refused {N : Numbers} (user param body : value) (now : string)
    (rows : list Inventory.item) :
  nullish body = false →
  let o := Inventory.put_stock user param body now rows in
  (∀ r, Inventory.sent o = Ok r → Mpesa.code r ≠ 200 →
        Inventory.after o = rows
        ∧ ∀ room name payload, Mpesa.Emit room name payload ∉ Inventory.trace o)
  ∧ (prop body "stock" = VUndefined ∨ (∃ n, prop body "stock" = VNum n ∧ n < 0) →
     o = Inventory.refused 400 "Valid stock value is required" rows)
  ∧ (∀ n, prop body "stock" = VNum n → 0 ≤ n →
          Inventory.select_by_id param rows = None →
          o = Inventory.refused 404 "Item not found" rows).
Proof.
  intros Hbody o. subst o. unfold Inventory.put_stock, get. rewrite Hbody.
  split; [|split].
  - intros r.
    repeat case_match; cbn [Inventory.sent Inventory.after Inventory.trace Inventory.refused];
      intros [= <-]; cbn [Mpesa.code]; intros Hcode; try done;
      (split; [done|]); intros room name payload Hin;
      rewrite ?elem_of_cons, ?elem_of_nil in Hin; destruct_or?; by simplify_eq.
  - intros [->|(n & -> & Hn)]; [done|].
    rewrite below_zero_num. replace (n <? 0) with true by lia. done.
  - intros n -> Hn ->. rewrite below_zero_num. replace (n <? 0) with false by lia. done.
Qed.

(** A restock of item 1 to -5, and one of an item 9 that is not there. *)
Lemma restock_refused_witness :
  let rows := Stockroom.seeded "2026-01-01 00:00:00" in
  Inventory.put_stock (H := Stockroom.numbers) Stockroom.admin (VStr "1")
    (VObj [("stock", VNum (-5))]) "2026-01-02 00:00:00" rows
  = Inventory.refused 400 "Valid stock value is required" rows
  ∧ Inventory.put_stock (H := Stockroom.numbers) Stockroom.admin (VStr "9")
      (VObj [("stock", VNum 5)]) "2026-01-02 00:00:00" rows
    = Inventory.refused 404 "Item not found" rows.
Proof.
  intros rows. split.
  - apply (proj1 (proj2 (restock_refused (N := Stockroom.numbers) Stockroom.admin (VStr "1")
                           (VObj [("stock", VNum (-5))]) "2026-01-02 00:00:00" rows eq_refl))).
    right. exists (-5). split; [reflexivity|lia].
  - apply (proj2 (proj2 (restock_refused (N := Stockroom.numbers) Stockroom.admin (VStr "9")
                           (VObj [("stock", VNum 5)]) "2026-01-02 00:00:00" rows eq_refl)) 5);
      [reflexivity|lia|reflexivity].
Defined.

(** X22. Only an administrator deletes, and a deleted item is gone. For a
    user whose role is not [admin], [DELETE /:id] replies 403 and leaves
    the table alone; for an administrator and an id no row has it replies
    404; for an administrator and an existing item it replies 200, a
    following [GET /:id] replies 404, every other item reads as before,
    the table has shrunk, and one [stock-restocked] event marked [deleted]
    goes to the admin room naming the item's branch and product. *)
Theorem delete_item_admin_only {N : Numbers} (user param : value)
    (rows : list Inventory.item) :
  nullish user = false →
  let o := Inventory.delete_item user param rows in
  (strict_eq_str (prop user "role") "admin" = false →
   o = Inventory.refused 403 "Admin access required" rows)
  ∧ (strict_eq_str (prop user "role") "admin" = true →
     Inventory.select_by_id param rows = None →
     o = Inventory.refused 404 "Item not found" rows)
  ∧ (∀ it, strict_eq_str (prop user "role") "admin" = true →
           Inventory.select_by_id param rows = Some it →
           (∃ j, Inventory.sent o = Ok {| Mpesa.code := 200; Mpesa.json := j |})
           ∧ Inventory.sent (Inventory.get_item param (Inventory.after o))
             = Ok {| Mpesa.code := 404; Mpesa.json := VObj [("error", VStr "Item not found")] |}
           ∧ (∀ other, to_integer other ≠ to_integer param →
                       Inventory.sent (Inventory.get_item other (Inventory.after o))
                       = Inventory.sent (Inventory.get_item other rows))
           ∧ (length (Inventory.after o) < length rows)%nat
           ∧ ∃ deleted,
               Inventory.trace o = [Mpesa.Emit "admin-room" "stock-restocked" deleted]
               ∧ prop deleted "deleted" = VBool true
               ∧ prop deleted "branch" = VStr (Inventory.branch it)
               ∧ prop deleted "product" = VStr (Inventory.product it)).
Proof.
  intros Huser o. subst o. unfold Inventory.delete_item, get. rewrite Huser.
  split; [|split].
  - by intros ->.
  - by intros -> ->.
  - intros it -> Hit. rewrite Hit. cbn [negb].
    pose proof (delete_shrinks param rows it Hit) as Hlen.
    destruct (length rows - length (Inventory.delete_by_id param rows) =? 0)%nat eqn:Hch;
      [apply Nat.eqb_eq in Hch; lia|].
    cbn [Inventory.sent Inventory.after Inventory.trace].
    split; [by eexists|]. split.
    + unfold Inventory.get_item. by rewrite select_deleted.
    + split; [intros other Hother; apply get_item_sent; by apply select_deleted_other|].
      split; [exact Hlen|]. eexists. split; [reflexivity|]. by vm_compute.
Qed.

(** The customer of the seed data may not delete item 2; the administrator
    may, and then item 2 no longer reads. *)
Lemma delete_item_admin_only_witness :
  let rows := Stockroom.seeded "2026-01-01 00:00:00" in
  Inventory.delete_item (H := Stockroom.numbers) Stockroom.customer (VStr "2") rows
  = Inventory.refused 403 "Admin access required" rows
  ∧ Inventory.sent
      (Inventory.get_item (H := Stockroom.numbers) (VStr "2")
         (Inventory.after (Inventory.delete_item (H := Stockroom.numbers)
                             Stockroom.admin (VStr "2") rows)))
    = Ok {| Mpesa.code := 404; Mpesa.json := VObj [("error", VStr "Item not found")] |}.
Proof.
  intros rows. split.
  - exact (proj1 (delete_item_admin_only (N := Stockroom.numbers) Stockroom.customer (VStr "2")
                    rows eq_refl) eq_refl).
  - exact (proj1 (proj2 (proj2 (proj2 (delete_item_admin_only (N := Stockroom.numbers)
                                         Stockroom.admin (VStr "2") rows eq_refl))
                          _ eq_refl eq_refl))).
Defined.

(** X23. [PUT /:id/stock] asks for no role. What it replies, writes and
    emits depends on the authenticated user through the [username] alone:
    two users of the same name, whatever their roles, get the same outcome,
    so a customer restocks as an administrator does (and is announced as
    "Admin" in the notification). *)
Theorem restock_ignores_role {N : Numbers} (user user' param body : value) (now : string)
    (rows : list Inventory.item) :
  nullish user = false → nullish user' = false →
  prop user "username" = prop user' "username" →
  Inventory.put_stock user param body now rows
  = Inventory.put_stock user' param body now rows.
Proof.
  intros Hu Hu' Hname. unfold Inventory.put_stock, get. by rewrite Hu, Hu', Hname.
Qed.

(** The customer of the seed data restocks item 3 and gets the 200. *)
Lemma restock_ignores_role_witness :
  let rows := Stockroom.seeded "2026-01-01 00:00:00" in
  let o := Inventory.put_stock (H := Stockroom.numbers) Stockroom.customer (VStr "3")
             (VObj [("stock", VNum 60)]) "2026-01-02 00:00:00" rows in
  o = Inventory.put_stock (H := Stockroom.numbers)
        (VObj [("username", VStr "user"); ("role", VStr "admin")]) (VStr "3")
        (VObj [("stock", VNum 60)]) "2026-01-02 00:00:00" rows
  ∧ ∃ j, Inventory.sent o = Ok {| Mpesa.code := 200; Mpesa.json := j |}.
Proof.
  intros rows o. split.
  - exact (restock_ignores_role (N := Stockroom.numbers) Stockroom.customer
             (VObj [("username", VStr "user"); ("role", VStr "admin")]) (VStr "3")
             (VObj [("stock", VNum 60)]) "2026-01-02 00:00:00" rows eq_refl eq_refl eq_refl).
  - eexists. reflexivity.
Defined.

(** ** Counties *)

Section CountyFacts.
Context {N : Numbers}.
Import Counties.

Lemma elem_of_insert_by_name c r sorted :
  c ∈ insert_by_name r sorted ↔ c = r ∨ c ∈ sorted.
Proof.
  induction sorted as [|r' rest IH]; cbn [insert_by_name].
  - by rewrite list_elem_of_singleton, elem_of_nil; intuition.
  - destruct (String.ltb (name r) (name r')).
    + by rewrite elem_of_cons.
    + rewrite !elem_of_cons, IH. intuition.
Qed.

Lemma elem_of_order_by_name c rows acc :
  c ∈ foldl (λ acc r, insert_by_name r acc) acc rows ↔ c ∈ acc ∨ c ∈ rows.
Proof.
  revert acc. induction rows as [|r rows IH]; intros acc; cbn [foldl].
  - rewrite elem_of_nil. intuition.
  - rewrite IH, elem_of_insert_by_name, elem_of_cons. intuition.
Qed.

(** The listing holds exactly the active rows. *)
Lemma elem_of_select_active c rows :
  c ∈ select_active rows ↔ c ∈ rows ∧ active c = true.
Proof.
  unfold select_active. rewrite elem_of_order_by_name, elem_of_nil.
  rewrite !list_elem_of_In, List.filter_In. intuition.
Qed.

Lemma elem_of_deactivate c param rows :
  c ∈ deactivate param rows →
  (c ∈ rows ∧ has_id param c = false) ∨ (active c = false ∧ has_id param c = true).
Proof.
  unfold deactivate. rewrite list_elem_of_fmap. intros (r & -> & Hr).
  destruct (has_id param r) eqn:Hid.
  - right. split; [done|]. unfold has_id in *. cbn [id]. exact Hid.
  - by left.
Qed.

Lemma deactivate_keeps c param rows :
  c ∈ rows → has_id param c = false → c ∈ deactivate param rows.
Proof.
  intros Hc Hid. unfold deactivate. apply list_elem_of_fmap.
  exists c. by rewrite Hid.
Qed.

Lemma changes_zero param rows :
  changes param rows = 0%nat ↔ ∀ c, c ∈ rows → has_id param c = false.
Proof.
  unfold changes. rewrite length_zero_iff_nil. split.
  - intros Hnil c Hc. destruct (has_id param c) eqn:Hid; [|done].
    assert (List.In c (List.filter (has_id param) rows)) as Hin
      by (apply List.filter_In; split; [by apply list_elem_of_In|done]).
    by rewrite Hnil in Hin.
  - intros Hall. induction rows as [|r rows IH]; [done|].
    cbn [List.filter]. rewrite (Hall r) by constructor.
    apply IH. intros c Hc. apply Hall. by constructor.
Qed.

Lemma deactivate_none param rows :
  (∀ c, c ∈ rows → has_id param c = false) → deactivate param rows = rows.
Proof.
  intros Hall. unfold deactivate. rewrite <- (list_fmap_id rows) at 2.
  apply list_fmap_ext. intros _ r Hr%list_elem_of_lookup_2. by rewrite (Hall r Hr).
Qed.

End CountyFacts.

(** X24. Removing a county hides it and keeps it. For a user whose role is
    not [admin], [DELETE /counties/:id] replies 403 and changes nothing.
    For an administrator it replies 200 exactly when some row has the id
    (active or not), and 404 with the table unchanged otherwise; no row
    ever leaves the table, and afterwards [GET /counties] lists exactly the
    counties it listed before that do not have the id. *)
Theorem county_soft_delete {N : Numbers} (user param : value)
    (rows : list Counties.county) :
  nullish user = false →
  let o := Counties.delete_county user param rows in
  (strict_eq_str (prop user "role") "admin" = false →
   o = Counties.refused 403 "Admin access required" rows)
  ∧ (strict_eq_str (prop user "role") "admin" = true →
     ((∃ j, Counties.sent o = Ok {| Mpesa.code := 200; Mpesa.json := j |})
      ↔ ∃ c, c ∈ rows ∧ Counties.has_id param c = true)
     ∧ ((∀ c, c ∈ rows → Counties.has_id param c = false) →
        o = Counties.refused 404 "County not found" rows)
     ∧ Counties.id <$> Counties.after o = Counties.id <$> rows
     ∧ Counties.name <$> Counties.after o = Counties.name <$> rows
     ∧ ∀ c, c ∈ Counties.select_active (Counties.after o)
            ↔ c ∈ Counties.select_active rows ∧ Counties.has_id param c = false).
Proof.
  intros Huser o. subst o. unfold Counties.delete_county, get. rewrite Huser.
  split; [by intros ->|]. intros ->. cbn [negb].
  assert (Hids : Counties.id <$> Counties.deactivate param rows = Counties.id <$> rows).
  { unfold Counties.deactivate. rewrite <- list_fmap_compose.
    apply list_fmap_ext. intros _ r _. cbn. by destruct (Counties.has_id param r). }
  assert (Hnames : Counties.name <$> Counties.deactivate param rows = Counties.name <$> rows).
  { unfold Counties.deactivate. rewrite <- list_fmap_compose.
    apply list_fmap_ext. intros _ r _. cbn. by destruct (Counties.has_id param r). }
  assert (Hlist : ∀ c, c ∈ Counties.select_active (Counties.deactivate param rows)
                       ↔ c ∈ Counties.select_active rows ∧ Counties.has_id param c = false).
  { intros c. rewrite !elem_of_select_active. split.
    - intros [Hc Hact]. apply elem_of_deactivate in Hc as [[Hc Hid]|[Hoff _]]; [done|congruence].
    - intros [[Hc Hact] Hid]. split; [by apply deactivate_keeps|done]. }
  destruct (Counties.changes param rows =? 0)%nat eqn:Hch.
  - apply Nat.eqb_eq in Hch. rewrite changes_zero in Hch.
    rewrite (deactivate_none param rows Hch) in *.
    cbn [Counties.sent Counties.after Counties.refused].
    split; [|done].
    split; [by intros [j [=]]|]. intros (c & Hc & Hid). by rewrite (Hch c Hc) in Hid.
  - apply Nat.eqb_neq in Hch. cbn [Counties.sent Counties.after].
    split; [|split; [|done]].
    + split; [intros _|by eexists].
      destruct (List.filter (Counties.has_id param) rows) as [|c l] eqn:Hf.
      { exfalso. apply Hch. unfold Counties.changes. by rewrite Hf. }
      assert (List.In c (List.filter (Counties.has_id param) rows)) as Hin
        by (rewrite Hf; by left).
      apply List.filter_In in Hin as [Hin Hid]. exists c. by rewrite <- list_elem_of_In in Hin.
    + intros Hall. exfalso. apply Hch. by rewrite changes_zero.
Qed.

(** Kisumu removed by the administrator: the listing shrinks to Nairobi,
    the table still has both rows. *)
Lemma county_soft_delete_witness :
  let rows := Stockroom.counties "2026-01-01 00:00:00" in
  let o := Counties.delete_county (H := Stockroom.numbers) Stockroom.admin (VStr "2") rows in
  Counties.id <$> Counties.after o = [1; 2]
  ∧ Counties.name <$> Counties.select_active rows = ["Kisumu"; "Nairobi"]
  ∧ Counties.name <$> Counties.select_active (Counties.after o) = ["Nairobi"].
Proof.
  intros rows o. split; [|split; reflexivity].
  exact (proj1 (proj2 (proj2 (proj2 (county_soft_delete (N := Stockroom.numbers)
                                       Stockroom.admin (VStr "2") rows eq_refl) eq_refl)))).
Defined.

(** ** Callback and poll: one rule for the status *)

Section Reconciliation.
Context {P : Platform} (env : gmap string string).
Import Config Store Mpesa Run.

(** A callback that carries the envelope and whose processing logs no
    error has run its [UPDATE]. *)
Lemma callback_processed st body w :
  nullish body = false →
  truthy (and_then (prop body "Body") (stkCallback_of body)) = true →
  (∀ label, ConsoleError label ∉ trace (callback st body w)) →
  ∃ receipt,
    store (after (callback st body w))
    = update_from_callback (sql_time w)
        (prop (stkCallback_of body) "ResultCode")
        (prop (stkCallback_of body) "ResultDesc")
        receipt
        (prop (stkCallback_of body) "MerchantRequestID") (store st).
Proof.
  intros Hbody Henvelope. unfold callback, get, stkCallback_of in *. rewrite Hbody.
  unfold reconcile. rewrite Henvelope.
  destruct (find_value _ "Amount") as [amount|e]; simpl;
    [|intros Hlog; exfalso; eapply Hlog; left].
  destruct (find_value _ "MpesaReceiptNumber") as [receipt|e]; simpl;
    [|intros Hlog; exfalso; eapply Hlog; left].
  destruct (find_value _ "TransactionDate") as [date|e]; simpl;
    [|intros Hlog; exfalso; eapply Hlog; left].
  destruct (find_value _ "PhoneNumber") as [phoneNumber|e]; simpl;
    [|intros Hlog; exfalso; eapply Hlog; left].
  intros _. by exists receipt.
Qed.

(** The row a processed callback matches gets the status of the rule. *)
Lemma callback_sets_status st body w i r :
  store st !! i = Some r →
  nullish body = false →
  truthy (and_then (prop body "Body") (stkCallback_of body)) = true →
  (∀ label, ConsoleError label ∉ trace (callback st body w)) →
  matches (prop (stkCallback_of body) "MerchantRequestID") r = true →
  ∃ r', store (after (callback st body w)) !! i = Some r'
        ∧ status r' = Spec.outcome_rule (prop (stkCallback_of body) "ResultCode").
Proof.
  intros Hr Hbody Henvelope Hlog Hmatch.
  destruct (callback_processed st body w Hbody Henvelope Hlog) as [receipt ->].
  destruct (update_from_callback_lookup (sql_time w)
              (prop (stkCallback_of body) "ResultCode")
              (prop (stkCallback_of body) "ResultDesc") receipt
              (prop (stkCallback_of body) "MerchantRequestID") (store st) i r Hr)
    as (r' & Hr' & _ & Hstatus).
  exists r'. split; [done|]. rewrite Hstatus, Hmatch. apply callback_status_rule.
Qed.

(** The row a successful poll names gets the status of the rule. *)
Lemma stkquery_sets_status st body w j i r :
  store st !! i = Some r →
  sent (stkquery env st body w) = Ok {| code := 200; json := j |} →
  truthy (prop body "merchantRequestID") = true →
  matches (prop body "merchantRequestID") r = true →
  ∃ r', store (after (stkquery env st body w)) !! i = Some r'
        ∧ status r' = Spec.outcome_rule (prop (prop j "data") "resultCode").
Proof.
  intros Hr Hsent Hnamed Hmatch.
  destruct (stkquery_success env st body w j Hsent) as (data & _ & -> & _ & ->).
  rewrite Hnamed.
  destruct (update_from_query_lookup (sql_time w) (prop data "ResultCode")
              (prop data "ResultDesc") (prop body "merchantRequestID")
              (store st) i r Hr)
    as (r' & Hr' & _ & Hstatus).
  exists r'. split; [done|]. rewrite Hstatus, Hmatch. apply query_status_rule.
Qed.

End Reconciliation.

(** C5. For every result code the callback path and the poll path apply
    the same mapping to the status of the transaction, the one the
    specification's rule gives: [completed] when the code is the number 0
    and [failed] otherwise. The expression each handler evaluates is that
    rule; a callback that carries the code for a stored transaction and is
    processed without error leaves that transaction with the status of the
    rule; so does a poll that replies 200 with the code and names the
    transaction; and the two [UPDATE] statements, run with the same code
    for the same merchant request id, leave the same status in every row of
    the table. *)
Theorem callback_and_query_agree {P : Platform} (env : gmap string string)
    (resultCode : value) :
  Store.callback_status resultCode = Spec.outcome_rule resultCode
  ∧ Store.query_status resultCode = Spec.outcome_rule resultCode
  ∧ (∀ st body w i r,
       Mpesa.store st !! i = Some r →
       nullish body = false →
       truthy (and_then (prop body "Body") (Run.stkCallback_of body)) = true →
       (∀ label, Mpesa.ConsoleError label ∉ Mpesa.trace (Mpesa.callback st body w)) →
       prop (Run.stkCallback_of body) "ResultCode" = resultCode →
       Store.matches (prop (Run.stkCallback_of body) "MerchantRequestID") r = true →
       ∃ r', Mpesa.store (Mpesa.after (Mpesa.callback st body w)) !! i = Some r'
             ∧ Store.status r' = Spec.outcome_rule resultCode)
  ∧ (∀ st body w j i r,
       Mpesa.store st !! i = Some r →
       Mpesa.sent (Mpesa.stkquery env st body w)
       = Ok {| Mpesa.code := 200; Mpesa.json := j |} →
       prop (prop j "data") "resultCode" = resultCode →
       truthy (prop body "merchantRequestID") = true →
       Store.matches (prop body "merchantRequestID") r = true →
       ∃ r', Mpesa.store (Mpesa.after (Mpesa.stkquery env st body w)) !! i = Some r'
             ∧ Store.status r' = Spec.outcome_rule resultCode)
  ∧ ∀ now now' desc desc' receipt mid rows,
      Store.status <$> Store.update_from_callback now resultCode desc receipt mid rows
      = Store.status <$> Store.update_from_query now' resultCode desc' mid rows.
Proof.
  split_and!.
  - apply callback_status_rule.
  - apply query_status_rule.
  - intros st body w i r Hr Hbody Henvelope Hlog <- Hmatch.
    by apply (callback_sets_status st body w i r).
  - intros st body w j i r Hr Hsent <- Hnamed Hmatch.
    by apply (stkquery_sets_status env st body w j i r).
  - intros. unfold Store.update_from_callback, Store.update_from_query.
    rewrite <- !list_fmap_compose. apply list_fmap_ext. intros i r _. simpl.
    destruct (Store.matches mid r); simpl; [|done].
    by rewrite callback_status_rule, query_status_rule.
Qed.

(** The pending transaction [m-1] of the scenario: the paid callback and a
    poll the provider answers with result code 0 both leave it
    [completed]. *)
Lemma callback_and_query_agree_witness :
  let answered :=
    {| Mpesa.iso_time := "2024-03-01T10:01:00.000Z";
       Mpesa.now_check := 1709287260000;
       Mpesa.now_reply := 1709287260250;
       Mpesa.now_report := 1709287260300;
       Mpesa.sql_time := "2024-03-01 10:01:00";
       Mpesa.auth_reply := Mpesa.Rejected (Error "unused");
       Mpesa.api_reply := Mpesa.Resolved (VObj [("ResultCode", VNum 0);
                                               ("ResultDesc", VStr "processed")]) |} in
  let poll := VObj [("checkoutRequestID", VStr "ws_CO_1");
                    ("merchantRequestID", VStr "m-1")] in
  (∃ r, Mpesa.store (Mpesa.after (Mpesa.callback (H := Scenario.plain) Scenario.pushed
                                    Scenario.paid (Scenario.later "2024-03-01 10:01:00")))
        !! 0%nat = Some r ∧ Store.status r = Store.completed)
  ∧ (∃ r, Mpesa.store (Mpesa.after (Mpesa.stkquery (H := Scenario.plain) Scenario.configured
                                      Scenario.pushed poll answered))
          !! 0%nat = Some r ∧ Store.status r = Store.completed).
Proof.
  intros answered poll.
  destruct (callback_and_query_agree (P := Scenario.plain) Scenario.configured (VNum 0))
    as (_ & _ & Hcallback & Hpoll & _).
  split.
  - eapply (Hcallback Scenario.pushed Scenario.paid (Scenario.later "2024-03-01 10:01:00")
              0%nat); [reflexivity|reflexivity|reflexivity| |reflexivity|reflexivity].
    intros label Hin%list_elem_of_In. vm_compute in Hin.
    intuition discriminate.
  - eapply (Hpoll Scenario.pushed poll answered _ 0%nat); reflexivity.
Defined.
